(** * PQC-secured NetSquid tunnel: a shallow embedding

    Source: [src/NetsquidTunnel/netsquid_tunnel_PQC_tunnel.py]; the
    SeQUeNCe tunnel of [src/SequenceTunnel/sequence_tunnel.py] has a module
    of its own, [SequenceTunnel].

    The development follows the layering of the Python module:
    - byte strings and the two [struct] formats the module uses;
    - [hashlib.sha256] (FIPS 180-4), written out so that every definition
      below evaluates on concrete inputs;
    - [PQCManager]: key establishment and the XOR key-stream cipher;
    - [SCTPEventHandler]: key exchange, security gate, and the path that
      encrypts, hands to the channel, decrypts, verifies and forwards;
    - the discrete-event loop that hosts the handler ([pydynaa], NetSquid).

    A Python function that mutates its object returns the new object; what
    it logs, sends, schedules or writes is returned as a trace of effects.
    What the outside world decides (the key encapsulation library, what a
    read returns, whether a write succeeds) is an argument. *)

From Stdlib Require Import List NArith ZArith QArith Lia Bool String Ascii.
From Stdlib Require Import Strings.Byte.
Import ListNotations.

(* ------------------------------------------------------------------ *)
(** ** Byte strings *)

(** A Python [bytes] object. *)
Definition bytes := list byte.

(** Python truthiness of a [bytes] object: [b""] is falsy. *)
Definition truthy (b : bytes) : bool :=
  match b with [] => false | _ :: _ => true end.

(** Truthiness of a value that is either [None] or a [bytes] object. *)
Definition truthy_opt (o : option bytes) : bool :=
  match o with None => false | Some b => truthy b end.

(** The byte whose value is [n mod 256]. *)
Definition byte_of_N (n : N) : byte :=
  match Byte.of_N (n mod 256) with Some b => b | None => x00 end.

(** [a ^ b] on two integers in [range(256)]. *)
Definition byte_xor (a b : byte) : byte :=
  byte_of_N (N.lxor (Byte.to_N a) (Byte.to_N b)).

(** [bytes(a ^ b for a, b in zip(data, key_stream))] *)
Definition xor_zip (data key_stream : bytes) : bytes :=
  map (fun p => byte_xor (fst p) (snd p)) (combine data key_stream).

Definition bytes_eqb (a b : bytes) : bool :=
  if list_eq_dec Byte.byte_eq_dec a b then true else false.

(** Big-endian encoding of [n] on [k] bytes (the most significant first). *)
Fixpoint be_bytes (k : nat) (n : N) : bytes :=
  match k with
  | O => []
  | S k' => byte_of_N (N.shiftr n (8 * N.of_nat k')) :: be_bytes k' n
  end.

(** Little-endian encoding of [n] on [k] bytes. *)
Fixpoint le_bytes (k : nat) (n : N) : bytes :=
  match k with
  | O => []
  | S k' => byte_of_N n :: le_bytes k' (N.shiftr n 8)
  end.

Definition be_value (b : bytes) : N :=
  fold_left (fun acc x => (acc * 256 + Byte.to_N x)%N) b 0%N.

Definition le_value (b : bytes) : N :=
  fold_right (fun x acc => (Byte.to_N x + 256 * acc)%N) 0%N b.

(** [bytes.hex()] / [hexdigest()]: two lowercase hexadecimal digits a byte. *)
Definition hex_digit (n : N) : ascii :=
  nth (N.to_nat n) (list_ascii_of_string "0123456789abcdef") "0"%char.

Fixpoint hex (b : bytes) : string :=
  match b with
  | [] => EmptyString
  | x :: r =>
      String (hex_digit (Byte.to_N x / 16))
        (String (hex_digit (Byte.to_N x mod 16)) (hex r))
  end.

(** [s[:n]] on a [str]. *)
Fixpoint str_prefix (n : nat) (s : string) : string :=
  match n, s with
  | S n', String c r => String c (str_prefix n' r)
  | _, _ => EmptyString
  end.

(* ------------------------------------------------------------------ *)
(** ** [hashlib.sha256] *)

Module SHA256.
Local Open Scope N_scope.

Definition mask32 : N := 4294967295.
Definition add32 (x y : N) : N := (x + y) mod 4294967296.
Definition not32 (x : N) : N := N.lxor x mask32.
Definition rotr (n x : N) : N :=
  N.lor (N.shiftr x n) (N.land (N.shiftl x (32 - n)) mask32).
Definition shr (n x : N) : N := N.shiftr x n.
Definition xor3 (a b c : N) : N := N.lxor (N.lxor a b) c.

Definition Ch (x y z : N) : N := N.lxor (N.land x y) (N.land (not32 x) z).
Definition Maj (x y z : N) : N :=
  xor3 (N.land x y) (N.land x z) (N.land y z).
Definition big_sigma0 (x : N) : N := xor3 (rotr 2 x) (rotr 13 x) (rotr 22 x).
Definition big_sigma1 (x : N) : N := xor3 (rotr 6 x) (rotr 11 x) (rotr 25 x).
Definition small_sigma0 (x : N) : N := xor3 (rotr 7 x) (rotr 18 x) (shr 3 x).
Definition small_sigma1 (x : N) : N := xor3 (rotr 17 x) (rotr 19 x) (shr 10 x).

(** Round constants: the first 32 bits of the fractional parts of the cube
    roots of the first 64 primes. *)
Definition K : list N :=
  [ 1116352408; 1899447441; 3049323471; 3921009573;
    961987163; 1508970993; 2453635748; 2870763221;
    3624381080; 310598401; 607225278; 1426881987;
    1925078388; 2162078206; 2614888103; 3248222580;
    3835390401; 4022224774; 264347078; 604807628;
    770255983; 1249150122; 1555081692; 1996064986;
    2554220882; 2821834349; 2952996808; 3210313671;
    3336571891; 3584528711; 113926993; 338241895;
    666307205; 773529912; 1294757372; 1396182291;
    1695183700; 1986661051; 2177026350; 2456956037;
    2730485921; 2820302411; 3259730800; 3345764771;
    3516065817; 3600352804; 4094571909; 275423344;
    430227734; 506948616; 659060556; 883997877;
    958139571; 1322822218; 1537002063; 1747873779;
    1955562222; 2024104815; 2227730452; 2361852424;
    2428436474; 2756734187; 3204031479; 3329325298 ].

(** The eight working variables / the chaining value. *)
Record hstate : Type := HState
  { ha : N; hb : N; hc : N; hd : N; he : N; hf : N; hg : N; hh : N }.

(** Initial hash value: fractional parts of the square roots of the first
    eight primes. *)
Definition H0 : hstate :=
  HState 1779033703 3144134277 1013904242 2773480762
         1359893119 2600822924 528734635 1541459225.

(** Padding: a [0x80] byte, zero bytes up to 56 modulo 64, then the bit
    length on eight big-endian bytes. *)
Definition pad (msg : bytes) : bytes :=
  let len := N.of_nat (List.length msg) in
  msg ++ x80 :: repeat x00 (N.to_nat ((119 - len mod 64) mod 64))
      ++ be_bytes 8 (8 * len).

(** Big-endian 32-bit words of a block. *)
Fixpoint words (fuel : nat) (b : bytes) : list N :=
  match fuel, b with
  | S fuel', b0 :: b1 :: b2 :: b3 :: r =>
      be_value [b0; b1; b2; b3] :: words fuel' r
  | _, _ => []
  end.

(** Message schedule, most recent word first: the head of [w] is
    [W(t-1)]. *)
Fixpoint schedule (n : nat) (w : list N) : list N :=
  match n with
  | O => w
  | S n' =>
      let wt := add32 (add32 (small_sigma1 (nth 1 w 0)) (nth 6 w 0))
                      (add32 (small_sigma0 (nth 14 w 0)) (nth 15 w 0)) in
      schedule n' (wt :: w)
  end.

Definition round (s : hstate) (kw : N * N) : hstate :=
  let '(k, w) := kw in
  let t1 := add32 (add32 (add32 (hh s) (big_sigma1 (he s)))
                         (add32 (Ch (he s) (hf s) (hg s)) k)) w in
  let t2 := add32 (big_sigma0 (ha s)) (Maj (ha s) (hb s) (hc s)) in
  HState (add32 t1 t2) (ha s) (hb s) (hc s)
         (add32 (hd s) t1) (he s) (hf s) (hg s).

Definition compress (h : hstate) (block : bytes) : hstate :=
  let w := rev (schedule 48 (rev (words 16 block))) in
  let s := fold_left round (combine K w) h in
  HState (add32 (ha h) (ha s)) (add32 (hb h) (hb s))
         (add32 (hc h) (hc s)) (add32 (hd h) (hd s))
         (add32 (he h) (he s)) (add32 (hf h) (hf s))
         (add32 (hg h) (hg s)) (add32 (hh h) (hh s)).

(** Absorb the padded message, 64 bytes at a time. *)
Fixpoint blocks (fuel : nat) (h : hstate) (m : bytes) : hstate :=
  match fuel, m with
  | S fuel', _ :: _ => blocks fuel' (compress h (firstn 64 m)) (skipn 64 m)
  | _, _ => h
  end.

Definition output (h : hstate) : bytes :=
  be_bytes 4 (ha h) ++ be_bytes 4 (hb h) ++ be_bytes 4 (hc h)
    ++ be_bytes 4 (hd h) ++ be_bytes 4 (he h) ++ be_bytes 4 (hf h)
    ++ be_bytes 4 (hg h) ++ be_bytes 4 (hh h).

(** [hashlib.sha256(msg).digest()] *)
Definition digest (msg : bytes) : bytes :=
  let m := pad msg in
  output (blocks (List.length m) H0 m).

(** [hashlib.sha256(msg).hexdigest()] *)
Definition hexdigest (msg : bytes) : string := hex (digest msg).
End SHA256.

(* ------------------------------------------------------------------ *)
(** ** [struct] formats *)

(** [sys.byteorder] of the host that runs the tunnel. *)
Inductive byteorder : Type := little | big.

(** [struct.pack('>Q', n)]: eight bytes, big-endian. *)
Definition pack_Q_be (n : N) : bytes := be_bytes 8 n.

(** [struct.pack('=I', n)]: four bytes (standard size) in the byte order of
    the host. *)
Definition pack_I_native (o : byteorder) (n : N) : bytes :=
  match o with little => le_bytes 4 n | big => be_bytes 4 n end.

(** [struct.unpack('=I', b)[0]]; [struct.error] unless [len(b) == 4]. *)
Definition unpack_I_native (o : byteorder) (b : bytes) : option N :=
  if Nat.eqb (List.length b) 4
  then Some (match o with little => le_value b | big => be_value b end)
  else None.

(** [struct.pack('>I', n)], the big-endian format (not used by the module;
    stated for comparison). *)
Definition pack_I_be (n : N) : bytes := be_bytes 4 n.

(* ------------------------------------------------------------------ *)
(** ** Observable effects *)

Inductive level : Type := INFO | WARNING | ERROR.

(** The two external stream sockets (module globals [cu_client_socket] and
    [du_conn]) and the two NetSquid nodes. *)
Inductive sock_id : Type := CU_SOCKET | DU_SOCKET.
Inductive node_id : Type := CU_NODE | DU_NODE.

Definition sock_id_eqb (a b : sock_id) : bool :=
  match a, b with
  | CU_SOCKET, CU_SOCKET | DU_SOCKET, DU_SOCKET => true
  | _, _ => false
  end.

(** Values that flow through the handshake: [None], [True] or [bytes]. *)
Inductive pyval : Type := PyNone | PyTrue | PyBytes (b : bytes).

Definition pyval_truthy (v : pyval) : bool :=
  match v with PyNone => false | PyTrue => true | PyBytes b => truthy b end.

(** One constructor for each [logger] call of the module. *)
Inductive log_msg : Type :=
| MsgGeneratedKeypair (name : string)
| MsgGeneratedSecret (name : string)
| MsgRecoveredSecret (name : string)
| MsgKeyEstablishmentError (name : string)
| MsgNoSharedSecret (name : string)
| MsgProtected (name direction : string) (size : nat)
| MsgProtectionError (name : string)
| MsgNodeReceived (name : string) (size : nat)
| MsgMessageHandlingError (name : string)
| MsgTunnelReady
| MsgInitFailed (reason : string)
| MsgBlocked (size : nat) (source_name : string)
| MsgDirectAttempt
| MsgProcessing (source_name target_name : string) (size : nat)
| MsgIntegrityFailed
| MsgSendFailed (target_name : string)
| MsgEmptyData (s : sock_id)
| MsgConnectionError (s : sock_id)
| MsgTransferError
| MsgSelectError.

Inductive evtype : Type := evtype_poll | evtype_init.

Inductive effect : Type :=
| Log (lvl : level) (m : log_msg)
| TxOutput (n : node_id) (payload : pyval)   (* node.ports["out_port"].tx_output *)
| SetBlocking (s : sock_id) (flag : bool)
| SctpSend (s : sock_id) (data : bytes) (ppid : N)
| SendAll (s : sock_id) (data : bytes)
| Close (s : sock_id)
| ScheduleAfter (delay : Z) (e : evtype).

Definition trace := list effect.

(** Outcome of a call into a library that may raise. *)
Inductive outcome (A : Type) : Type :=
| Returns (a : A)
| Raises.
Arguments Returns {A} a.
Arguments Raises {A}.

(* ------------------------------------------------------------------ *)
(** ** [PQCManager] *)

(** [oqs.KeyEncapsulation("Kyber512")]: the three operations the module
    calls.  They are taken as given; each may raise. *)
Record KeyEncapsulation : Type := {
  generate_keypair : outcome bytes;
  encap_secret : bytes -> outcome (bytes * bytes);
  decap_secret : bytes -> outcome bytes
}.

Record PQCManager : Type := {
  name : string;
  is_server : bool;
  kem : KeyEncapsulation;
  public_key : option bytes;
  kem_instance : option KeyEncapsulation;
  shared_secret : option bytes
}.

(** [PQCManager.__init__] *)
Definition PQCManager_init (name : string) (is_server : bool)
    (kem : KeyEncapsulation) : PQCManager :=
  {| name := name; is_server := is_server; kem := kem;
     public_key := None; kem_instance := None; shared_secret := None |}.

Definition set_kem_instance (m : PQCManager) : PQCManager :=
  {| name := name m; is_server := is_server m; kem := kem m;
     public_key := public_key m; kem_instance := Some (kem m);
     shared_secret := shared_secret m |}.

Definition set_public_key (m : PQCManager) (pk : bytes) : PQCManager :=
  {| name := name m; is_server := is_server m; kem := kem m;
     public_key := Some pk; kem_instance := kem_instance m;
     shared_secret := shared_secret m |}.

Definition set_shared_secret (m : PQCManager) (s : bytes) : PQCManager :=
  {| name := name m; is_server := is_server m; kem := kem m;
     public_key := public_key m; kem_instance := kem_instance m;
     shared_secret := Some s |}.

(** [PQCManager.setup_keypair]. [generate_keypair] is called outside any
    [try], so its exception reaches the caller. *)
Definition setup_keypair (m : PQCManager)
  : outcome (option bytes) * PQCManager * trace :=
  if negb (is_server m) then
    let m1 := set_kem_instance m in
    match generate_keypair (kem m) with
    | Raises => (Raises, m1, [])
    | Returns pk =>
        (Returns (Some pk), set_public_key m1 pk,
         [Log INFO (MsgGeneratedKeypair (name m))])
    end
  else (Returns None, m, []).

(** [PQCManager.establish_shared_secret]: the result is the ciphertext
    (server), [True] (client) or [None]; every exception is caught. *)
Definition establish_shared_secret (m : PQCManager)
    (client_public_key server_ciphertext : pyval)
  : pyval * PQCManager * trace :=
  let failed := (PyNone, m, [Log ERROR (MsgKeyEstablishmentError (name m))]) in
  if is_server m && pyval_truthy client_public_key then
    match client_public_key with
    | PyBytes pk =>
        match encap_secret (kem m) pk with
        | Returns (ciphertext, secret) =>
            (PyBytes ciphertext, set_shared_secret m secret,
             [Log INFO (MsgGeneratedSecret (name m))])
        | Raises => failed
        end
    | _ => failed
    end
  else if negb (is_server m) && pyval_truthy server_ciphertext then
    match kem_instance m, server_ciphertext with
    | Some k, PyBytes ct =>
        match decap_secret k ct with
        | Returns secret =>
            (PyTrue, set_shared_secret m secret,
             [Log INFO (MsgRecoveredSecret (name m))])
        | Raises => failed
        end
    | _, _ => failed
    end
  else (PyNone, m, []).

(** [counter_bytes = struct.pack('>Q', 0)] *)
Definition counter_bytes : bytes := pack_Q_be 0.

(** The [while len(key_stream) < len(data)] loop of [protect_data]; [None]
    when [fuel] iterations do not reach the exit. *)
Fixpoint extend_key_stream (fuel : nat) (n : nat) (key_stream : bytes)
  : option bytes :=
  if Nat.ltb (List.length key_stream) n then
    match fuel with
    | O => None
    | S fuel' =>
        let key_material := SHA256.digest key_stream ++ counter_bytes in
        extend_key_stream fuel' n (key_stream ++ SHA256.digest key_material)
    end
  else Some key_stream.

(** The key stream [protect_data] builds for [n] bytes of data, before
    truncation. *)
Definition expand_key_stream (secret : bytes) (n : nat) : option bytes :=
  let key_material := secret ++ counter_bytes in
  extend_key_stream n n (SHA256.digest key_material).

(** [PQCManager.protect_data]: [None] is Python's [None].  The third case
    is the [except] branch; the loop always exits within the fuel given
    (see [expand_key_stream_total]). *)
Definition protect_data (m : PQCManager) (data : bytes) (direction : string)
  : option bytes * trace :=
  match shared_secret m with
  | None | Some [] => (None, [Log ERROR (MsgNoSharedSecret (name m))])
  | Some secret =>
      match expand_key_stream secret (List.length data) with
      | Some key_stream =>
          let key_stream := firstn (List.length data) key_stream in
          (Some (xor_zip data key_stream),
           [Log INFO (MsgProtected (name m) direction (List.length data))])
      | None => (None, [Log ERROR (MsgProtectionError (name m))])
      end
  end.

(** The function of [(secret, data)] that [protect_data] computes. *)
Definition protect (secret data : bytes) : option bytes :=
  fst (protect_data
         {| name := "QCU"; is_server := true;
            kem := {| generate_keypair := Raises;
                      encap_secret := fun _ => Raises;
                      decap_secret := fun _ => Raises |};
            public_key := None; kem_instance := None;
            shared_secret := Some secret |} data "Encrypted").

(* ------------------------------------------------------------------ *)
(** ** [SCTPEventHandler] *)

(** Module constants. *)
Definition BUFFER_SIZE : Z := 8192.
Definition POLL_INTERVAL : Z := 1.
Definition F1AP_PPID : N := 62.

(** A socket object, as far as the module looks at it. *)
Record socket : Type := { fileno : Z }.

(** The handler together with what it reaches: the two managers of
    [self.connection] and the module globals [cu_client_socket] and
    [du_conn] ([None] once closed). *)
Record SCTPEventHandler : Type := {
  qdu_pqc : PQCManager;
  qcu_pqc : PQCManager;
  tunnel_ready : bool;
  cu_client_socket : option socket;
  du_conn : option socket
}.

Definition set_qdu_pqc (st : SCTPEventHandler) (m : PQCManager) :=
  {| qdu_pqc := m; qcu_pqc := qcu_pqc st; tunnel_ready := tunnel_ready st;
     cu_client_socket := cu_client_socket st; du_conn := du_conn st |}.

Definition set_qcu_pqc (st : SCTPEventHandler) (m : PQCManager) :=
  {| qdu_pqc := qdu_pqc st; qcu_pqc := m; tunnel_ready := tunnel_ready st;
     cu_client_socket := cu_client_socket st; du_conn := du_conn st |}.

Definition set_tunnel_ready (st : SCTPEventHandler) (b : bool) :=
  {| qdu_pqc := qdu_pqc st; qcu_pqc := qcu_pqc st; tunnel_ready := b;
     cu_client_socket := cu_client_socket st; du_conn := du_conn st |}.

Definition set_global (st : SCTPEventHandler) (s : sock_id)
    (v : option socket) :=
  match s with
  | CU_SOCKET =>
      {| qdu_pqc := qdu_pqc st; qcu_pqc := qcu_pqc st;
         tunnel_ready := tunnel_ready st;
         cu_client_socket := v; du_conn := du_conn st |}
  | DU_SOCKET =>
      {| qdu_pqc := qdu_pqc st; qcu_pqc := qcu_pqc st;
         tunnel_ready := tunnel_ready st;
         cu_client_socket := cu_client_socket st; du_conn := v |}
  end.

Definition get_global (st : SCTPEventHandler) (s : sock_id) : option socket :=
  match s with
  | CU_SOCKET => cu_client_socket st
  | DU_SOCKET => du_conn st
  end.

(** [sock.fileno()] of the socket object [s]: [-1] once it was closed (the
    global that held it is [None] from then on). *)
Definition sock_fileno (st : SCTPEventHandler) (s : sock_id) : Z :=
  match get_global st s with Some so => fileno so | None => (-1)%Z end.

(** [g and g.fileno() != -1] for a global [g]. *)
Definition usable (g : option socket) : bool :=
  match g with Some so => negb (Z.eqb (fileno so) (-1)) | None => false end.

(** [ClassicalConnection.__init__] and [SCTPEventHandler.__init__], with the
    sockets [main] opened: QDU is the client side of the key exchange, QCU
    the server side, and the tunnel is not ready. *)
Definition SCTPEventHandler_init (qdu_kem qcu_kem : KeyEncapsulation)
    (cu du : option socket) : SCTPEventHandler :=
  {| qdu_pqc := PQCManager_init "QDU" false qdu_kem;
     qcu_pqc := PQCManager_init "QCU" true qcu_kem;
     tunnel_ready := false;
     cu_client_socket := cu; du_conn := du |}.

(** The messages of the exceptions [initialize_pqc] reports. *)
Definition E_keypair : string := "Failed to generate QDU keypair".
Definition E_mismatch : string := "Shared secret mismatch between QCU and QDU".
Definition E_recover : string := "QDU failed to recover shared secret".
Definition E_ciphertext : string := "QCU failed to generate ciphertext".
(** Stands for [str(e)] of an exception raised by a library. *)
Definition E_library : string := "<library exception>".

(** [hashlib.sha256(secret).hexdigest()[:8]] *)
Definition secret_hash (secret : bytes) : string :=
  str_prefix 8 (SHA256.hexdigest secret).

(** [SCTPEventHandler.initialize_pqc] *)
Definition initialize_pqc (st : SCTPEventHandler) : SCTPEventHandler * trace :=
  let failed st' t reason :=
    (st', t ++ [Log ERROR (MsgInitFailed reason)]) in
  (* 1. QDU generates keypair *)
  let '(r, qdu1, t1) := setup_keypair (qdu_pqc st) in
  let st1 := set_qdu_pqc st qdu1 in
  match r with
  | Raises => failed st1 t1 E_library
  | Returns None | Returns (Some []) => failed st1 t1 E_keypair
  | Returns (Some qdu_public_key) =>
      (* 2. public key to QCU through the channel *)
      let t2 := t1 ++ [TxOutput DU_NODE (PyBytes qdu_public_key)] in
      (* 3. QCU generates the ciphertext *)
      let '(ciphertext, qcu1, t3) :=
        establish_shared_secret (qcu_pqc st1) (PyBytes qdu_public_key) PyNone in
      let st2 := set_qcu_pqc st1 qcu1 in
      if pyval_truthy ciphertext then
        (* 4. ciphertext to QDU through the channel *)
        let t4 := t2 ++ t3 ++ [TxOutput CU_NODE ciphertext] in
        (* 5. QDU recovers the shared secret *)
        let '(ok, qdu2, t5) :=
          establish_shared_secret (qdu_pqc st2) PyNone ciphertext in
        let st3 := set_qdu_pqc st2 qdu2 in
        if pyval_truthy ok then
          (* 6. verify that the shared secrets match *)
          match shared_secret (qcu_pqc st3), shared_secret (qdu_pqc st3) with
          | Some qcu_secret, Some qdu_secret =>
              let qcu_hash := secret_hash qcu_secret in
              let qdu_hash := secret_hash qdu_secret in
              if String.eqb qcu_hash qdu_hash then
                (set_tunnel_ready st3 true,
                 t4 ++ t5 ++ [Log INFO MsgTunnelReady])
              else failed st3 (t4 ++ t5) E_mismatch
          | _, _ => failed st3 (t4 ++ t5) E_library
          end
        else failed st3 (t4 ++ t5) E_recover
      else failed st2 (t2 ++ t3) E_ciphertext
  end.

(** What the peer and the kernel answer to one read on a socket. *)
Record cmsg : Type := { cmsg_level : Z; cmsg_type : Z; cmsg_data : bytes }.

Inductive recv_outcome : Type :=
| RecvMsg (orig_data : bytes) (ancdata : list cmsg)
    (* [sock.recvmsg] returned *)
| RecvPlain (orig_data : bytes)
    (* [recvmsg] raised AttributeError, TypeError or ValueError and the
       fallback [sock.recv] returned *)
| RecvWouldBlock          (* [recvmsg] raised BlockingIOError *)
| RecvConnectionLost      (* BrokenPipeError or ConnectionResetError *)
| RecvError.              (* any other exception *)

(** What happens to one [_send_with_ppid] on the destination socket. *)
Inductive send_outcome : Type :=
| SendSctp        (* [sock.sctp_send] returned *)
| SendFallback    (* AttributeError or TypeError, then [sock.sendall] returned *)
| SendError.      (* an exception reaches the caller *)

Section Platform.
(** Byte order of the host and the two constants taken from the [sctp]
    package (132 and 3 when the import fails). *)
Variable host : byteorder.
Variables IPPROTO_SCTP SCTP_PPID : Z.

(** The loop over [ancdata] in [_process_socket_data]; [None] when
    [struct.unpack] raises. *)
Fixpoint extract_ppid (ancdata : list cmsg) (ppid : N) : option N :=
  match ancdata with
  | [] => Some ppid
  | c :: rest =>
      if Z.eqb (cmsg_level c) IPPROTO_SCTP && Z.eqb (cmsg_type c) SCTP_PPID
      then match unpack_I_native host (cmsg_data c) with
           | Some p => extract_ppid rest p
           | None => None
           end
      else extract_ppid rest ppid
  end.

(** [SCTPEventHandler._send_with_ppid] *)
Definition _send_with_ppid (sock : sock_id) (data : bytes) (ppid : N)
    (snd : send_outcome) : outcome unit * trace :=
  match snd with
  | SendSctp => (Returns tt, [SctpSend sock data ppid])
  | SendFallback => (Returns tt, [SendAll sock data])
  | SendError => (Raises, [])
  end.

(** One direction of [_process_data_through_pqc], after the readiness check: steps
    1 to 5 with the sending manager [enc], the receiving manager [dec],
    the node the data leaves from and the destination socket. *)
Definition secured_flow (st : SCTPEventHandler) (enc dec : PQCManager)
    (out_node : node_id) (dst : sock_id) (orig_data : bytes)
    (source_name target_name : string) (ppid : N) (snd : send_outcome)
  : outcome unit * trace :=
  let t0 := [Log INFO (MsgProcessing source_name target_name
                         (List.length orig_data))] in
  (* 1. encrypt *)
  let '(encrypted, t1) := protect_data enc orig_data "Encrypted" in
  match encrypted with
  | None | Some [] => (Returns tt, t0 ++ t1)
  | Some encrypted =>
      (* 2. through the simulated channel *)
      if N.ltb ppid 4294967296 then
        let data_with_ppid := pack_I_native host ppid ++ encrypted in
        let t2 := [TxOutput out_node (PyBytes data_with_ppid)] in
        (* 3. decrypt *)
        match unpack_I_native host (firstn 4 data_with_ppid) with
        | None => (Raises, t0 ++ t1 ++ t2)
        | Some received_ppid =>
            let '(decrypted, t3) := protect_data dec encrypted "Decrypted" in
            match decrypted with
            | None | Some [] => (Returns tt, t0 ++ t1 ++ t2 ++ t3)
            | Some decrypted =>
                (* 4. verify *)
                if negb (bytes_eqb decrypted orig_data) then
                  (Returns tt,
                   t0 ++ t1 ++ t2 ++ t3 ++ [Log ERROR MsgIntegrityFailed])
                else
                  (* 5. forward to the destination socket *)
                  let t5 :=
                    if usable (get_global st dst) then
                      match _send_with_ppid dst decrypted received_ppid snd with
                      | (Returns _, ts) =>
                          [SetBlocking dst true] ++ ts
                            ++ [SetBlocking dst false]
                      | (Raises, ts) =>
                          [SetBlocking dst true] ++ ts
                            ++ [Log ERROR (MsgSendFailed target_name)]
                      end
                    else [] in
                  (Returns tt, t0 ++ t1 ++ t2 ++ t3 ++ t5)
            end
        end
      else (Raises, t0 ++ t1)
  end.

(** [SCTPEventHandler._process_data_through_pqc] *)
Definition _process_data_through_pqc (st : SCTPEventHandler)
    (orig_data : bytes) (is_cu_socket : bool)
    (source_name target_name : string) (ppid : N) (snd : send_outcome)
  : outcome unit * trace :=
  if negb (tunnel_ready st) then
    (Returns tt, [Log ERROR MsgDirectAttempt])
  else if is_cu_socket then
    secured_flow st (qcu_pqc st) (qdu_pqc st) CU_NODE DU_SOCKET
      orig_data source_name target_name ppid snd
  else
    secured_flow st (qdu_pqc st) (qcu_pqc st) DU_NODE CU_SOCKET
      orig_data source_name target_name ppid snd.

(** [sock == cu_client_socket] *)
Definition is_cu (st : SCTPEventHandler) (sock : sock_id) : bool :=
  sock_id_eqb sock CU_SOCKET
  && match cu_client_socket st with Some _ => true | None => false end.

(** [_handle_empty_data] and [_handle_connection_error] differ in the
    line they log only: close the socket and clear its global. *)
Definition close_side (st : SCTPEventHandler) (sock : sock_id)
    (m : sock_id -> log_msg) : SCTPEventHandler * trace :=
  let side := if is_cu st sock then CU_SOCKET else DU_SOCKET in
  match get_global st side with
  | Some _ => (set_global st side None, [Log WARNING (m side); Close side])
  | None => (st, [Log WARNING (m side)])
  end.

Definition _handle_empty_data (st : SCTPEventHandler) (sock : sock_id) :=
  close_side st sock MsgEmptyData.

Definition _handle_connection_error (st : SCTPEventHandler)
    (sock : sock_id) :=
  close_side st sock MsgConnectionError.

(** The [finally] clause of [_process_socket_data]. *)
Definition reset_nonblocking (st : SCTPEventHandler) (sock : sock_id)
  : trace :=
  if Z.eqb (sock_fileno st sock) (-1) then [] else [SetBlocking sock false].

(** [SCTPEventHandler._process_socket_data] *)
Definition _process_socket_data (st : SCTPEventHandler) (sock : sock_id)
    (rcv : recv_outcome) (snd : send_outcome) : SCTPEventHandler * trace :=
  let finally '(st', t) := (st', t ++ reset_nonblocking st' sock) in
  let transfer_error t := (st, t ++ [Log ERROR MsgTransferError]) in
  if Z.eqb (sock_fileno st sock) (-1) then
    finally (transfer_error [])
  else
    let t0 := [SetBlocking sock false] in
    let received :=
      match rcv with
      | RecvMsg d anc =>
          match extract_ppid anc F1AP_PPID with
          | Some ppid => inl (d, ppid)
          | None => inr RecvError
          end
      | RecvPlain d => inl (d, F1AP_PPID)
      | other => inr other
      end in
    match received with
    | inr RecvWouldBlock => finally (st, t0)
    | inr RecvConnectionLost =>
        let '(st', t) := _handle_connection_error st sock in
        finally (st', t0 ++ t)
    | inr _ => finally (transfer_error t0)
    | inl ([], _) =>
        let '(st', t) := _handle_empty_data st sock in
        finally (st', t0 ++ t)
    | inl (orig_data, ppid) =>
        let is_cu_socket := is_cu st sock in
        let source_name := (if is_cu_socket then "CU" else "DU")%string in
        let target_name := (if is_cu_socket then "DU" else "CU")%string in
        if tunnel_ready st then
          match _process_data_through_pqc st orig_data is_cu_socket
                  source_name target_name ppid snd with
          | (Returns _, t) => finally (st, t0 ++ t)
          | (Raises, t) => finally (transfer_error (t0 ++ t))
          end
        else
          finally (st, t0 ++ [Log WARNING
                                (MsgBlocked (List.length orig_data)
                                   source_name)])
    end.

(** What [select.select] answers to one poll: the readable sockets, each
    with what its read and the forwarding write will meet. *)
Inductive select_outcome : Type :=
| Readable (l : list (sock_id * recv_outcome * send_outcome))
| SelectRaises.

Fixpoint process_readable (st : SCTPEventHandler)
    (l : list (sock_id * recv_outcome * send_outcome))
  : SCTPEventHandler * trace :=
  match l with
  | [] => (st, [])
  | (sock, rcv, snd) :: rest =>
      let '(st1, t1) := _process_socket_data st sock rcv snd in
      let '(st2, t2) := process_readable st1 rest in
      (st2, t1 ++ t2)
  end.

(** [SCTPEventHandler.poll_sctp_messages] *)
Definition poll_sctp_messages (st : SCTPEventHandler) (sel : select_outcome)
  : SCTPEventHandler * trace :=
  let valid s := usable (get_global st s) in
  if negb (valid CU_SOCKET || valid DU_SOCKET) then
    (st, [ScheduleAfter POLL_INTERVAL evtype_poll])
  else
    let '(st', t) :=
      match sel with
      | Readable l =>
          process_readable st (filter (fun x => valid (fst (fst x))) l)
      | SelectRaises => (st, [Log ERROR MsgSelectError])
      end in
    (st', t ++ [ScheduleAfter POLL_INTERVAL evtype_poll]).
End Platform.

(* ------------------------------------------------------------------ *)
(** ** The discrete-event loop ([ns.sim_run]) *)

Definition node_name (n : node_id) : string :=
  match n with CU_NODE => "CU" | DU_NODE => "DU" end.

(** [SCTPNode.handle_message]: log the size of what arrived; [len] of a
    value that has none raises, which is caught and logged. *)
Definition handle_message (n : node_id) (message : pyval) : trace :=
  match message with
  | PyBytes data => [Log INFO (MsgNodeReceived (node_name n) (List.length data))]
  | _ => [Log ERROR (MsgMessageHandlingError (node_name n))]
  end.

(** [main] wires the out port of each node, through one channel of the
    connection, to the in port of the other node. *)
Definition peer (n : node_id) : node_id :=
  match n with CU_NODE => DU_NODE | DU_NODE => CU_NODE end.

(** [FixedDelayModel(delay=150e-3)], in the time unit of the simulation. *)
Definition CHANNEL_DELAY : Q := 150 # 1000.

Inductive sim_event : Type :=
| Fire (e : evtype)                        (* an event of the handler entity *)
| Arrive (n : node_id) (message : pyval).  (* a channel delivers at [n] *)

Record simulation : Type := {
  sim_time : Q;
  events : list (Q * sim_event);  (* pending, by increasing fire time *)
  handler : SCTPEventHandler;
  observed : list (Q * effect)    (* effects so far, each with its time *)
}.

(** Insertion by fire time; events of equal time keep their order of
    arrival. *)
Fixpoint enqueue (t : Q) (e : sim_event) (q : list (Q * sim_event))
  : list (Q * sim_event) :=
  match q with
  | [] => [(t, e)]
  | (t', e') :: rest =>
      if Qle_bool t' t then (t', e') :: enqueue t e rest
      else (t, e) :: q
  end.

(** What the kernel does with the effects of a handler that ran at [now]:
    they take place at [now]; a [_schedule_after] and a [tx_output] add an
    event. *)
Fixpoint perform (now : Q) (t : trace) (q : list (Q * sim_event))
  : list (Q * sim_event) :=
  match t with
  | [] => q
  | ScheduleAfter d e :: rest =>
      perform now rest (enqueue (now + inject_Z d) (Fire e) q)
  | TxOutput n m :: rest =>
      perform now rest (enqueue (now + CHANNEL_DELAY) (Arrive (peer n) m) q)
  | _ :: rest => perform now rest q
  end.

Definition stamp (now : Q) (t : trace) : list (Q * effect) :=
  map (fun e => (now, e)) t.

Section Simulation.
Variable host : byteorder.
Variables IPPROTO_SCTP SCTP_PPID : Z.

(** The simulation as [main] leaves it before [ns.sim_run()]: the handler
    constructor scheduled a poll after [POLL_INTERVAL] and the key
    exchange now. *)
Definition sim_init (h : SCTPEventHandler) : simulation :=
  {| sim_time := 0;
     events := enqueue 0 (Fire evtype_init)
                 (enqueue (0 + inject_Z POLL_INTERVAL) (Fire evtype_poll) []);
     handler := h;
     observed := [] |}.

(** Run the earliest pending event.  [w] lists what [select] answers to
    the successive polls (nothing readable once it is used up). *)
Definition sim_step (w : list select_outcome) (s : simulation)
  : list select_outcome * simulation :=
  match events s with
  | [] => (w, s)
  | (now, ev) :: rest =>
      let '(w', h', t) :=
        match ev with
        | Fire evtype_init =>
            let '(h', t) := initialize_pqc (handler s) in (w, h', t)
        | Fire evtype_poll =>
            let sel := match w with sel :: _ => sel | [] => Readable [] end in
            let '(h', t) :=
              poll_sctp_messages host IPPROTO_SCTP SCTP_PPID (handler s) sel in
            (tl w, h', t)
        | Arrive n m => (w, handler s, handle_message n m)
        end in
      (w', {| sim_time := now;
              events := perform now t rest;
              handler := h';
              observed := observed s ++ stamp now t |})
  end.

Fixpoint sim_run (fuel : nat) (w : list select_outcome) (s : simulation)
  : simulation :=
  match fuel with
  | O => s
  | S fuel' => let '(w', s') := sim_step w s in sim_run fuel' w' s'
  end.
End Simulation.

(* ------------------------------------------------------------------ *)
(** ** Vocabulary of the properties *)

(** Every path through [protect_data] logs exactly one line, and no other
    function logs these lines: they mark the calls of the cipher. *)
Definition is_cipher_call (e : effect) : bool :=
  match e with
  | Log _ (MsgProtected _ _ _)
  | Log _ (MsgNoSharedSecret _)
  | Log _ (MsgProtectionError _) => true
  | _ => false
  end.

(** Data handed to a NetSquid channel for delayed delivery. *)
Definition is_channel_send (e : effect) : bool :=
  match e with TxOutput _ _ => true | _ => false end.

Definition is_socket_write (e : effect) : bool :=
  match e with SctpSend _ _ _ | SendAll _ _ => true | _ => false end.

Definition passes_gate (e : effect) : bool :=
  is_cipher_call e || is_channel_send e || is_socket_write e.

(** The bytes a trace writes to the socket [s], in order. *)
Fixpoint written (s : sock_id) (t : trace) : bytes :=
  match t with
  | [] => []
  | SctpSend s' data _ :: rest | SendAll s' data :: rest =>
      if sock_id_eqb s s' then data ++ written s rest else written s rest
  | _ :: rest => written s rest
  end.

(** What one read hands to the pipeline: the data and its payload tag;
     [None] when the read raises. *)
Definition read_packet (host : byteorder) (IPPROTO_SCTP SCTP_PPID : Z)
    (rcv : recv_outcome) : option (bytes * N) :=
  match rcv with
  | RecvMsg d anc =>
      match extract_ppid host IPPROTO_SCTP SCTP_PPID anc F1AP_PPID with
      | Some ppid => Some (d, ppid)
      | None => None
      end
  | RecvPlain d => Some (d, F1AP_PPID)
  | _ => None
  end.

(** The read supplies a tag of its own: some ancillary message is an SCTP
    PPID message. *)
Definition supplies_tag (IPPROTO_SCTP SCTP_PPID : Z) (rcv : recv_outcome)
  : bool :=
  match rcv with
  | RecvMsg _ anc =>
      existsb (fun c => Z.eqb (cmsg_level c) IPPROTO_SCTP
                        && Z.eqb (cmsg_type c) SCTP_PPID) anc
  | _ => false
  end.

(** Successive firings of the poll event, one [select] answer each. *)
Fixpoint poll_loop (host : byteorder) (IPPROTO_SCTP SCTP_PPID : Z)
    (st : SCTPEventHandler) (w : list select_outcome)
  : SCTPEventHandler * trace :=
  match w with
  | [] => (st, [])
  | sel :: rest =>
      let '(st1, t1) := poll_sctp_messages host IPPROTO_SCTP SCTP_PPID st sel in
      let '(st2, t2) := poll_loop host IPPROTO_SCTP SCTP_PPID st1 rest in
      (st2, t1 ++ t2)
  end.

(** The manager that encrypts and the one that decrypts the data read from
    a socket. *)
Definition sender (st : SCTPEventHandler) (is_cu_socket : bool) : PQCManager :=
  if is_cu_socket then qcu_pqc st else qdu_pqc st.

Definition receiver (st : SCTPEventHandler) (is_cu_socket : bool) : PQCManager :=
  if is_cu_socket then qdu_pqc st else qcu_pqc st.

Definition out_node (is_cu_socket : bool) : node_id :=
  if is_cu_socket then CU_NODE else DU_NODE.

(** The socket the data read from a socket is forwarded to, and the names
    the log lines give to the two sides. *)
Definition destination (is_cu_socket : bool) : sock_id :=
  if is_cu_socket then DU_SOCKET else CU_SOCKET.

Definition source_name (is_cu_socket : bool) : string :=
  if is_cu_socket then "CU" else "DU".

Definition target_name (is_cu_socket : bool) : string :=
  if is_cu_socket then "DU" else "CU".

(** No effect of the trace is past the readiness check. *)
Definition quiet (t : trace) : Prop :=
  forallb (fun e => negb (passes_gate e)) t = true.

(** The handshake state a poll leaves alone: the flag and both managers. *)
Definition same_session (st st' : SCTPEventHandler) : Prop :=
  tunnel_ready st' = tunnel_ready st
  /\ qdu_pqc st' = qdu_pqc st
  /\ qcu_pqc st' = qcu_pqc st.

Definition is_integrity_failure (e : effect) : bool :=
  match e with Log _ MsgIntegrityFailed => true | _ => false end.

(** The effects a read can have: nothing of the key exchange, and no
    scheduling. *)
Definition is_data_plane (e : effect) : bool :=
  match e with
  | Log _ (MsgInitFailed _) | Log _ MsgTunnelReady
  | Log _ (MsgGeneratedKeypair _) | Log _ (MsgGeneratedSecret _)
  | Log _ (MsgRecoveredSecret _) | Log _ (MsgKeyEstablishmentError _)
  | Log _ (MsgNodeReceived _ _) | Log _ (MsgMessageHandlingError _)
  | Log _ MsgSelectError
  | ScheduleAfter _ _ => false
  | _ => true
  end.

(** A poll schedules the next poll and nothing else, and reports nothing
    about the key exchange. *)
Definition is_poll_effect (e : effect) : bool :=
  match e with
  | ScheduleAfter _ evtype_poll => true
  | Log _ MsgSelectError => true
  | _ => is_data_plane e
  end.

(** Both managers hold a secret and the two digests that [initialize_pqc]
    compares are equal. *)
Definition digests_match (st : SCTPEventHandler) : Prop :=
  exists a b,
    shared_secret (qcu_pqc st) = Some a
    /\ shared_secret (qdu_pqc st) = Some b
    /\ secret_hash a = secret_hash b.

Definition is_init_failure (e : effect) : bool :=
  match e with Log _ (MsgInitFailed _) => true | _ => false end.

Definition is_schedule (e : effect) : bool :=
  match e with ScheduleAfter _ _ => true | _ => false end.

(** Pending firings of the key exchange. *)
Fixpoint count_init (q : list (Q * sim_event)) : nat :=
  match q with
  | [] => 0
  | (_, Fire evtype_init) :: rest => S (count_init rest)
  | _ :: rest => count_init rest
  end.

Definition schedules_init (e : effect) : bool :=
  match e with ScheduleAfter _ evtype_init => true | _ => false end.

Definition no_failure_observed (obs : list (Q * effect)) : Prop :=
  forallb (fun p => negb (is_init_failure (snd p))) obs = true.

(** The key exchange is still to run, or it has run and, if the flag is
    up, it succeeded. *)
Definition handshake_inv (s : simulation) : Prop :=
  (count_init (events s) = 1%nat
   /\ tunnel_ready (handler s) = false
   /\ no_failure_observed (observed s))
  \/ (count_init (events s) = 0%nat
      /\ (tunnel_ready (handler s) = true ->
          digests_match (handler s) /\ no_failure_observed (observed s))).

(** Fixtures for the examples: a key encapsulation whose two sides agree on
    [secret], one whose decapsulation fails, and a tunnel between two open
    sockets. *)
Module Fixtures.
Definition agreeing_kem (secret : bytes) : KeyEncapsulation :=
  {| generate_keypair := Returns [x0a; x0b];
     encap_secret := fun _ => Returns ([xc0; xc1], secret);
     decap_secret := fun _ => Returns secret |}.

Definition failing_kem : KeyEncapsulation :=
  {| generate_keypair := Returns [x0a; x0b];
     encap_secret := fun _ => Raises;
     decap_secret := fun _ => Raises |}.

Definition SECRET : bytes := list_byte_of_string "SECRET".

Definition cu_sock : socket := {| fileno := 5 |}.
Definition du_sock : socket := {| fileno := 6 |}.

(** A handler before the key exchange. *)
Definition fresh (qdu_kem qcu_kem : KeyEncapsulation) : SCTPEventHandler :=
  SCTPEventHandler_init qdu_kem qcu_kem (Some cu_sock) (Some du_sock).

(** A handler whose managers hold the given secrets. *)
Definition established (qdu_secret qcu_secret : option bytes) (ready : bool)
  : SCTPEventHandler :=
  {| qdu_pqc := {| name := "QDU"; is_server := false;
                   kem := failing_kem; public_key := Some [x0a; x0b];
                   kem_instance := Some failing_kem;
                   shared_secret := qdu_secret |};
     qcu_pqc := {| name := "QCU"; is_server := true;
                   kem := failing_kem; public_key := None;
                   kem_instance := None;
                   shared_secret := qcu_secret |};
     tunnel_ready := ready;
     cu_client_socket := Some cu_sock; du_conn := Some du_sock |}.

Definition packet : bytes := [x01; x02; x03; x04].
End Fixtures.

(** Whether the socket [s] is in blocking mode once the trace has run,
    [flag] being its mode before. *)
Fixpoint blocking_after (s : sock_id) (flag : bool) (t : trace) : bool :=
  match t with
  | [] => flag
  | SetBlocking s' b :: rest =>
      blocking_after s (if sock_id_eqb s s' then b else flag) rest
  | _ :: rest => blocking_after s flag rest
  end.

(** What step 5 of the secured path does on the destination socket. *)
Definition forward_effects (dst : sock_id) (data : bytes) (ppid : N)
    (target : string) (snd0 : send_outcome) : trace :=
  match snd0 with
  | SendSctp =>
      [SetBlocking dst true; SctpSend dst data ppid; SetBlocking dst false]
  | SendFallback =>
      [SetBlocking dst true; SendAll dst data; SetBlocking dst false]
  | SendError =>
      [SetBlocking dst true; Log ERROR (MsgSendFailed target)]
  end.

(** An ancillary message that is an SCTP PPID message. *)
Definition is_ppid_cmsg (IPPROTO_SCTP SCTP_PPID : Z) (c : cmsg) : bool :=
  Z.eqb (cmsg_level c) IPPROTO_SCTP && Z.eqb (cmsg_type c) SCTP_PPID.

(** Pending firings of the poll event, and polls a trace schedules. *)
Fixpoint count_poll (q : list (Q * sim_event)) : nat :=
  match q with
  | [] => 0
  | (_, Fire evtype_poll) :: rest => S (count_poll rest)
  | _ :: rest => count_poll rest
  end.

Fixpoint count_sched_poll (t : trace) : nat :=
  match t with
  | [] => 0
  | ScheduleAfter _ evtype_poll :: rest => S (count_sched_poll rest)
  | _ :: rest => count_sched_poll rest
  end.

(** The only change to the socket globals is that some are cleared. *)
Definition only_closes (st st' : SCTPEventHandler) : Prop :=
  forall s, get_global st' s = get_global st s \/ get_global st' s = None.

(* ------------------------------------------------------------------ *)
(** ** The SeQUeNCe tunnel

    Source: [src/SequenceTunnel/sequence_tunnel.py].  The node keeps one
    pending packet and schedules its delivery on the timeline; the
    delivery sleeps for the simulated delay and writes to the socket of
    the destination.  Times are picoseconds.  The informational log lines
    (they print floating-point times) are left out of the trace; the
    argument [real_start_time], used for them only, is left out too. *)

Module SequenceTunnel.

(** [QUANTUM_DELAY_PS = int(125 * 1e9)], [SIMULATION_TIME_PS = int(3600 * 1e12)] *)
Definition QUANTUM_DELAY_PS : Z := 125000000000.
Definition SIMULATION_TIME_PS : Z := 3600000000000000.

(** The two nodes [main] creates, the two external peers, and the two
    methods an event can call. *)
Inductive node_id : Type := QCU | QDU.
Inductive peer : Type := CU | DU.
Inductive method : Type := deliver_to_cu | deliver_to_du.

(** [Event(time, Process(owner, method, []))] *)
Record Event : Type := { time : Z; owner : node_id; activation : method }.

(** [Timeline]: the current time, the pending events by increasing time,
    and the stop time given to the constructor. *)
Record Timeline : Type := {
  now : Z;
  events : list Event;
  stop_time : Z
}.

(** [Timeline.schedule]: events of equal time keep their order. *)
Fixpoint insert_event (e : Event) (q : list Event) : list Event :=
  match q with
  | [] => [e]
  | e' :: rest =>
      if Z.leb (time e') (time e) then e' :: insert_event e rest
      else e :: q
  end.

Definition schedule (tl : Timeline) (e : Event) : Timeline :=
  {| now := now tl; events := insert_event e (events tl);
     stop_time := stop_time tl |}.

(** [QuantumTunnelNode]; [pending_data] is [None] both when the attribute
    is not set yet and when it holds [None]. *)
Record QuantumTunnelNode : Type := {
  name : string;
  message_count : Z;
  pending_data : option bytes;
  data_start_time : Z;
  quantum_delay : Z
}.

(** [QuantumTunnelNode.__init__] *)
Definition QuantumTunnelNode_init (name : string) : QuantumTunnelNode :=
  {| name := name; message_count := 0; pending_data := None;
     data_start_time := 0; quantum_delay := QUANTUM_DELAY_PS |}.

(** [QuantumTunnelNode.process_classical_data], called on the node [self]:
    the packet takes the pending slot and one delivery is scheduled. *)
Definition process_classical_data (self : node_id) (nd : QuantumTunnelNode)
    (tl : Timeline) (data : bytes) (destination : string)
  : QuantumTunnelNode * Timeline :=
  let nd' := {| name := name nd;
                message_count := message_count nd + 1;
                pending_data := Some data;
                data_start_time := now tl;
                quantum_delay := quantum_delay nd |} in
  let delivery_time := (now tl + quantum_delay nd)%Z in
  let event :=
    if String.eqb destination "CU"
    then {| time := delivery_time; owner := self;
            activation := deliver_to_cu |}
    else {| time := delivery_time; owner := self;
            activation := deliver_to_du |} in
  (nd', schedule tl event).

Inductive effect : Type :=
| Sleep (ps : Z)                    (* [time.sleep], the duration in ps *)
| Send (dst : peer) (data : bytes)  (* [socket.send] returned *)
| LogDeliveryError (dst : peer)     (* the [except] branch of a delivery *)
| LogReadError (src : peer).        (* the [except] branch of a read *)

(** [deliver_to_cu] and [deliver_to_du], which differ in the socket only:
    [sock] is the module global of the destination and [send_ok] tells
    whether its [send] returns or raises. *)
Definition deliver (dst : peer) (nd : QuantumTunnelNode) (now : Z)
    (sock : option socket) (send_ok : bool)
  : QuantumTunnelNode * list effect :=
  match pending_data nd with
  | None => (nd, [])
  | Some data =>
      if truthy data then
        let slept := Sleep (now - data_start_time nd) in
        let cleared := {| name := name nd;
                          message_count := message_count nd;
                          pending_data := None;
                          data_start_time := data_start_time nd;
                          quantum_delay := quantum_delay nd |} in
        match sock with
        | Some _ =>
            if send_ok then (cleared, [slept; Send dst data])
            else (nd, [slept; LogDeliveryError dst])
        | None => (cleared, [slept])
        end
      else (nd, [])
  end.

(** The tunnel: the timeline, the two nodes and the module globals
    [qcu_to_cu_socket] and [du_conn]. *)
Record Tunnel : Type := {
  timeline : Timeline;
  qcu_node : QuantumTunnelNode;
  qdu_node : QuantumTunnelNode;
  qcu_to_cu_socket : option socket;
  du_conn : option socket
}.

(** [Process.run] on an event: the method of the owner. *)
Definition fire (tn : Tunnel) (ev : Event) (send_ok : bool)
  : Tunnel * list effect :=
  let nd := match owner ev with QCU => qcu_node tn | QDU => qdu_node tn end in
  let '(nd', t) :=
    match activation ev with
    | deliver_to_cu => deliver CU nd (time ev) (qcu_to_cu_socket tn) send_ok
    | deliver_to_du => deliver DU nd (time ev) (du_conn tn) send_ok
    end in
  let tl := {| now := time ev; events := events (timeline tn);
               stop_time := stop_time (timeline tn) |} in
  (match owner ev with
   | QCU => {| timeline := tl; qcu_node := nd'; qdu_node := qdu_node tn;
               qcu_to_cu_socket := qcu_to_cu_socket tn;
               du_conn := du_conn tn |}
   | QDU => {| timeline := tl; qcu_node := qcu_node tn; qdu_node := nd';
               qcu_to_cu_socket := qcu_to_cu_socket tn;
               du_conn := du_conn tn |}
   end, t).

Definition set_events (tn : Tunnel) (evs : list Event) : Tunnel :=
  {| timeline := {| now := now (timeline tn); events := evs;
                    stop_time := stop_time (timeline tn) |};
     qcu_node := qcu_node tn; qdu_node := qdu_node tn;
     qcu_to_cu_socket := qcu_to_cu_socket tn; du_conn := du_conn tn |}.

(** [Timeline.run] of the SeQUeNCe kernel, over the pending events [evs]:
    pop the earliest event; if its time has reached the stop time, put it
    back and stop; otherwise move the clock to it and run its process.
    [sends] tells, event after event, whether the send returns.  Each
    effect comes with the simulation time at which it takes place. *)
Fixpoint run_events (evs : list Event) (tn : Tunnel) (sends : list bool)
  : Tunnel * list (Z * effect) :=
  match evs with
  | [] => (set_events tn [], [])
  | ev :: rest =>
      if Z.leb (stop_time (timeline tn)) (time ev) then (set_events tn evs, [])
      else
        let send_ok := match sends with b :: _ => b | [] => true end in
        let '(tn1, t1) := fire tn ev send_ok in
        let '(tn2, t2) := run_events rest tn1 (tl sends) in
        (tn2, map (fun e => (time ev, e)) t1 ++ t2)
  end.

Definition run (tn : Tunnel) (sends : list bool) : Tunnel * list (Z * effect) :=
  run_events (events (timeline tn)) tn sends.

Definition set_node (tn : Tunnel) (self : node_id)
    (r : QuantumTunnelNode * Timeline) : Tunnel :=
  match self with
  | QCU => {| timeline := snd r; qcu_node := fst r; qdu_node := qdu_node tn;
              qcu_to_cu_socket := qcu_to_cu_socket tn; du_conn := du_conn tn |}
  | QDU => {| timeline := snd r; qcu_node := qcu_node tn; qdu_node := fst r;
              qcu_to_cu_socket := qcu_to_cu_socket tn; du_conn := du_conn tn |}
  end.

(** One turn of the loop of [handle_sctp_data], as the handler thread runs
    it: what was read from the CU side goes to the QCU node for the DU,
    what was read from the DU side goes to the QDU node for the CU, then
    the timeline runs if it has events.  A read is [None] when the socket
    is not readable; empty data schedules nothing, and a read that raises
    is logged. *)
Definition handle_turn (tn : Tunnel) (from_cu from_du : option (outcome bytes))
    (sends : list bool) : Tunnel * list (Z * effect) :=
  let t0 := now (timeline tn) in
  let '(tn1, t1) :=
    match from_cu with
    | Some (Returns data) =>
        if truthy data
        then (set_node tn QCU
                (process_classical_data QCU (qcu_node tn) (timeline tn)
                   data "DU"), [])
        else (tn, [])
    | Some Raises => (tn, [(t0, LogReadError CU)])
    | None => (tn, [])
    end in
  let '(tn2, t2) :=
    match from_du with
    | Some (Returns data) =>
        if truthy data
        then (set_node tn1 QDU
                (process_classical_data QDU (qdu_node tn1) (timeline tn1)
                   data "CU"), [])
        else (tn1, [])
    | Some Raises => (tn1, [(t0, LogReadError DU)])
    | None => (tn1, [])
    end in
  match events (timeline tn2) with
  | [] => (tn2, t1 ++ t2)
  | _ :: _ => let '(tn3, t3) := run tn2 sends in (tn3, t1 ++ t2 ++ t3)
  end.



(** The tunnel as [main] starts it: [Timeline(SIMULATION_TIME_PS)], the
    clock at zero, two new nodes. *)
Definition start (cu du : option socket) : Tunnel :=
  {| timeline := {| now := 0; events := [];
                    stop_time := SIMULATION_TIME_PS |};
     qcu_node := QuantumTunnelNode_init "QCU";
     qdu_node := QuantumTunnelNode_init "QDU";
     qcu_to_cu_socket := cu; du_conn := du |}.
End SequenceTunnel.

(* ================================================================== *)
(** * Properties *)

(** ** Test vectors *)

Example sha256_abc :
  SHA256.hexdigest [x61; x62; x63]
  = "ba7816bf8f01cfea414140de5dae2223b00361a396177a9cb410ff61f20015ad"%string.
Proof. vm_compute. reflexivity. Qed.

Example sha256_empty :
  SHA256.hexdigest []
  = "e3b0c44298fc1c149afbf4c8996fb92427ae41e4649b934ca495991b7852b855"%string.
Proof. vm_compute. reflexivity. Qed.

Example sha256_two_blocks :
  SHA256.hexdigest (repeat x61 100)
  = "2816597888e4a0d3a36b82b83316ab32680eb8f00f8cd3b904d681246d285a0e"%string.
Proof. vm_compute. reflexivity. Qed.

Example protect_SECRET_4 :
  option_map hex (protect (list_byte_of_string "SECRET") [x01; x02; x03; x04])
  = Some "830d4068"%string.
Proof. vm_compute. reflexivity. Qed.

(** 70 bytes of data: the loop body runs twice. *)
Example protect_SECRET_70 :
  option_map hex
    (protect (list_byte_of_string "SECRET")
       (map (fun i => byte_of_N (N.of_nat i)) (seq 0 70)))
  = Some ("820e416f46c52e3d1c3fd0f27a1b814c65e8eb254e4dcc83f45a61da8ec8aa18"
       ++ "b00411f463f26d64168c1bf177c37fda3d41d41f469038e1ccd87a638795e729"
       ++ "e5f1c686d8a8")%string.
Proof. vm_compute. reflexivity. Qed.

(** The key exchange between two sides that agree. *)
Example handshake_trace_effects :
  snd (initialize_pqc (Fixtures.fresh (Fixtures.agreeing_kem Fixtures.SECRET)
                         (Fixtures.agreeing_kem Fixtures.SECRET)))
  = [Log INFO (MsgGeneratedKeypair "QDU");
     TxOutput DU_NODE (PyBytes [x0a; x0b]);
     Log INFO (MsgGeneratedSecret "QCU");
     TxOutput CU_NODE (PyBytes [xc0; xc1]);
     Log INFO (MsgRecoveredSecret "QDU");
     Log INFO MsgTunnelReady].
Proof. vm_compute. reflexivity. Qed.

(** A failed decapsulation. *)
Example handshake_failure_effects :
  let r := initialize_pqc (Fixtures.fresh Fixtures.failing_kem
                             (Fixtures.agreeing_kem Fixtures.SECRET)) in
  tunnel_ready (fst r) = false
  /\ snd r
     = [Log INFO (MsgGeneratedKeypair "QDU");
        TxOutput DU_NODE (PyBytes [x0a; x0b]);
        Log INFO (MsgGeneratedSecret "QCU");
        TxOutput CU_NODE (PyBytes [xc0; xc1]);
        Log ERROR (MsgKeyEstablishmentError "QDU");
        Log ERROR (MsgInitFailed E_recover)].
Proof. vm_compute. split; reflexivity. Qed.

(** One packet from the CU socket through a ready tunnel, on a
    little-endian host. *)
Example secured_packet_effects :
  snd (_process_socket_data little 132 3
         (Fixtures.established (Some Fixtures.SECRET) (Some Fixtures.SECRET)
            true)
         CU_SOCKET (RecvPlain Fixtures.packet) SendSctp)
  = [SetBlocking CU_SOCKET false;
     Log INFO (MsgProcessing "CU" "DU" 4);
     Log INFO (MsgProtected "QCU" "Encrypted" 4);
     TxOutput CU_NODE (PyBytes [x3e; x00; x00; x00; x83; x0d; x40; x68]);
     Log INFO (MsgProtected "QDU" "Decrypted" 4);
     SetBlocking DU_SOCKET true;
     SctpSend DU_SOCKET Fixtures.packet 62;
     SetBlocking DU_SOCKET false;
     SetBlocking CU_SOCKET false].
Proof. vm_compute. reflexivity. Qed.

(** One packet from the DU socket whose read carries the PPID 60; the CU
    socket has no [sctp_send]. *)
Example tagged_packet_effects :
  snd (_process_socket_data little 132 3
         (Fixtures.established (Some Fixtures.SECRET) (Some Fixtures.SECRET)
            true)
         DU_SOCKET
         (RecvMsg [x09] [{| cmsg_level := 132; cmsg_type := 3;
                            cmsg_data := [x3c; x00; x00; x00] |}])
         SendFallback)
  = [SetBlocking DU_SOCKET false;
     Log INFO (MsgProcessing "DU" "CU" 1);
     Log INFO (MsgProtected "QDU" "Encrypted" 1);
     TxOutput DU_NODE (PyBytes [x3c; x00; x00; x00; x8b]);
     Log INFO (MsgProtected "QCU" "Decrypted" 1);
     SetBlocking CU_SOCKET true;
     SendAll CU_SOCKET [x09];
     SetBlocking CU_SOCKET false;
     SetBlocking DU_SOCKET false].
Proof. vm_compute. reflexivity. Qed.

(* ------------------------------------------------------------------ *)
(** ** Bytes and XOR *)

(** The hash and the key stream are never unfolded by simplification. *)
Arguments SHA256.digest : simpl never.
Arguments SHA256.hexdigest : simpl never.
Arguments expand_key_stream : simpl never.
Arguments counter_bytes : simpl never.
Arguments secret_hash : simpl never.

Lemma to_N_byte_of_N (n : N) : Byte.to_N (byte_of_N n) = (n mod 256)%N.
Proof.
  unfold byte_of_N.
  destruct (Byte.of_N (n mod 256)) eqn:E.
  - now apply Byte.to_of_N.
  - apply Byte.of_N_None_iff in E.
    pose proof (N.mod_upper_bound n 256). lia.
Qed.

Lemma to_N_lt_256 (b : byte) : (Byte.to_N b < 256)%N.
Proof. pose proof (Byte.to_N_bounded b). lia. Qed.

Lemma byte_of_N_to_N (b : byte) : byte_of_N (Byte.to_N b) = b.
Proof.
  unfold byte_of_N.
  rewrite N.mod_small by apply to_N_lt_256.
  now rewrite Byte.of_to_N.
Qed.

Lemma lxor_lt_256 (a b : N) :
  (a < 256)%N -> (b < 256)%N -> (N.lxor a b < 256)%N.
Proof.
  intros Ha Hb.
  destruct (N.eq_dec (N.lxor a b) 0) as [E | E]; [rewrite E; lia |].
  change 256%N with (2 ^ 8)%N.
  apply N.log2_lt_pow2; [lia |].
  assert (La : (N.log2 a < 8)%N).
  { destruct (N.eq_dec a 0) as [-> | Na]; [simpl; lia |].
    apply N.log2_lt_pow2; [lia | exact Ha]. }
  assert (Lb : (N.log2 b < 8)%N).
  { destruct (N.eq_dec b 0) as [-> | Nb]; [simpl; lia |].
    apply N.log2_lt_pow2; [lia | exact Hb]. }
  pose proof (N.log2_lxor a b). lia.
Qed.

Lemma to_N_byte_xor (a b : byte) :
  Byte.to_N (byte_xor a b) = N.lxor (Byte.to_N a) (Byte.to_N b).
Proof.
  unfold byte_xor. rewrite to_N_byte_of_N.
  apply N.mod_small, lxor_lt_256; apply to_N_lt_256.
Qed.

Lemma byte_xor_cancel (a k : byte) : byte_xor (byte_xor a k) k = a.
Proof.
  unfold byte_xor at 1. rewrite to_N_byte_xor.
  rewrite N.lxor_assoc, N.lxor_nilpotent, N.lxor_0_r.
  apply byte_of_N_to_N.
Qed.

Lemma byte_xor_comm (a b : byte) : byte_xor a b = byte_xor b a.
Proof. unfold byte_xor. now rewrite N.lxor_comm. Qed.

Lemma xor_zip_length (d k : bytes) :
  (List.length d <= List.length k)%nat ->
  List.length (xor_zip d k) = List.length d.
Proof.
  unfold xor_zip. intros H.
  rewrite length_map, length_combine. lia.
Qed.

Lemma xor_zip_firstn (d k : bytes) :
  xor_zip d (firstn (List.length d) k) = xor_zip d k.
Proof.
  unfold xor_zip. f_equal.
  revert k. induction d as [| x d IH]; intros [| y k]; simpl; trivial.
  now rewrite IH.
Qed.

Lemma xor_zip_cancel (d k : bytes) :
  (List.length d <= List.length k)%nat ->
  xor_zip (xor_zip d k) k = d.
Proof.
  unfold xor_zip.
  revert k. induction d as [| x d IH]; intros [| y k] H; simpl in *;
    trivial; try lia.
  rewrite byte_xor_cancel. f_equal. apply IH. lia.
Qed.

(** [c XOR d] recovers the key stream that produced [c] from [d]. *)
Lemma xor_zip_recovers_key (d k : bytes) :
  List.length k = List.length d ->
  xor_zip (xor_zip d k) d = k.
Proof.
  unfold xor_zip.
  revert k. induction d as [| x d IH]; intros [| y k] H; simpl in *;
    trivial; try discriminate.
  rewrite (byte_xor_comm x y), byte_xor_cancel. f_equal. apply IH. lia.
Qed.

Lemma be_bytes_length (k : nat) (n : N) : List.length (be_bytes k n) = k.
Proof. induction k; simpl; congruence. Qed.

Lemma le_bytes_length (k : nat) (n : N) : List.length (le_bytes k n) = k.
Proof. revert n. induction k; intros n; simpl; [| rewrite IHk]; trivial. Qed.

Lemma bytes_eqb_eq (a b : bytes) : bytes_eqb a b = true <-> a = b.
Proof.
  unfold bytes_eqb.
  destruct (list_eq_dec Byte.byte_eq_dec a b); split; congruence.
Qed.

Lemma bytes_eqb_refl (a : bytes) : bytes_eqb a a = true.
Proof. now apply bytes_eqb_eq. Qed.

(* ------------------------------------------------------------------ *)
(** ** The key stream *)

Lemma sha256_digest_length (m : bytes) : List.length (SHA256.digest m) = 32%nat.
Proof.
  unfold SHA256.digest, SHA256.output.
  repeat rewrite length_app. repeat rewrite be_bytes_length. reflexivity.
Qed.

(** The loop leaves within [fuel] iterations as soon as [fuel] blocks of 32
    bytes cover what is missing, and then the stream covers the data. *)
Lemma extend_key_stream_total (fuel n : nat) (ks : bytes) :
  (n <= List.length ks + 32 * fuel)%nat ->
  exists ks', extend_key_stream fuel n ks = Some ks'
              /\ (n <= List.length ks')%nat.
Proof.
  revert ks. induction fuel as [| fuel IH]; intros ks H;
    cbn [extend_key_stream];
    destruct (Nat.ltb_spec (List.length ks) n).
  - lia.
  - eexists; split; [reflexivity | lia].
  - apply IH. rewrite length_app, sha256_digest_length. lia.
  - eexists; split; [reflexivity | lia].
Qed.

Lemma expand_key_stream_total (secret : bytes) (n : nat) :
  exists ks, expand_key_stream secret n = Some ks /\ (n <= List.length ks)%nat.
Proof.
  unfold expand_key_stream.
  apply extend_key_stream_total. rewrite sha256_digest_length. lia.
Qed.

(** More fuel does not change what the loop returns. *)
Lemma extend_key_stream_fuel (fuel fuel' n : nat) (ks r : bytes) :
  extend_key_stream fuel n ks = Some r -> (fuel <= fuel')%nat ->
  extend_key_stream fuel' n ks = Some r.
Proof.
  revert fuel' ks. induction fuel as [| fuel IH]; intros fuel' ks H L;
    cbn [extend_key_stream] in H.
  - destruct fuel'; cbn [extend_key_stream];
      destruct (Nat.ltb (List.length ks) n); congruence.
  - destruct fuel' as [| fuel']; [lia |]. cbn [extend_key_stream].
    destruct (Nat.ltb (List.length ks) n); [| exact H].
    apply IH; [exact H | lia].
Qed.

(** [protect_data] with a usable secret: the XOR of the data with the
    first [len(data)] bytes of the stream. *)
Lemma protect_data_ready (m : PQCManager) (data : bytes) (direction : string) :
  truthy_opt (shared_secret m) = true ->
  exists secret ks,
    shared_secret m = Some secret
    /\ expand_key_stream secret (List.length data) = Some ks
    /\ (List.length data <= List.length ks)%nat
    /\ protect_data m data direction
       = (Some (xor_zip data ks),
          [Log INFO (MsgProtected (name m) direction (List.length data))]).
Proof.
  intros T. unfold protect_data.
  destruct (shared_secret m) as [[| b secret] |]; try discriminate.
  destruct (expand_key_stream_total (b :: secret) (List.length data))
    as (ks & E & L).
  exists (b :: secret), ks. rewrite E, xor_zip_firstn. auto.
Qed.

Lemma protect_data_no_secret (m : PQCManager) (data : bytes)
    (direction : string) :
  truthy_opt (shared_secret m) = false ->
  protect_data m data direction
  = (None, [Log ERROR (MsgNoSharedSecret (name m))]).
Proof.
  intros T. unfold protect_data.
  destruct (shared_secret m) as [[| b secret] |]; try discriminate;
    reflexivity.
Qed.

(** The result depends on the secret and the data only. *)
Lemma protect_data_fst (m : PQCManager) (secret data : bytes)
    (direction : string) :
  shared_secret m = Some secret ->
  fst (protect_data m data direction) = protect secret data.
Proof.
  intros E. unfold protect, protect_data. cbn [shared_secret name fst].
  rewrite E.
  destruct secret; [reflexivity |].
  destruct (expand_key_stream _ _); reflexivity.
Qed.

Lemma protect_spec (secret data : bytes) :
  secret <> [] ->
  exists ks,
    expand_key_stream secret (List.length data) = Some ks
    /\ (List.length data <= List.length ks)%nat
    /\ protect secret data = Some (xor_zip data ks).
Proof.
  intros N0.
  destruct (expand_key_stream_total secret (List.length data)) as (ks & E & L).
  exists ks. repeat split; trivial.
  unfold protect, protect_data. cbn [shared_secret name].
  destruct secret; [congruence |]. now rewrite E, xor_zip_firstn.
Qed.

Lemma protect_length (secret data c : bytes) :
  protect secret data = Some c -> List.length c = List.length data.
Proof.
  unfold protect, protect_data. cbn [shared_secret name].
  destruct secret as [| b secret]; [discriminate |].
  destruct (expand_key_stream_total (b :: secret) (List.length data))
    as (ks & E & L).
  rewrite E. intros [= <-].
  apply xor_zip_length. rewrite length_firstn. lia.
Qed.

Lemma protect_involutive (secret data : bytes) :
  secret <> [] ->
  exists c, protect secret data = Some c /\ protect secret c = Some data.
Proof.
  intros N0.
  destruct (protect_spec secret data N0) as (ks & E & L & P).
  exists (xor_zip data ks). split; [exact P |].
  destruct (protect_spec secret (xor_zip data ks) N0) as (ks' & E' & L' & P').
  rewrite xor_zip_length in E' by exact L.
  rewrite E in E'. injection E' as <-.
  rewrite P'. f_equal. now apply xor_zip_cancel.
Qed.

Lemma truthy_nonempty (b : bytes) : truthy b = true -> b <> [].
Proof. destruct b; [discriminate | discriminate]. Qed.

Lemma protect_data_length (m : PQCManager) (data r : bytes)
    (direction : string) :
  fst (protect_data m data direction) = Some r ->
  List.length r = List.length data.
Proof.
  destruct (truthy_opt (shared_secret m)) eqn:T.
  - destruct (protect_data_ready m data direction T) as (s & ks & _ & _ & L & ->).
    intros [= <-]. now apply xor_zip_length.
  - rewrite protect_data_no_secret by exact T. discriminate.
Qed.

(** The key stream [protect] applies: the XOR of its result with its
    argument is the truncated stream, whatever the data. *)
Lemma protect_key_stream (secret data : bytes) :
  truthy secret = true ->
  exists c ks,
    protect secret data = Some c
    /\ expand_key_stream secret (List.length data) = Some ks
    /\ xor_zip c data = firstn (List.length data) ks.
Proof.
  intros T. apply truthy_nonempty in T.
  destruct (protect_spec secret data T) as (ks & E & L & P).
  exists (xor_zip data ks), ks. repeat split; trivial.
  rewrite <- (xor_zip_firstn data ks).
  apply xor_zip_recovers_key. rewrite length_firstn. lia.
Qed.

(* ------------------------------------------------------------------ *)
(** ** The cipher: claims C2, C4, C6 *)

(** C2. For every non-empty shared secret [secret] and every byte sequence
    [data], protecting twice with the same secret gives the data back:
    [protect secret data] is some [c] and [protect secret c] is [data].  The
    same function serves both directions: a manager that holds [secret]
    computes [protect secret] whatever [direction] it is given, the
    direction only names the line it logs. *)
Theorem cipher_involution (secret data : bytes) :
  truthy secret = true ->
  (exists c, protect secret data = Some c /\ protect secret c = Some data)
  /\ (forall (m : PQCManager) (direction : string) (d : bytes),
         shared_secret m = Some secret ->
         fst (protect_data m d direction) = protect secret d).
Proof.
  intros T. split.
  - apply protect_involutive. now apply truthy_nonempty.
  - intros m direction d E. now apply protect_data_fst.
Qed.

(** C2 at the secret [b"SECRET"] and a four-byte packet. *)
Lemma cipher_involution_witness :
  (exists c, protect Fixtures.SECRET Fixtures.packet = Some c
             /\ protect Fixtures.SECRET c = Some Fixtures.packet)
  /\ (forall (m : PQCManager) (direction : string) (d : bytes),
         shared_secret m = Some Fixtures.SECRET ->
         fst (protect_data m d direction) = protect Fixtures.SECRET d).
Proof. apply cipher_involution. reflexivity. Defined.

(** C4. Whenever [protect_data] is called on a manager whose shared secret
    is unset ([None]) or empty, it returns [None] for every input and
    direction, and logs the error; nothing is raised.  This is the state of
    both managers of a tunnel before the key exchange. *)
Theorem protect_data_requires_secret (m : PQCManager) (data : bytes)
    (direction : string) :
  truthy_opt (shared_secret m) = false ->
  protect_data m data direction
  = (None, [Log ERROR (MsgNoSharedSecret (name m))]).
Proof.
  intros Unset. unfold protect_data.
  destruct (shared_secret m) as [[| b secret] |].
  - reflexivity.
  - discriminate Unset.
  - reflexivity.
Qed.

(** Before the key exchange neither manager of a tunnel holds a secret. *)
Lemma no_secret_before_key_exchange (qdu_kem qcu_kem : KeyEncapsulation)
    (cu du : option socket) :
  let st := SCTPEventHandler_init qdu_kem qcu_kem cu du in
  truthy_opt (shared_secret (qdu_pqc st)) = false
  /\ truthy_opt (shared_secret (qcu_pqc st)) = false.
Proof. split; reflexivity. Qed.

(** C4 at the QCU manager of a tunnel before the key exchange. *)
Lemma protect_data_requires_secret_witness :
  protect_data (qcu_pqc (Fixtures.fresh Fixtures.failing_kem
                           Fixtures.failing_kem))
    Fixtures.packet "Encrypted"
  = (None, [Log ERROR (MsgNoSharedSecret "QCU")]).
Proof.
  apply (protect_data_requires_secret
           (qcu_pqc (Fixtures.fresh Fixtures.failing_kem Fixtures.failing_kem))).
  reflexivity.
Defined.

(** C6. For every non-empty secret and any two byte sequences of equal
    length, both calls apply the same key stream: [protect secret d1] XOR
    [d1] equals [protect secret d2] XOR [d2], and both are the first
    [len(d1)] bytes of the stream expanded from the secret and the zero
    counter. *)
Theorem key_stream_reuse (secret d1 d2 : bytes) :
  truthy secret = true ->
  List.length d1 = List.length d2 ->
  exists c1 c2 ks,
    protect secret d1 = Some c1 /\ protect secret d2 = Some c2
    /\ expand_key_stream secret (List.length d1) = Some ks
    /\ xor_zip c1 d1 = firstn (List.length d1) ks
    /\ xor_zip c2 d2 = xor_zip c1 d1.
Proof.
  intros T L.
  destruct (@protect_key_stream secret d1 T) as (c1 & ks1 & P1 & E1 & X1).
  destruct (@protect_key_stream secret d2 T) as (c2 & ks2 & P2 & E2 & X2).
  exists c1, c2, ks1. repeat split; trivial.
  rewrite <- L in E2, X2. rewrite E1 in E2. injection E2 as <-.
  congruence.
Qed.

(** C6 at two four-byte packets. *)
Lemma key_stream_reuse_witness :
  exists c1 c2 ks,
    protect Fixtures.SECRET [x01; x02; x03; x04] = Some c1
    /\ protect Fixtures.SECRET [xff; x00; xff; x00] = Some c2
    /\ expand_key_stream Fixtures.SECRET 4 = Some ks
    /\ xor_zip c1 [x01; x02; x03; x04] = firstn 4 ks
    /\ xor_zip c2 [xff; x00; xff; x00] = xor_zip c1 [x01; x02; x03; x04].
Proof.
  apply (key_stream_reuse Fixtures.SECRET [x01; x02; x03; x04]
           [xff; x00; xff; x00]); reflexivity.
Defined.

(* ------------------------------------------------------------------ *)
(** ** The security gate: claim C1 *)

Lemma quiet_app (t1 t2 : trace) : quiet t1 -> quiet t2 -> quiet (t1 ++ t2).
Proof. unfold quiet. intros H1 H2. now rewrite forallb_app, H1, H2. Qed.

Lemma quiet_written (s : sock_id) (t : trace) : quiet t -> written s t = [].
Proof.
  unfold quiet. induction t as [| e t IH]; [reflexivity |].
  cbn [forallb]. intros H. apply andb_prop in H as [He Ht].
  destruct e; cbn [written]; try (now apply IH); discriminate He.
Qed.

Lemma same_session_refl (st : SCTPEventHandler) : same_session st st.
Proof. now repeat split. Qed.

Lemma same_session_trans (a b c : SCTPEventHandler) :
  same_session a b -> same_session b c -> same_session a c.
Proof. unfold same_session. intuition congruence. Qed.

Lemma same_session_set_global (st : SCTPEventHandler) (s : sock_id)
    (v : option socket) : same_session st (set_global st s v).
Proof. destruct s; now repeat split. Qed.

Create HintDb tunnel.
#[local] Hint Resolve same_session_refl same_session_set_global : tunnel.

Section GateProofs.
Variable host : byteorder.
Variables IPPROTO_SCTP SCTP_PPID : Z.

Abbreviation process_socket :=
  (_process_socket_data host IPPROTO_SCTP SCTP_PPID).
Abbreviation poll := (poll_sctp_messages host IPPROTO_SCTP SCTP_PPID).

Lemma close_side_session (st : SCTPEventHandler) (sock : sock_id)
    (m : sock_id -> log_msg) :
  same_session st (fst (close_side st sock m)).
Proof.
  unfold close_side.
  destruct (get_global st _); cbn [fst]; auto with tunnel.
Qed.

Lemma close_side_quiet (st : SCTPEventHandler) (sock : sock_id)
    (m : sock_id -> log_msg) :
  (forall s, passes_gate (Log WARNING (m s)) = false) ->
  quiet (snd (close_side st sock m)).
Proof.
  intros Hm. unfold close_side, quiet.
  destruct (get_global st _); cbn [snd forallb]; now rewrite Hm.
Qed.

Lemma reset_nonblocking_quiet (st : SCTPEventHandler) (sock : sock_id) :
  quiet (reset_nonblocking st sock).
Proof. unfold reset_nonblocking. now destruct (Z.eqb _ _). Qed.

(** A read never touches the flag or the managers. *)
Lemma process_socket_session (st : SCTPEventHandler) (sock : sock_id)
    (rcv : recv_outcome) (snd : send_outcome) :
  same_session st (fst (process_socket st sock rcv snd)).
Proof.
  unfold _process_socket_data, _handle_empty_data, _handle_connection_error.
  destruct (Z.eqb (sock_fileno st sock) (-1)); [apply same_session_refl |].
  destruct rcv as [d anc | d | | |].
  - destruct (extract_ppid _ _ _ anc F1AP_PPID); [| apply same_session_refl].
    destruct d.
    + pose proof (close_side_session st sock MsgEmptyData) as H.
      destruct (close_side st sock MsgEmptyData). exact H.
    + destruct (tunnel_ready st); [| apply same_session_refl].
      destruct (_process_data_through_pqc _ _ _ _ _ _ _ _) as [[|] ?];
        apply same_session_refl.
  - destruct d.
    + pose proof (close_side_session st sock MsgEmptyData) as H.
      destruct (close_side st sock MsgEmptyData). exact H.
    + destruct (tunnel_ready st); [| apply same_session_refl].
      destruct (_process_data_through_pqc _ _ _ _ _ _ _ _) as [[|] ?];
        apply same_session_refl.
  - apply same_session_refl.
  - pose proof (close_side_session st sock MsgConnectionError) as H.
    destruct (close_side st sock MsgConnectionError). exact H.
  - apply same_session_refl.
Qed.

(** With the flag down, a read has no effect past the readiness check. *)
Lemma process_socket_gated (st : SCTPEventHandler) (sock : sock_id)
    (rcv : recv_outcome) (snd0 : send_outcome) :
  tunnel_ready st = false ->
  quiet (snd (process_socket st sock rcv snd0)).
Proof.
  intros Off.
  unfold _process_socket_data, _handle_empty_data, _handle_connection_error.
  rewrite Off.
  assert (HE : quiet (snd (close_side st sock MsgEmptyData)))
    by now apply close_side_quiet.
  assert (HC : quiet (snd (close_side st sock MsgConnectionError)))
    by now apply close_side_quiet.
  destruct (Z.eqb (sock_fileno st sock) (-1));
    [apply quiet_app; [reflexivity | apply reset_nonblocking_quiet] |].
  destruct rcv as [d anc | d | | |];
    try destruct (extract_ppid _ _ _ anc F1AP_PPID);
    try destruct d;
    try destruct (close_side st sock MsgEmptyData) as [s1 t1];
    try destruct (close_side st sock MsgConnectionError) as [s2 t2];
    cbn [snd fst] in *;
    repeat (apply quiet_app);
    solve [ reflexivity | assumption | apply reset_nonblocking_quiet ].
Qed.

Lemma process_readable_session (st : SCTPEventHandler)
    (l : list (sock_id * recv_outcome * send_outcome)) :
  same_session st (fst (process_readable host IPPROTO_SCTP SCTP_PPID st l)).
Proof.
  revert st. induction l as [| [[sock rcv] snd0] l IH]; intros st;
    cbn [process_readable]; [apply same_session_refl |].
  pose proof (process_socket_session st sock rcv snd0) as H1.
  destruct (process_socket st sock rcv snd0) as [st1 t1].
  pose proof (IH st1) as H2.
  destruct (process_readable _ _ _ st1 l) as [st2 t2].
  cbn [fst] in *. eapply same_session_trans; eassumption.
Qed.

Lemma poll_session (st : SCTPEventHandler) (sel : select_outcome) :
  same_session st (fst (poll st sel)).
Proof.
  unfold poll_sctp_messages.
  destruct (negb _); [apply same_session_refl |].
  destruct sel as [l |].
  - pose proof (process_readable_session st
        (filter (fun x => usable (get_global st (fst (fst x)))) l)) as H.
    destruct (process_readable _ _ _ st _). exact H.
  - apply same_session_refl.
Qed.

Lemma poll_loop_session (st : SCTPEventHandler) (w : list select_outcome) :
  same_session st (fst (poll_loop host IPPROTO_SCTP SCTP_PPID st w)).
Proof.
  revert st. induction w as [| sel w IH]; intros st; cbn [poll_loop];
    [apply same_session_refl |].
  pose proof (poll_session st sel) as H1.
  destruct (poll st sel) as [st1 t1].
  pose proof (IH st1) as H2.
  destruct (poll_loop _ _ _ st1 w) as [st2 t2].
  cbn [fst] in *. eapply same_session_trans; eassumption.
Qed.

(** With the flag down, a read that returns data only logs the drop. *)
Lemma process_socket_blocked (st : SCTPEventHandler) (sock : sock_id)
    (rcv : recv_outcome) (snd0 : send_outcome) (d : bytes) (ppid : N) :
  tunnel_ready st = false ->
  Z.eqb (sock_fileno st sock) (-1) = false ->
  read_packet host IPPROTO_SCTP SCTP_PPID rcv = Some (d, ppid) ->
  truthy d = true ->
  process_socket st sock rcv snd0
  = (st, [SetBlocking sock false;
          Log WARNING (MsgBlocked (List.length d)
                         (if is_cu st sock then "CU" else "DU"));
          SetBlocking sock false]).
Proof.
  intros Off Open R T.
  unfold _process_socket_data, reset_nonblocking. rewrite Open, Off.
  destruct rcv as [d' anc | d' | | |]; cbn [read_packet] in R;
    try discriminate.
  - destruct (extract_ppid _ _ _ anc F1AP_PPID); [| discriminate].
    injection R as -> ->. destruct d; [discriminate |].
    cbn [fst snd]; rewrite ?Open; reflexivity.
  - injection R as -> <-. destruct d; [discriminate |].
    cbn [fst snd]; rewrite ?Open; reflexivity.
Qed.
End GateProofs.

(** A property of every effect holds over any number of polls as soon as it
    holds for one read, under a condition on the state that survives as
    long as the flag and the managers are left alone. *)
Section LoopInvariant.
Variable host : byteorder.
Variables IPPROTO_SCTP SCTP_PPID : Z.
Variable ok : effect -> bool.
Variable inv : SCTPEventHandler -> Prop.
Hypothesis inv_session : forall st st', same_session st st' -> inv st -> inv st'.
Hypothesis ok_schedule : ok (ScheduleAfter POLL_INTERVAL evtype_poll) = true.
Hypothesis ok_select : ok (Log ERROR MsgSelectError) = true.
Hypothesis ok_read :
  forall st sock rcv snd0,
    inv st ->
    forallb ok (snd (_process_socket_data host IPPROTO_SCTP SCTP_PPID
                       st sock rcv snd0)) = true.

Lemma process_readable_all (st : SCTPEventHandler)
    (l : list (sock_id * recv_outcome * send_outcome)) :
  inv st ->
  forallb ok (snd (process_readable host IPPROTO_SCTP SCTP_PPID st l)) = true.
Proof.
  revert st. induction l as [| [[sock rcv] snd0] l IH]; intros st Hst;
    cbn [process_readable]; [reflexivity |].
  pose proof (process_socket_session host IPPROTO_SCTP SCTP_PPID
                st sock rcv snd0) as H1.
  pose proof (ok_read st sock rcv snd0 Hst) as Q1.
  destruct (_process_socket_data _ _ _ st sock rcv snd0) as [st1 t1].
  cbn [fst snd] in *.
  pose proof (IH st1 (inv_session st st1 H1 Hst)) as Q2.
  destruct (process_readable _ _ _ st1 l) as [st2 t2].
  cbn [snd] in *. now rewrite forallb_app, Q1, Q2.
Qed.

Lemma poll_all (st : SCTPEventHandler) (sel : select_outcome) :
  inv st ->
  forallb ok (snd (poll_sctp_messages host IPPROTO_SCTP SCTP_PPID st sel))
  = true.
Proof.
  intros Hst. unfold poll_sctp_messages.
  destruct (negb _); [cbn; now rewrite ok_schedule |].
  destruct sel as [l |].
  - pose proof (process_readable_all st
        (filter (fun x => usable (get_global st (fst (fst x)))) l) Hst) as H.
    destruct (process_readable _ _ _ st _). cbn [snd] in *.
    rewrite forallb_app, H. cbn. now rewrite ok_schedule.
  - cbn. now rewrite ok_select, ok_schedule.
Qed.

Lemma poll_loop_all (st : SCTPEventHandler) (w : list select_outcome) :
  inv st ->
  forallb ok (snd (poll_loop host IPPROTO_SCTP SCTP_PPID st w)) = true.
Proof.
  revert st. induction w as [| sel w IH]; intros st Hst; cbn [poll_loop];
    [reflexivity |].
  pose proof (poll_session host IPPROTO_SCTP SCTP_PPID st sel) as H1.
  pose proof (poll_all st sel Hst) as Q1.
  destruct (poll_sctp_messages _ _ _ st sel) as [st1 t1].
  cbn [fst snd] in *.
  pose proof (IH st1 (inv_session st st1 H1 Hst)) as Q2.
  destruct (poll_loop _ _ _ st1 w) as [st2 t2].
  cbn [snd] in *. now rewrite forallb_app, Q1, Q2.
Qed.
End LoopInvariant.

Lemma poll_loop_gated (host : byteorder) (IPPROTO_SCTP SCTP_PPID : Z)
    (st : SCTPEventHandler) (w : list select_outcome) :
  tunnel_ready st = false ->
  quiet (snd (poll_loop host IPPROTO_SCTP SCTP_PPID st w)).
Proof.
  apply (poll_loop_all host IPPROTO_SCTP SCTP_PPID
           (fun e => negb (passes_gate e))
           (fun st => tunnel_ready st = false)).
  - intros a b [H _] Ha. congruence.
  - reflexivity.
  - reflexivity.
  - intros. now apply process_socket_gated.
Qed.

(** C1. In a session whose readiness flag is false, a data packet read from
    either socket is dropped after its size and source are logged: the
    only effects are that log line and the two [setblocking] calls on the
    source socket, and the state is unchanged.  Over any number of polls,
    with any number of packets, no effect is past the readiness check:
    [protect_data] is never called, nothing is handed to a channel for
    delayed delivery, nothing is written to a socket (zero bytes reach
    either side), and the flag stays false. *)
Theorem gate_enforcement (host : byteorder) (IPPROTO_SCTP SCTP_PPID : Z)
    (st : SCTPEventHandler) :
  tunnel_ready st = false ->
  (forall sock rcv snd0 d ppid,
      Z.eqb (sock_fileno st sock) (-1) = false ->
      read_packet host IPPROTO_SCTP SCTP_PPID rcv = Some (d, ppid) ->
      truthy d = true ->
      _process_socket_data host IPPROTO_SCTP SCTP_PPID st sock rcv snd0
      = (st, [SetBlocking sock false;
              Log WARNING (MsgBlocked (List.length d)
                             (if is_cu st sock then "CU" else "DU"));
              SetBlocking sock false]))
  /\ (forall w : list select_outcome,
         let r := poll_loop host IPPROTO_SCTP SCTP_PPID st w in
         tunnel_ready (fst r) = false
         /\ forallb (fun e => negb (passes_gate e)) (snd r) = true
         /\ written CU_SOCKET (snd r) = []
         /\ written DU_SOCKET (snd r) = []).
Proof.
  intros Off. split.
  - intros. now apply process_socket_blocked with (ppid := ppid).
  - intros w r.
    pose proof (poll_loop_session host IPPROTO_SCTP SCTP_PPID st w) as [H _].
    pose proof (poll_loop_gated host IPPROTO_SCTP SCTP_PPID st w Off) as Q.
    fold r in H, Q. repeat split.
    + congruence.
    + exact Q.
    + now apply quiet_written.
    + now apply quiet_written.
Qed.

(** C1 at a tunnel before the key exchange: one packet, then two polls
    with three packets. *)
Lemma gate_enforcement_witness :
  let st := Fixtures.fresh (Fixtures.agreeing_kem Fixtures.SECRET)
              (Fixtures.agreeing_kem Fixtures.SECRET) in
  _process_socket_data little 132 3 st CU_SOCKET
    (RecvPlain Fixtures.packet) SendSctp
  = (st, [SetBlocking CU_SOCKET false;
          Log WARNING (MsgBlocked 4 "CU");
          SetBlocking CU_SOCKET false])
  /\ written DU_SOCKET
       (snd (poll_loop little 132 3 st
               [Readable [(CU_SOCKET, RecvPlain Fixtures.packet, SendSctp)];
                Readable [(CU_SOCKET, RecvPlain [x05], SendFallback);
                          (DU_SOCKET, RecvPlain [x06], SendSctp)]]))
     = [].
Proof.
  intros st.
  destruct (gate_enforcement little 132 3 st eq_refl) as [One Many].
  split.
  - apply (One CU_SOCKET (RecvPlain Fixtures.packet) SendSctp
             Fixtures.packet F1AP_PPID); reflexivity.
  - apply Many.
Defined.

(* ------------------------------------------------------------------ *)
(** ** The payload tag *)

Lemma le_value_le_bytes (k : nat) (n : N) :
  le_value (le_bytes k n) = (n mod 256 ^ N.of_nat k)%N.
Proof.
  revert n. induction k as [| k IH]; intros n.
  - cbn. now rewrite N.mod_1_r.
  - cbn [le_bytes le_value fold_right]. fold (le_value (le_bytes k (N.shiftr n 8))).
    rewrite IH, to_N_byte_of_N, N.shiftr_div_pow2.
    rewrite Nat2N.inj_succ, N.pow_succ_r'.
    change (2 ^ 8)%N with 256%N.
    now rewrite N.Div0.mod_mul_r.
Qed.

Lemma be_value_acc (b : bytes) (acc : N) :
  fold_left (fun a x => (a * 256 + Byte.to_N x)%N) b acc
  = (acc * 256 ^ N.of_nat (List.length b) + be_value b)%N.
Proof.
  unfold be_value. revert acc. induction b as [| x b IH]; intros acc.
  - cbn. lia.
  - cbn [fold_left List.length]. rewrite IH, (IH (0 * 256 + Byte.to_N x)%N).
    rewrite Nat2N.inj_succ, N.pow_succ_r'. lia.
Qed.

Lemma be_value_be_bytes (k : nat) (n : N) :
  be_value (be_bytes k n) = (n mod 256 ^ N.of_nat k)%N.
Proof.
  induction k as [| k IH].
  - cbn. now rewrite N.mod_1_r.
  - cbn [be_bytes]. unfold be_value. cbn [fold_left].
    rewrite be_value_acc, be_bytes_length, IH, to_N_byte_of_N.
    rewrite N.shiftr_div_pow2, N.pow_mul_r. change (2 ^ 8)%N with 256%N.
    rewrite Nat2N.inj_succ, N.pow_succ_r', (N.mul_comm 256).
    rewrite N.Div0.mod_mul_r. lia.
Qed.

Lemma le_value_bound (b : bytes) :
  (le_value b < 256 ^ N.of_nat (List.length b))%N.
Proof.
  induction b as [| x b IH].
  - cbn. lia.
  - cbn [le_value fold_right List.length]. fold (le_value b).
    rewrite Nat2N.inj_succ, N.pow_succ_r'.
    pose proof (to_N_lt_256 x). nia.
Qed.

Lemma be_value_bound (b : bytes) :
  (be_value b < 256 ^ N.of_nat (List.length b))%N.
Proof.
  induction b as [| x b IH].
  - cbn. lia.
  - unfold be_value. cbn [fold_left List.length].
    rewrite be_value_acc, Nat2N.inj_succ, N.pow_succ_r'.
    pose proof (to_N_lt_256 x). nia.
Qed.

Lemma pack_I_native_length (host : byteorder) (n : N) :
  List.length (pack_I_native host n) = 4%nat.
Proof. destruct host; reflexivity. Qed.

Lemma unpack_pack_native (host : byteorder) (n : N) :
  (n < 4294967296)%N ->
  unpack_I_native host (pack_I_native host n) = Some n.
Proof.
  intros H. unfold unpack_I_native. rewrite pack_I_native_length.
  cbn [Nat.eqb]. f_equal. unfold pack_I_native.
  destruct host; [rewrite le_value_le_bytes | rewrite be_value_be_bytes];
    apply N.mod_small; exact H.
Qed.

Lemma unpack_native_bound (host : byteorder) (b : bytes) (n : N) :
  unpack_I_native host b = Some n -> (n < 4294967296)%N.
Proof.
  unfold unpack_I_native.
  destruct (Nat.eqb_spec (List.length b) 4) as [L |]; [| discriminate].
  intros [= <-].
  change 4294967296%N with (256 ^ N.of_nat 4)%N. rewrite <- L.
  destruct host; [apply le_value_bound | apply be_value_bound].
Qed.

Lemma extract_ppid_bound (host : byteorder) (IPPROTO_SCTP SCTP_PPID : Z)
    (anc : list cmsg) (p0 p : N) :
  (p0 < 4294967296)%N ->
  extract_ppid host IPPROTO_SCTP SCTP_PPID anc p0 = Some p ->
  (p < 4294967296)%N.
Proof.
  revert p0. induction anc as [| c anc IH]; intros p0 H0; cbn [extract_ppid].
  - now intros [= <-].
  - destruct (_ && _).
    + destruct (unpack_I_native host (cmsg_data c)) eqn:U; [| discriminate].
      apply IH. now apply unpack_native_bound in U.
    + now apply IH.
Qed.

Lemma extract_ppid_default (host : byteorder) (IPPROTO_SCTP SCTP_PPID : Z)
    (anc : list cmsg) (p0 : N) :
  existsb (fun c => Z.eqb (cmsg_level c) IPPROTO_SCTP
                    && Z.eqb (cmsg_type c) SCTP_PPID) anc = false ->
  extract_ppid host IPPROTO_SCTP SCTP_PPID anc p0 = Some p0.
Proof.
  induction anc as [| c anc IH]; cbn [existsb extract_ppid]; [reflexivity |].
  intros H. apply orb_false_elim in H as [Hc Hr].
  rewrite Hc. now apply IH.
Qed.

Lemma read_packet_bound (host : byteorder) (IPPROTO_SCTP SCTP_PPID : Z)
    (rcv : recv_outcome) (d : bytes) (ppid : N) :
  read_packet host IPPROTO_SCTP SCTP_PPID rcv = Some (d, ppid) ->
  (ppid < 4294967296)%N.
Proof.
  destruct rcv as [d' anc | d' | | |]; cbn [read_packet]; try discriminate.
  - destruct (extract_ppid _ _ _ anc F1AP_PPID) eqn:E; [| discriminate].
    intros [= _ <-]. eapply extract_ppid_bound; [| exact E]. reflexivity.
  - intros [= _ <-]. reflexivity.
Qed.

Lemma read_packet_default (host : byteorder) (IPPROTO_SCTP SCTP_PPID : Z)
    (rcv : recv_outcome) (d : bytes) (ppid : N) :
  read_packet host IPPROTO_SCTP SCTP_PPID rcv = Some (d, ppid) ->
  supplies_tag IPPROTO_SCTP SCTP_PPID rcv = false ->
  ppid = F1AP_PPID.
Proof.
  destruct rcv as [d' anc | d' | | |]; cbn [read_packet supplies_tag];
    try discriminate.
  - intros R S0. rewrite extract_ppid_default in R by exact S0. congruence.
  - congruence.
Qed.

(* ------------------------------------------------------------------ *)
(** ** The secured path: claims C7, C8, C9, C10 *)

Lemma protect_data_snd_quiet (ok : effect -> bool) (m : PQCManager)
    (data : bytes) (direction : string) :
  (forall e, is_cipher_call e = true -> ok e = true) ->
  forallb ok (snd (protect_data m data direction)) = true.
Proof.
  intros H. unfold protect_data.
  destruct (shared_secret m) as [[| b s] |];
    try destruct (expand_key_stream _ _);
    cbn [snd forallb]; rewrite H; reflexivity.
Qed.

(** Managers that hold the same secret undo each other. *)
Lemma equal_secret_roundtrip (enc dec : PQCManager) (d c : bytes)
    (dir1 dir2 : string) :
  shared_secret enc = shared_secret dec ->
  fst (protect_data enc d dir1) = Some c ->
  fst (protect_data dec c dir2) = Some d.
Proof.
  intros Eq P.
  destruct (truthy_opt (shared_secret enc)) eqn:T.
  - destruct (shared_secret enc) as [secret |] eqn:S; [| discriminate].
    cbn [truthy_opt] in T.
    rewrite (protect_data_fst enc secret d dir1 S) in P.
    rewrite (protect_data_fst dec secret c dir2 (eq_sym Eq)).
    destruct (protect_involutive secret d (truthy_nonempty secret T))
      as (c' & P1 & P2).
    congruence.
  - rewrite protect_data_no_secret in P by exact T. discriminate.
Qed.

Lemma truthy_length (a b : bytes) :
  List.length a = List.length b -> truthy a = truthy b.
Proof. destruct a, b; cbn; congruence. Qed.

Section SecuredPath.
Variable host : byteorder.
Variables IPPROTO_SCTP SCTP_PPID : Z.

(** [secured_flow] once the data is encrypted and handed to the channel. *)
Lemma secured_flow_sent (st : SCTPEventHandler) (enc dec : PQCManager)
    (out : node_id) (dst : sock_id) (d c : bytes) (sn tn : string)
    (ppid : N) (snd0 : send_outcome) :
  fst (protect_data enc d "Encrypted") = Some c ->
  truthy d = true ->
  (ppid < 4294967296)%N ->
  secured_flow host st enc dec out dst d sn tn ppid snd0
  = let t012 :=
      [Log INFO (MsgProcessing sn tn (List.length d))]
        ++ snd (protect_data enc d "Encrypted")
        ++ [TxOutput out (PyBytes (pack_I_native host ppid ++ c))] in
    match protect_data dec c "Decrypted" with
    | (None, t3) | (Some [], t3) => (Returns tt, t012 ++ t3)
    | (Some d', t3) =>
        if negb (bytes_eqb d' d) then
          (Returns tt, t012 ++ t3 ++ [Log ERROR MsgIntegrityFailed])
        else
          (Returns tt,
           t012 ++ t3 ++
             (if usable (get_global st dst) then
                match _send_with_ppid dst d' ppid snd0 with
                | (Returns _, ts) =>
                    [SetBlocking dst true] ++ ts ++ [SetBlocking dst false]
                | (Raises, ts) =>
                    [SetBlocking dst true] ++ ts
                      ++ [Log ERROR (MsgSendFailed tn)]
                end
              else []))
    end.
Proof.
  intros P T B. unfold secured_flow.
  pose proof (protect_data_length enc d c "Encrypted" P) as L.
  destruct (protect_data enc d "Encrypted") as [e t1]. cbn [fst snd] in *.
  subst e.
  destruct c as [| c0 c]; [destruct d; discriminate |].
  apply N.ltb_lt in B. rewrite B.
  assert (F : firstn 4 (pack_I_native host ppid ++ c0 :: c)
              = pack_I_native host ppid).
  { rewrite firstn_app, pack_I_native_length, firstn_all2
      by now rewrite pack_I_native_length.
    cbn. apply app_nil_r. }
  rewrite F, unpack_pack_native by now apply N.ltb_lt.
  destruct (protect_data dec (c0 :: c) "Decrypted") as [[[| d0 d'] |] t3];
    cbn [app]; rewrite <- ?app_assoc; cbn [app]; reflexivity.
Qed.

(** A read of a data packet with the flag up. *)
Lemma process_socket_ready (st : SCTPEventHandler) (sock : sock_id)
    (rcv : recv_outcome) (snd0 : send_outcome) (d : bytes) (ppid : N) :
  tunnel_ready st = true ->
  Z.eqb (sock_fileno st sock) (-1) = false ->
  read_packet host IPPROTO_SCTP SCTP_PPID rcv = Some (d, ppid) ->
  truthy d = true ->
  _process_socket_data host IPPROTO_SCTP SCTP_PPID st sock rcv snd0
  = let b := is_cu st sock in
    match secured_flow host st (sender st b) (receiver st b) (out_node b)
            (destination b) d (source_name b) (target_name b) ppid snd0 with
    | (Returns _, t) =>
        (st, [SetBlocking sock false] ++ t ++ [SetBlocking sock false])
    | (Raises, t) =>
        (st, ([SetBlocking sock false] ++ t) ++ [Log ERROR MsgTransferError]
               ++ [SetBlocking sock false])
    end.
Proof.
  intros On Open R T.
  unfold _process_socket_data, _process_data_through_pqc, reset_nonblocking.
  rewrite Open, On. cbn [negb].
  assert (E : match rcv with
              | RecvMsg d0 anc =>
                  match extract_ppid host IPPROTO_SCTP SCTP_PPID anc F1AP_PPID
                  with
                  | Some p => inl (d0, p)
                  | None => inr RecvError
                  end
              | RecvPlain d0 => inl (d0, F1AP_PPID)
              | other => inr other
              end = inl (d, ppid)).
  { destruct rcv as [d' anc | d' | | |]; cbn [read_packet] in R;
      try discriminate.
    - destruct (extract_ppid _ _ _ anc F1AP_PPID); [| discriminate].
      congruence.
    - congruence. }
  rewrite E. destruct d as [| d0 d]; [discriminate |].
  unfold sender, receiver, out_node, destination, source_name, target_name.
  destruct (is_cu st sock);
    destruct (secured_flow _ _ _ _ _ _ _ _ _ _ _) as [[[] |] t];
    cbn [fst snd]; rewrite ?Open, <- ?app_assoc; reflexivity.
Qed.

(** With equal secrets the flow never reports an integrity failure. *)
Lemma secured_flow_no_failure (st : SCTPEventHandler) (enc dec : PQCManager)
    (out : node_id) (dst : sock_id) (d : bytes) (sn tn : string)
    (ppid : N) (snd0 : send_outcome) :
  shared_secret enc = shared_secret dec ->
  forallb (fun e => negb (is_integrity_failure e))
    (snd (secured_flow host st enc dec out dst d sn tn ppid snd0)) = true.
Proof.
  intros Eq. unfold secured_flow.
  assert (C : forall m x dir,
             forallb (fun e => negb (is_integrity_failure e))
               (snd (protect_data m x dir)) = true).
  { intros. apply protect_data_snd_quiet.
    intros [lvl [] | | | | | |]; cbn; congruence. }
  pose proof (C enc d "Encrypted"%string) as C1.
  pose proof (fun x => equal_secret_roundtrip enc dec d x
                        "Encrypted"%string "Decrypted"%string Eq) as RT.
  destruct (protect_data enc d "Encrypted") as [[[| c0 c] |] t1];
    cbn [fst snd] in *; rewrite ?forallb_app, ?C1; try reflexivity.
  destruct (N.ltb ppid 4294967296);
    [| cbn [snd]; now rewrite ?forallb_app, ?C1].
  destruct (unpack_I_native host _);
    [| cbn [snd]; now rewrite ?forallb_app, ?C1].
  specialize (RT (c0 :: c) eq_refl).
  pose proof (C dec (c0 :: c) "Decrypted"%string) as C3.
  destruct (protect_data dec (c0 :: c) "Decrypted") as [[[| d0 d'] |] t3];
    cbn [fst snd] in *; rewrite ?forallb_app, ?C1, ?C3; try reflexivity.
  injection RT as RT. rewrite RT, bytes_eqb_refl. cbn [negb snd].
  rewrite ?forallb_app, ?C1, ?C3. cbn [forallb negb andb].
  destruct (usable _); [| reflexivity].
  destruct snd0; reflexivity.
Qed.

Lemma process_socket_no_failure (st : SCTPEventHandler) (sock : sock_id)
    (rcv : recv_outcome) (snd0 : send_outcome) :
  shared_secret (qcu_pqc st) = shared_secret (qdu_pqc st) ->
  forallb (fun e => negb (is_integrity_failure e))
    (snd (_process_socket_data host IPPROTO_SCTP SCTP_PPID st sock rcv snd0))
  = true.
Proof.
  intros Eq.
  assert (F : forall d b sn tn p,
             forallb (fun e => negb (is_integrity_failure e))
               (snd (_process_data_through_pqc host st d b sn tn p snd0))
             = true).
  { intros. unfold _process_data_through_pqc.
    destruct (negb (tunnel_ready st)); [reflexivity |].
    destruct b; apply secured_flow_no_failure; congruence. }
  assert (R : forall s' s, forallb (fun e => negb (is_integrity_failure e))
                             (reset_nonblocking s' s) = true).
  { intros. unfold reset_nonblocking. now destruct (Z.eqb _ _). }
  assert (K : forall m, (forall s, is_integrity_failure (Log WARNING (m s))
                                   = false) ->
                        forallb (fun e => negb (is_integrity_failure e))
                          (snd (close_side st sock m)) = true).
  { intros m Hm. unfold close_side.
    destruct (get_global st _); cbn [snd forallb]; now rewrite Hm. }
  pose proof (K MsgEmptyData (fun _ => eq_refl)) as KE.
  pose proof (K MsgConnectionError (fun _ => eq_refl)) as KC.
  unfold _process_socket_data, _handle_empty_data, _handle_connection_error.
  destruct (Z.eqb (sock_fileno st sock) (-1));
    [cbn [snd]; now rewrite forallb_app, R |].
  destruct rcv as [d anc | d | | |];
    try destruct (extract_ppid _ _ _ anc F1AP_PPID);
    try destruct d;
    try destruct (close_side st sock MsgEmptyData) as [s1 t1];
    try destruct (close_side st sock MsgConnectionError) as [s2 t2];
    try destruct (tunnel_ready st);
    try match goal with
      | |- context [_process_data_through_pqc ?h ?s ?x ?b ?sn ?tn ?p ?o] =>
          let H := fresh in
          pose proof (F x b sn tn p) as H;
          destruct (_process_data_through_pqc h s x b sn tn p o) as [[|] ?]
      end;
    cbn [snd fst] in *;
    rewrite ?forallb_app, ?R; cbn [forallb negb andb];
    repeat match goal with H : forallb _ _ = true |- _ => rewrite H end;
    reflexivity.
Qed.
End SecuredPath.

Lemma cipher_log_not_write (m : PQCManager) (data : bytes)
    (direction : string) :
  forallb (fun e => negb (is_channel_send e || is_socket_write e))
    (snd (protect_data m data direction)) = true.
Proof.
  apply protect_data_snd_quiet.
  intros [lvl [] | | | | | |]; cbn; congruence.
Qed.

Lemma forallb_not_write_written (s : sock_id) (t : trace) :
  forallb (fun e => negb (is_socket_write e)) t = true -> written s t = [].
Proof.
  induction t as [| e t IH]; [reflexivity |].
  cbn [forallb]. intros H. apply andb_prop in H as [He Ht].
  destruct e; cbn [written]; try (now apply IH); discriminate He.
Qed.

(** C7. On delivery, if the decrypted bytes differ from the plaintext kept
    from before the encryption, the packet is dropped: the failure is
    logged, nothing is written to any socket, and the handler is left as it
    was, its readiness flag true, so that later packets are processed as
    before. *)
Theorem integrity_mismatch_drops_packet (host : byteorder)
    (IPPROTO_SCTP SCTP_PPID : Z) (st : SCTPEventHandler) (sock : sock_id)
    (rcv : recv_outcome) (snd0 : send_outcome) (d c d' : bytes) (ppid : N) :
  tunnel_ready st = true ->
  Z.eqb (sock_fileno st sock) (-1) = false ->
  read_packet host IPPROTO_SCTP SCTP_PPID rcv = Some (d, ppid) ->
  truthy d = true ->
  fst (protect_data (sender st (is_cu st sock)) d "Encrypted") = Some c ->
  fst (protect_data (receiver st (is_cu st sock)) c "Decrypted") = Some d' ->
  d' <> d ->
  let r := _process_socket_data host IPPROTO_SCTP SCTP_PPID st sock rcv snd0 in
  In (Log ERROR MsgIntegrityFailed) (snd r)
  /\ forallb (fun e => negb (is_socket_write e)) (snd r) = true
  /\ written CU_SOCKET (snd r) = []
  /\ written DU_SOCKET (snd r) = []
  /\ fst r = st
  /\ tunnel_ready (fst r) = true.
Proof.
  intros On Open R T E D Ne r.
  assert (W : In (Log ERROR MsgIntegrityFailed) (snd r)
              /\ forallb (fun e => negb (is_socket_write e)) (snd r) = true
              /\ fst r = st).
  { subst r.
    rewrite (process_socket_ready host IPPROTO_SCTP SCTP_PPID st sock rcv
               snd0 d ppid On Open R T).
    cbv zeta.
    rewrite (secured_flow_sent host st _ _ _ _ d c _ _ ppid snd0 E T
               (read_packet_bound _ _ _ _ _ _ R)).
    cbv zeta.
    pose proof (protect_data_length _ _ _ _ E) as L1.
    pose proof (protect_data_length _ _ _ _ D) as L2.
    pose proof (cipher_log_not_write (sender st (is_cu st sock)) d
                  "Encrypted") as Q1.
    pose proof (cipher_log_not_write (receiver st (is_cu st sock)) c
                  "Decrypted") as Q3.
    assert (Q1' : forallb (fun e => negb (is_socket_write e))
                    (snd (protect_data (sender st (is_cu st sock)) d
                            "Encrypted")) = true).
    { clear -Q1. induction (snd _) as [| e t IH]; [reflexivity |].
      cbn [forallb] in *. apply andb_prop in Q1 as [A B].
      rewrite (IH B), andb_true_r.
      rewrite negb_orb in A. now apply andb_prop in A as [_ A]. }
    assert (Q3' : forallb (fun e => negb (is_socket_write e))
                    (snd (protect_data (receiver st (is_cu st sock)) c
                            "Decrypted")) = true).
    { clear -Q3. induction (snd _) as [| e t IH]; [reflexivity |].
      cbn [forallb] in *. apply andb_prop in Q3 as [A B].
      rewrite (IH B), andb_true_r.
      rewrite negb_orb in A. now apply andb_prop in A as [_ A]. }
    destruct (protect_data (receiver st (is_cu st sock)) c "Decrypted")
      as [dec t3].
    cbn [fst snd] in D, Q3'. subst dec.
    destruct d' as [| d0 d'].
    { destruct d; [discriminate |]. destruct c; discriminate. }
    assert (B : bytes_eqb (d0 :: d') d = false).
    { destruct (bytes_eqb (d0 :: d') d) eqn:B; [| reflexivity].
      apply bytes_eqb_eq in B. contradiction. }
    rewrite B. cbn [negb fst snd].
    repeat split.
    - rewrite ?in_app_iff. cbn [In]. intuition auto.
    - rewrite ?forallb_app, Q1', Q3'. reflexivity. }
  destruct W as (W1 & W2 & W3).
  repeat split; trivial.
  - now apply forallb_not_write_written.
  - now apply forallb_not_write_written.
  - now rewrite W3.
Qed.

(** C7 at two managers that hold different secrets. *)
Lemma integrity_mismatch_drops_packet_witness :
  let st := Fixtures.established (Some [x02]) (Some [x01]) true in
  let r := _process_socket_data little 132 3 st CU_SOCKET (RecvPlain [x00])
             SendSctp in
  In (Log ERROR MsgIntegrityFailed) (snd r)
  /\ forallb (fun e => negb (is_socket_write e)) (snd r) = true
  /\ written CU_SOCKET (snd r) = []
  /\ written DU_SOCKET (snd r) = []
  /\ fst r = st
  /\ tunnel_ready (fst r) = true.
Proof.
  intros st.
  apply (integrity_mismatch_drops_packet little 132 3 st CU_SOCKET
           (RecvPlain [x00]) SendSctp [x00] [xa5] [xe6] F1AP_PPID).
  - reflexivity.
  - reflexivity.
  - reflexivity.
  - reflexivity.
  - vm_compute. reflexivity.
  - vm_compute. reflexivity.
  - discriminate.
Defined.

(** C9. When the two managers hold equal shared secrets, decrypting at the
    receiving manager what the sending manager encrypted gives the packet
    back, in both directions, and the integrity failure is never reported,
    over any number of polls with any packets. *)
Theorem integrity_check_never_fails (host : byteorder)
    (IPPROTO_SCTP SCTP_PPID : Z) (st : SCTPEventHandler) :
  shared_secret (qcu_pqc st) = shared_secret (qdu_pqc st) ->
  (forall (is_cu_socket : bool) (d c : bytes),
      fst (protect_data (sender st is_cu_socket) d "Encrypted") = Some c ->
      fst (protect_data (receiver st is_cu_socket) c "Decrypted") = Some d)
  /\ (forall w : list select_outcome,
         forallb (fun e => negb (is_integrity_failure e))
           (snd (poll_loop host IPPROTO_SCTP SCTP_PPID st w)) = true).
Proof.
  intros Eq. split.
  - intros b d c. apply equal_secret_roundtrip.
    destruct b; cbn [sender receiver]; congruence.
  - intros w.
    apply (poll_loop_all host IPPROTO_SCTP SCTP_PPID
             (fun e => negb (is_integrity_failure e))
             (fun st => shared_secret (qcu_pqc st)
                        = shared_secret (qdu_pqc st))).
    + intros a b (_ & Hdu & Hcu) Ha. congruence.
    + reflexivity.
    + reflexivity.
    + intros. now apply process_socket_no_failure.
    + exact Eq.
Qed.

(** C9 at two managers that hold [b"SECRET"]. *)
Lemma integrity_check_never_fails_witness :
  let st := Fixtures.established (Some Fixtures.SECRET)
              (Some Fixtures.SECRET) true in
  (forall (is_cu_socket : bool) (d c : bytes),
      fst (protect_data (sender st is_cu_socket) d "Encrypted") = Some c ->
      fst (protect_data (receiver st is_cu_socket) c "Decrypted") = Some d)
  /\ (forall w : list select_outcome,
         forallb (fun e => negb (is_integrity_failure e))
           (snd (poll_loop little 132 3 st w)) = true).
Proof.
  intros st. apply (integrity_check_never_fails little 132 3 st).
  reflexivity.
Defined.

(** C10. A manager that holds a non-empty secret returns, for every byte
    sequence, a result of exactly the length of its input; the empty input
    gives the empty byte string, which the caller's truthiness test takes
    for a failure: for a zero-length packet [_process_data_through_pqc]
    hands nothing to a channel and writes nothing to a socket. *)
Theorem protect_data_preserves_length (host : byteorder) (m : PQCManager)
    (secret data : bytes) (direction : string) :
  shared_secret m = Some secret ->
  truthy secret = true ->
  (exists r, fst (protect_data m data direction) = Some r
             /\ List.length r = List.length data)
  /\ fst (protect_data m [] direction) = Some []
  /\ (forall st is_cu_socket sn tn ppid snd0,
         forallb (fun e => negb (is_channel_send e || is_socket_write e))
           (snd (_process_data_through_pqc host st [] is_cu_socket sn tn
                   ppid snd0)) = true).
Proof.
  intros S T.
  assert (TT : truthy_opt (shared_secret m) = true) by now rewrite S.
  assert (Len : forall x, exists r,
               fst (protect_data m x direction) = Some r
               /\ List.length r = List.length x).
  { intros x.
    destruct (protect_data_ready m x direction TT) as (s & ks & _ & _ & L & P).
    rewrite P. eexists; split; [reflexivity |]. now apply xor_zip_length. }
  split; [apply Len |]. split.
  - destruct (Len []) as (r & P & L). rewrite P.
    destruct r; [reflexivity | discriminate].
  - intros st b sn tn ppid snd0. unfold _process_data_through_pqc.
    destruct (negb (tunnel_ready st)); [reflexivity |].
    assert (F : forall enc dec out dst,
               forallb (fun e => negb (is_channel_send e || is_socket_write e))
                 (snd (secured_flow host st enc dec out dst [] sn tn ppid snd0))
               = true).
    { intros. unfold secured_flow.
      pose proof (cipher_log_not_write enc [] "Encrypted") as Q.
      pose proof (fun r => protect_data_length enc [] r "Encrypted") as L.
      destruct (protect_data enc [] "Encrypted") as [[[| c0 c] |] t1];
        cbn [fst snd] in *; rewrite ?forallb_app, ?Q; try reflexivity.
      specialize (L (c0 :: c) eq_refl). discriminate. }
    destruct b; apply F.
Qed.

(** C10 at the QCU manager holding [b"SECRET"]. *)
Lemma protect_data_preserves_length_witness :
  let m := qcu_pqc (Fixtures.established (Some Fixtures.SECRET)
                      (Some Fixtures.SECRET) true) in
  (exists r, fst (protect_data m Fixtures.packet "Encrypted") = Some r
             /\ List.length r = List.length Fixtures.packet)
  /\ fst (protect_data m [] "Encrypted") = Some []
  /\ (forall st is_cu_socket sn tn ppid snd0,
         forallb (fun e => negb (is_channel_send e || is_socket_write e))
           (snd (_process_data_through_pqc little st [] is_cu_socket sn tn
                   ppid snd0)) = true).
Proof.
  intros m.
  apply (protect_data_preserves_length little m Fixtures.SECRET
           Fixtures.packet "Encrypted"); reflexivity.
Defined.

Lemma filter_none (f : effect -> bool) (t : trace) :
  forallb (fun e => negb (f e)) t = true -> filter f t = [].
Proof.
  induction t as [| e t IH]; [reflexivity |].
  cbn [forallb filter]. intros H. apply andb_prop in H as [He Ht].
  apply negb_true_iff in He. rewrite He. now apply IH.
Qed.

Lemma cipher_log_not_channel (m : PQCManager) (data : bytes)
    (direction : string) :
  filter is_channel_send (snd (protect_data m data direction)) = [].
Proof.
  apply filter_none, protect_data_snd_quiet.
  intros [lvl [] | | | | | |]; cbn; congruence.
Qed.

(** C8 (amended). For every data packet processed with the flag up and
    encrypted to [c], exactly one unit is handed to the channel: the
    payload tag on four bytes in the byte order of the host ([struct]
    format ['=I']: little-endian on a little-endian host, big-endian on a
    big-endian one), followed by the ciphertext [c].  The tag decodes to
    the PPID of the read, and it is the constant 62 (the F1AP PPID)
    whenever the read supplies no tag of its own. *)
Theorem wire_unit_native_tag (host : byteorder) (IPPROTO_SCTP SCTP_PPID : Z)
    (st : SCTPEventHandler) (sock : sock_id) (rcv : recv_outcome)
    (snd0 : send_outcome) (d c : bytes) (ppid : N) :
  tunnel_ready st = true ->
  Z.eqb (sock_fileno st sock) (-1) = false ->
  read_packet host IPPROTO_SCTP SCTP_PPID rcv = Some (d, ppid) ->
  truthy d = true ->
  fst (protect_data (sender st (is_cu st sock)) d "Encrypted") = Some c ->
  let r := _process_socket_data host IPPROTO_SCTP SCTP_PPID st sock rcv snd0 in
  let tag := pack_I_native host ppid in
  filter is_channel_send (snd r)
  = [TxOutput (out_node (is_cu st sock)) (PyBytes (tag ++ c))]
  /\ List.length tag = 4%nat
  /\ tag = match host with
           | little => le_bytes 4 ppid
           | big => be_bytes 4 ppid
           end
  /\ unpack_I_native host tag = Some ppid
  /\ (supplies_tag IPPROTO_SCTP SCTP_PPID rcv = false -> ppid = F1AP_PPID).
Proof.
  intros On Open R T E r tag.
  pose proof (read_packet_bound _ _ _ _ _ _ R) as B.
  split; [| split; [| split; [| split]]].
  - subst r tag.
    rewrite (process_socket_ready host IPPROTO_SCTP SCTP_PPID st sock rcv
               snd0 d ppid On Open R T).
    cbv zeta.
    rewrite (secured_flow_sent host st _ _ _ _ d c _ _ ppid snd0 E T B).
    cbv zeta.
    pose proof (cipher_log_not_channel (sender st (is_cu st sock)) d
                  "Encrypted") as Q1.
    pose proof (cipher_log_not_channel (receiver st (is_cu st sock)) c
                  "Decrypted") as Q3.
    destruct (protect_data (receiver st (is_cu st sock)) c "Decrypted")
      as [[[| d0 d'] |] t3]; cbn [snd] in *;
      try destruct (negb (bytes_eqb (d0 :: d') d));
      try destruct (usable _); try destruct snd0;
      cbn [_send_with_ppid snd];
      rewrite ?filter_app, ?Q1, ?Q3; reflexivity.
  - apply pack_I_native_length.
  - subst tag. now destruct host.
  - now apply unpack_pack_native.
  - now apply read_packet_default with (host := host) (d := d).
Qed.

(** C8 (amended) at a four-byte packet on a little-endian host. *)
Lemma wire_unit_native_tag_witness :
  let st := Fixtures.established (Some Fixtures.SECRET)
              (Some Fixtures.SECRET) true in
  let r := _process_socket_data little 132 3 st CU_SOCKET
             (RecvPlain Fixtures.packet) SendSctp in
  let tag := pack_I_native little F1AP_PPID in
  filter is_channel_send (snd r)
  = [TxOutput CU_NODE (PyBytes (tag ++ [x83; x0d; x40; x68]))]
  /\ List.length tag = 4%nat
  /\ tag = le_bytes 4 F1AP_PPID
  /\ unpack_I_native little tag = Some F1AP_PPID
  /\ (supplies_tag 132 3 (RecvPlain Fixtures.packet) = false ->
      F1AP_PPID = F1AP_PPID).
Proof.
  intros st.
  apply (wire_unit_native_tag little 132 3 st CU_SOCKET
           (RecvPlain Fixtures.packet) SendSctp Fixtures.packet
           [x83; x0d; x40; x68] F1AP_PPID).
  - reflexivity.
  - reflexivity.
  - reflexivity.
  - reflexivity.
  - vm_compute. reflexivity.
Defined.

(** C8 (as stated) fails on a little-endian host: the unit on the channel
    is not the big-endian tag followed by the ciphertext, the tag 62
    travels as [3e 00 00 00]. *)
Lemma wire_unit_not_big_endian :
  let st := Fixtures.established (Some Fixtures.SECRET)
              (Some Fixtures.SECRET) true in
  let r := _process_socket_data little 132 3 st CU_SOCKET
             (RecvPlain Fixtures.packet) SendSctp in
  exists c,
    fst (protect_data (qcu_pqc st) Fixtures.packet "Encrypted") = Some c
    /\ filter is_channel_send (snd r)
       = [TxOutput CU_NODE (PyBytes ([x3e; x00; x00; x00] ++ c))]
    /\ filter is_channel_send (snd r)
       <> [TxOutput CU_NODE (PyBytes (pack_I_be F1AP_PPID ++ c))].
Proof.
  exists [x83; x0d; x40; x68]. vm_compute.
  repeat split; discriminate.
Qed.

(* ------------------------------------------------------------------ *)
(** ** The handshake: claim C3 *)

Section DataPlane.
Variable host : byteorder.
Variables IPPROTO_SCTP SCTP_PPID : Z.

Lemma protect_data_data_plane (m : PQCManager) (x : bytes) (dir : string) :
  forallb is_data_plane (snd (protect_data m x dir)) = true.
Proof.
  apply protect_data_snd_quiet.
  intros [lvl [] | | | | | |]; cbn; congruence.
Qed.

Lemma secured_flow_data_plane (st : SCTPEventHandler) (enc dec : PQCManager)
    (out : node_id) (dst : sock_id) (d : bytes) (sn tn : string)
    (ppid : N) (snd0 : send_outcome) :
  forallb is_data_plane
    (snd (secured_flow host st enc dec out dst d sn tn ppid snd0)) = true.
Proof.
  unfold secured_flow.
  pose proof (protect_data_data_plane enc d "Encrypted") as C1.
  destruct (protect_data enc d "Encrypted") as [[[| c0 c] |] t1];
    cbn [fst snd] in *; rewrite ?forallb_app, ?C1; try reflexivity.
  destruct (N.ltb ppid 4294967296);
    [| cbn [snd]; now rewrite ?forallb_app, ?C1].
  destruct (unpack_I_native host _);
    [| cbn [snd]; now rewrite ?forallb_app, ?C1].
  pose proof (protect_data_data_plane dec (c0 :: c) "Decrypted") as C3.
  destruct (protect_data dec (c0 :: c) "Decrypted") as [[[| d0 d'] |] t3];
    cbn [fst snd] in *; rewrite ?forallb_app, ?C1, ?C3; try reflexivity.
  destruct (negb _); cbn [snd]; rewrite ?forallb_app, ?C1, ?C3;
    [reflexivity |].
  destruct (usable _); [| reflexivity].
  destruct snd0; reflexivity.
Qed.

Lemma process_socket_data_plane (st : SCTPEventHandler) (sock : sock_id)
    (rcv : recv_outcome) (snd0 : send_outcome) :
  forallb is_data_plane
    (snd (_process_socket_data host IPPROTO_SCTP SCTP_PPID st sock rcv snd0))
  = true.
Proof.
  assert (F : forall d b sn tn p,
             forallb is_data_plane
               (snd (_process_data_through_pqc host st d b sn tn p snd0))
             = true).
  { intros. unfold _process_data_through_pqc.
    destruct (negb (tunnel_ready st)); [reflexivity |].
    destruct b; apply secured_flow_data_plane. }
  assert (R : forall s' s, forallb is_data_plane (reset_nonblocking s' s)
                           = true).
  { intros. unfold reset_nonblocking. now destruct (Z.eqb _ _). }
  assert (K : forall m, (forall s, is_data_plane (Log WARNING (m s)) = true) ->
                        forallb is_data_plane (snd (close_side st sock m))
                        = true).
  { intros m Hm. unfold close_side.
    destruct (get_global st _); cbn [snd forallb]; now rewrite Hm. }
  pose proof (K MsgEmptyData (fun _ => eq_refl)) as KE.
  pose proof (K MsgConnectionError (fun _ => eq_refl)) as KC.
  unfold _process_socket_data, _handle_empty_data, _handle_connection_error.
  destruct (Z.eqb (sock_fileno st sock) (-1));
    [cbn [snd]; now rewrite forallb_app, R |].
  destruct rcv as [d anc | d | | |];
    try destruct (extract_ppid _ _ _ anc F1AP_PPID);
    try destruct d;
    try destruct (close_side st sock MsgEmptyData) as [s1 t1];
    try destruct (close_side st sock MsgConnectionError) as [s2 t2];
    try destruct (tunnel_ready st);
    try match goal with
      | |- context [_process_data_through_pqc ?h ?s ?x ?b ?sn ?tn ?p ?o] =>
          let H := fresh in
          pose proof (F x b sn tn p) as H;
          destruct (_process_data_through_pqc h s x b sn tn p o) as [[|] ?]
      end;
    cbn [snd fst] in *;
    rewrite ?forallb_app, ?R; cbn [forallb andb];
    repeat match goal with H : forallb _ _ = true |- _ => rewrite H end;
    reflexivity.
Qed.

Lemma poll_effects (st : SCTPEventHandler) (sel : select_outcome) :
  forallb is_poll_effect
    (snd (poll_sctp_messages host IPPROTO_SCTP SCTP_PPID st sel)) = true.
Proof.
  apply (poll_all host IPPROTO_SCTP SCTP_PPID is_poll_effect (fun _ => True));
    trivial.
  intros st0 sock rcv snd0 _.
  pose proof (process_socket_data_plane st0 sock rcv snd0) as H.
  induction (snd _) as [| e t IH]; [reflexivity |].
  cbn [forallb] in *. apply andb_prop in H as [He Ht].
  rewrite (IH Ht), andb_true_r.
  destruct e as [lvl [] | | | | | | ? []]; cbn in *; congruence.
Qed.
End DataPlane.

(** The key exchange schedules nothing; either it raises the flag, the
    digests being equal, and reports no failure, or it reports a failure
    and leaves the flag as it was. *)
Lemma initialize_pqc_outcome (st : SCTPEventHandler) :
  let r := initialize_pqc st in
  forallb (fun e => negb (is_schedule e)) (snd r) = true
  /\ ((tunnel_ready (fst r) = true
       /\ digests_match (fst r)
       /\ forallb (fun e => negb (is_init_failure e)) (snd r) = true)
      \/ (tunnel_ready (fst r) = tunnel_ready st
          /\ existsb is_init_failure (snd r) = true)).
Proof.
  unfold initialize_pqc, setup_keypair, establish_shared_secret.
  destruct st as [qdu qcu ready cu du].
  destruct qdu as [n1 srv1 k1 pk1 ki1 ss1], qcu as [n2 srv2 k2 pk2 ki2 ss2].
  cbn [qdu_pqc qcu_pqc is_server kem name set_qdu_pqc set_qcu_pqc
       set_kem_instance set_public_key set_shared_secret kem_instance
       shared_secret tunnel_ready].
  destruct srv1; cbn [negb];
    [ split; [reflexivity | right; split; reflexivity] |].
  destruct (generate_keypair k1) as [[| p0 pk] |];
    try (split; [reflexivity | right; split; reflexivity]).
  cbn [qdu_pqc qcu_pqc is_server kem name set_qdu_pqc set_qcu_pqc
       set_kem_instance set_public_key set_shared_secret kem_instance
       shared_secret tunnel_ready pyval_truthy truthy andb negb].
  destruct srv2; cbn [andb negb].
  - (* QCU is the server side *)
    destruct (encap_secret k2 (p0 :: pk)) as [[ct s2] |];
      [| split; [reflexivity | right; split; reflexivity]].
    cbn [pyval_truthy qdu_pqc qcu_pqc is_server kem name set_qdu_pqc
         set_qcu_pqc set_shared_secret kem_instance shared_secret].
    destruct ct as [| ct0 ct]; cbn [truthy andb negb];
      [split; [reflexivity | right; split; reflexivity] |].
    cbn [qdu_pqc qcu_pqc is_server kem name set_qdu_pqc
         set_qcu_pqc set_shared_secret kem_instance shared_secret].
    destruct (decap_secret k1 (ct0 :: ct)) as [s1 |];
      [| split; [reflexivity | right; split; reflexivity]].
    cbn [pyval_truthy qdu_pqc qcu_pqc shared_secret set_shared_secret
         set_qdu_pqc].
    destruct (String.eqb (secret_hash s2) (secret_hash s1)) eqn:H.
    + split; [reflexivity |]. left. repeat split.
      exists s2, s1. repeat split. now apply String.eqb_eq.
    + split; [reflexivity | right; split; reflexivity].
  - (* QCU is not the server side: with no ciphertext argument it
       establishes nothing *)
    split; [reflexivity | right; split; reflexivity].
Qed.

Lemma count_init_enqueue (t : Q) (e : sim_event) (q : list (Q * sim_event)) :
  count_init (enqueue t e q)
  = (match e with Fire evtype_init => 1 | _ => 0 end + count_init q)%nat.
Proof.
  induction q as [| [t' e'] q IH]; cbn [enqueue count_init].
  - destruct e as [[] |]; reflexivity.
  - destruct (Qle_bool t' t); cbn [count_init].
    + rewrite IH. destruct e' as [[] |], e as [[] |]; lia.
    + destruct e as [[] |]; reflexivity.
Qed.

Lemma count_init_perform (now : Q) (t : trace) (q : list (Q * sim_event)) :
  forallb (fun e => negb (schedules_init e)) t = true ->
  count_init (perform now t q) = count_init q.
Proof.
  revert q. induction t as [| e t IH]; intros q H; [reflexivity |].
  cbn [forallb] in H. apply andb_prop in H as [He Ht].
  destruct e as [| | | | | | d []]; cbn [perform]; try (now apply IH).
  - rewrite IH by exact Ht. now rewrite count_init_enqueue.
  - rewrite IH by exact Ht. now rewrite count_init_enqueue.
  - discriminate He.
Qed.

Lemma forallb_weaken (A : Type) (f g : A -> bool) (l : list A) :
  (forall x, f x = true -> g x = true) ->
  forallb f l = true -> forallb g l = true.
Proof.
  intros H. induction l as [| x l IH]; [reflexivity |].
  cbn [forallb]. intros E. apply andb_prop in E as [Ex El].
  now rewrite (H x Ex), (IH El).
Qed.

Lemma no_failure_stamp (now : Q) (t : trace) :
  forallb (fun e => negb (is_init_failure e)) t = true ->
  no_failure_observed (stamp now t).
Proof.
  unfold no_failure_observed, stamp.
  induction t as [| e t IH]; [reflexivity |].
  cbn [forallb map snd]. intros H. apply andb_prop in H as [He Ht].
  now rewrite He, (IH Ht).
Qed.

Lemma no_failure_app (a b : list (Q * effect)) :
  no_failure_observed (a ++ b)
  <-> no_failure_observed a /\ no_failure_observed b.
Proof.
  unfold no_failure_observed. rewrite forallb_app. apply andb_true_iff.
Qed.

Lemma digests_match_session (st st' : SCTPEventHandler) :
  same_session st st' -> digests_match st -> digests_match st'.
Proof.
  intros (_ & Hdu & Hcu) (a & b & Ha & Hb & E).
  exists a, b. repeat split; congruence.
Qed.

Section Handshake.
Variable host : byteorder.
Variables IPPROTO_SCTP SCTP_PPID : Z.

Abbreviation step := (sim_step host IPPROTO_SCTP SCTP_PPID).
Abbreviation run := (sim_run host IPPROTO_SCTP SCTP_PPID).

Lemma poll_trace_facts (st : SCTPEventHandler) (sel : select_outcome) :
  let t := snd (poll_sctp_messages host IPPROTO_SCTP SCTP_PPID st sel) in
  forallb (fun e => negb (schedules_init e)) t = true
  /\ forallb (fun e => negb (is_init_failure e)) t = true.
Proof.
  pose proof (poll_effects host IPPROTO_SCTP SCTP_PPID st sel) as H.
  split; revert H; apply forallb_weaken;
    intros [lvl [] | | | | | | ? []]; cbn; congruence.
Qed.

Lemma handle_message_facts (n : node_id) (m : pyval) :
  forallb (fun e => negb (schedules_init e)) (handle_message n m) = true
  /\ forallb (fun e => negb (is_init_failure e)) (handle_message n m) = true.
Proof. destruct m; split; reflexivity. Qed.

(** Once no key exchange is pending, a step leaves the flag and the
    managers alone and adds no report of a failed exchange. *)
Lemma step_frozen (w : list select_outcome) (s : simulation) :
  count_init (events s) = 0%nat ->
  let s' := snd (step w s) in
  count_init (events s') = 0%nat
  /\ same_session (handler s) (handler s')
  /\ (no_failure_observed (observed s) -> no_failure_observed (observed s')).
Proof.
  intros C. unfold sim_step.
  destruct (events s) as [| [now ev] rest] eqn:E;
    [cbn [snd]; rewrite E; auto using same_session_refl |].
  cbn [count_init] in C.
  destruct ev as [[] | n m].
  - (* poll *)
    pose proof (poll_session host IPPROTO_SCTP SCTP_PPID (handler s)
                  match w with sel :: _ => sel | [] => Readable [] end) as S.
    pose proof (poll_trace_facts (handler s)
                  match w with sel :: _ => sel | [] => Readable [] end)
      as [F1 F2].
    destruct (poll_sctp_messages _ _ _ _ _) as [h' t].
    cbn [fst snd events handler observed] in *.
    repeat split; try apply S.
    + now rewrite count_init_perform.
    + intros N. apply no_failure_app. split; [exact N |].
      now apply no_failure_stamp.
  - discriminate C.
  - pose proof (handle_message_facts n m) as [F1 F2].
    cbn [fst snd events handler observed] in *.
    repeat split.
    + now rewrite count_init_perform.
    + intros N. apply no_failure_app. split; [exact N |].
      now apply no_failure_stamp.
Qed.

Lemma step_inv (w : list select_outcome) (s : simulation) :
  handshake_inv s -> handshake_inv (snd (step w s)).
Proof.
  intros [(C & Off & N) | (C & K)].
  - (* the key exchange is pending *)
    unfold sim_step, handshake_inv.
    destruct (events s) as [| [now ev] rest] eqn:E; [discriminate C |].
    cbn [count_init] in C.
    destruct ev as [[] | n m].
    + pose proof (poll_session host IPPROTO_SCTP SCTP_PPID (handler s)
                    match w with sel :: _ => sel | [] => Readable [] end)
        as (S & _).
      pose proof (poll_trace_facts (handler s)
                    match w with sel :: _ => sel | [] => Readable [] end)
        as [F1 F2].
      destruct (poll_sctp_messages _ _ _ _ _) as [h' t].
      cbn [fst snd events handler observed] in *.
      left. repeat split.
      * now rewrite count_init_perform.
      * congruence.
      * apply no_failure_app. split; [exact N |]. now apply no_failure_stamp.
    + pose proof (initialize_pqc_outcome (handler s)) as (F1 & O).
      destruct (initialize_pqc (handler s)) as [h' t].
      cbn [fst snd events handler observed] in *.
      right. split.
      * rewrite count_init_perform; [lia |].
        revert F1. apply forallb_weaken. intros []; cbn; congruence.
      * intros On. destruct O as [(_ & D & F2) | (Same & F2)].
        -- split; [exact D |]. apply no_failure_app.
           split; [exact N |]. now apply no_failure_stamp.
        -- congruence.
    + pose proof (handle_message_facts n m) as [F1 F2].
      cbn [fst snd events handler observed] in *.
      left. repeat split; trivial.
      * now rewrite count_init_perform.
      * apply no_failure_app. split; [exact N |]. now apply no_failure_stamp.
  - (* the key exchange has run *)
    pose proof (step_frozen w s C) as (C' & S & N').
    right. split; [exact C' |].
    intros On. destruct S as (S1 & S2 & S3).
    destruct K as [D N]; [congruence |].
    split; [| now apply N'].
    apply (digests_match_session (handler s)); [| exact D].
    now repeat split.
Qed.

Lemma run_inv (fuel : nat) (w : list select_outcome) (s : simulation) :
  handshake_inv s -> handshake_inv (run fuel w s).
Proof.
  revert w s. induction fuel as [| fuel IH]; intros w s H; cbn [sim_run];
    [exact H |].
  pose proof (step_inv w s H) as H1.
  destruct (step w s) as [w' s']. now apply IH.
Qed.

Lemma run_frozen (fuel : nat) (w : list select_outcome) (s : simulation) :
  count_init (events s) = 0%nat ->
  tunnel_ready (handler (run fuel w s)) = tunnel_ready (handler s).
Proof.
  revert w s. induction fuel as [| fuel IH]; intros w s C; cbn [sim_run];
    [reflexivity |].
  pose proof (step_frozen w s C) as (C' & (S & _) & _).
  destruct (step w s) as [w' s']. cbn [snd] in *.
  rewrite IH by exact C'. exact S.
Qed.

Lemma run_split (a b : nat) (w : list select_outcome) (s : simulation) :
  exists w', run (a + b) w s = run b w' (run a w s).
Proof.
  revert w s. induction a as [| a IH]; intros w s; cbn [sim_run Nat.add].
  - now exists w.
  - destruct (step w s) as [w1 s1]. apply IH.
Qed.

Lemma init_inv (h : SCTPEventHandler) :
  tunnel_ready h = false -> handshake_inv (sim_init h).
Proof. intros Off. left. repeat split. exact Off. Qed.

(** With the flag up no key exchange is pending. *)
Lemma inv_ready_frozen (s : simulation) :
  handshake_inv s -> tunnel_ready (handler s) = true ->
  count_init (events s) = 0%nat.
Proof. intros [(_ & Off & _) | (C & _)] On; [congruence | exact C]. Qed.

(** After a reported failure no key exchange is pending and the flag is
    down. *)
Lemma inv_failed (s : simulation) :
  handshake_inv s -> ~ no_failure_observed (observed s) ->
  count_init (events s) = 0%nat /\ tunnel_ready (handler s) = false.
Proof.
  intros [(_ & _ & N) | (C & K)] F; [contradiction |].
  split; [exact C |].
  destruct (tunnel_ready (handler s)); [| reflexivity].
  destruct K as [_ N]; [reflexivity | contradiction].
Qed.
End Handshake.

Lemma failure_observed_spec (obs : list (Q * effect)) :
  existsb (fun p => is_init_failure (snd p)) obs = true ->
  ~ no_failure_observed obs.
Proof.
  unfold no_failure_observed. induction obs as [| p obs IH]; [discriminate |].
  cbn [existsb forallb]. intros H N.
  apply andb_prop in N as [Np No].
  apply orb_prop in H as [H | H].
  - rewrite H in Np. discriminate.
  - now apply IH.
Qed.

(** C3. The readiness flag starts false.  Along any run of the tunnel it
    goes from false to true at most once (once true it stays true), and it
    is true only when both managers hold a secret and the two digests
    computed from the secrets are equal.  If the key exchange reports a
    failure (a mismatch of the digests or a failed step), the flag is false
    at every point of the run: the exchange is not run again. *)
Theorem readiness_lifecycle (host : byteorder) (IPPROTO_SCTP SCTP_PPID : Z)
    (qdu_kem qcu_kem : KeyEncapsulation) (cu du : option socket)
    (w : list select_outcome) (n : nat) :
  let s0 := sim_init (SCTPEventHandler_init qdu_kem qcu_kem cu du) in
  let at_step k := sim_run host IPPROTO_SCTP SCTP_PPID k w s0 in
  let ready k := tunnel_ready (handler (at_step k)) in
  ready 0%nat = false
  /\ (ready n = true -> forall k, (n <= k)%nat -> ready k = true)
  /\ (ready n = true -> digests_match (handler (at_step n)))
  /\ (existsb (fun p => is_init_failure (snd p)) (observed (at_step n)) = true
      -> forall k, ready k = false).
Proof.
  intros s0 at_step ready.
  assert (I : forall k, handshake_inv (at_step k)).
  { intros k. apply run_inv, init_inv. reflexivity. }
  assert (Mono : forall a k, ready a = true -> (a <= k)%nat -> ready k = true).
  { intros a k On L.
    pose proof (inv_ready_frozen (at_step a) (I a) On) as C.
    destruct (run_split host IPPROTO_SCTP SCTP_PPID a (k - a) w s0)
      as (w' & E).
    replace (a + (k - a))%nat with k in E by lia.
    unfold ready, at_step. rewrite E.
    rewrite run_frozen by exact C. exact On. }
  split; [reflexivity |].
  split; [intros On k L; exact (Mono n k On L) |]. split.
  - intros On. destruct (I n) as [(_ & Off & _) | (_ & K)].
    + unfold ready in On. congruence.
    + now apply K.
  - intros F k.
    destruct (inv_failed (at_step n) (I n) (failure_observed_spec _ F))
      as (C & Off).
    destruct (Nat.le_gt_cases n k) as [L | L].
    + destruct (run_split host IPPROTO_SCTP SCTP_PPID n (k - n) w s0)
        as (w' & E).
      replace (n + (k - n))%nat with k in E by lia.
      unfold ready, at_step. rewrite E.
      rewrite run_frozen by exact C. exact Off.
    + destruct (ready k) eqn:Rk; [| reflexivity].
      assert (ready n = true) by (apply (Mono k n Rk); lia).
      unfold ready, at_step in *. congruence.
Qed.

(** C3 at a key exchange that succeeds and at one whose digests differ. *)
Lemma readiness_lifecycle_witness :
  let w := [Readable [(CU_SOCKET, RecvPlain Fixtures.packet, SendSctp)]] in
  let good k :=
    tunnel_ready
      (handler (sim_run little 132 3 k w
                  (sim_init (Fixtures.fresh
                               (Fixtures.agreeing_kem Fixtures.SECRET)
                               (Fixtures.agreeing_kem Fixtures.SECRET))))) in
  let bad k :=
    tunnel_ready
      (handler (sim_run little 132 3 k w
                  (sim_init (Fixtures.fresh
                               (Fixtures.agreeing_kem Fixtures.SECRET)
                               (Fixtures.agreeing_kem [x01]))))) in
  good 0%nat = false /\ good 1%nat = true /\ good 7%nat = true
  /\ bad 7%nat = false.
Proof.
  intros w good bad.
  destruct (readiness_lifecycle little 132 3
              (Fixtures.agreeing_kem Fixtures.SECRET)
              (Fixtures.agreeing_kem Fixtures.SECRET)
              (Some Fixtures.cu_sock) (Some Fixtures.du_sock) w 1)
    as (G0 & G1 & _ & _).
  destruct (readiness_lifecycle little 132 3
              (Fixtures.agreeing_kem Fixtures.SECRET)
              (Fixtures.agreeing_kem [x01])
              (Some Fixtures.cu_sock) (Some Fixtures.du_sock) w 1)
    as (_ & _ & _ & B).
  split; [exact G0 |]. split; [vm_compute; reflexivity |]. split.
  - apply G1; [vm_compute; reflexivity | lia].
  - apply B. vm_compute. reflexivity.
Defined.

(* ------------------------------------------------------------------ *)
(** ** The delay: claim C5 *)

(** C5 (evaluation). A ready tunnel reads a four-byte packet from the CU
    socket in the poll that fires at time 1.  The packet is handed to the
    channel, which delivers it to the DU node at [1 + CHANNEL_DELAY]; the
    write to the DU socket is an effect of the same poll and takes place at
    time 1, before the channel has delivered. *)
Lemma write_precedes_channel_delay :
  let w := [Readable [(CU_SOCKET, RecvPlain Fixtures.packet, SendSctp)]] in
  let s := sim_run little 132 3 5 w
             (sim_init (Fixtures.fresh
                          (Fixtures.agreeing_kem Fixtures.SECRET)
                          (Fixtures.agreeing_kem Fixtures.SECRET))) in
  let T : Q := 1 in
  In (T, Log INFO (MsgProcessing "CU" "DU" 4)) (observed s)
  /\ In (T, SctpSend DU_SOCKET Fixtures.packet F1AP_PPID) (observed s)
  /\ In (T + CHANNEL_DELAY, Log INFO (MsgNodeReceived "DU" 8)) (observed s)
  /\ (T < T + CHANNEL_DELAY)%Q
  /\ forall t data ppid,
       In (t, SctpSend DU_SOCKET data ppid) (observed s) -> t = T.
Proof.
  vm_compute. repeat split;
    try (repeat (first [left; reflexivity | right])).
  intros t data ppid H.
  repeat (destruct H as [H | H]; [try discriminate H; congruence |]).
  contradiction.
Qed.

(* ================================================================== *)
(** * Further properties of the code *)

(* ------------------------------------------------------------------ *)
(** ** The key stream across lengths *)

Lemma byte_xor_assoc (a b c : byte) :
  byte_xor (byte_xor a b) c = byte_xor a (byte_xor b c).
Proof.
  unfold byte_xor at 1 3. rewrite !to_N_byte_xor. now rewrite N.lxor_assoc.
Qed.

Lemma byte_xor_same_key (a b k : byte) :
  byte_xor (byte_xor a k) (byte_xor b k) = byte_xor a b.
Proof.
  rewrite byte_xor_assoc, (byte_xor_comm b k), <- (byte_xor_assoc k k b).
  rewrite <- byte_xor_assoc, <- byte_xor_assoc, byte_xor_cancel.
  reflexivity.
Qed.

Lemma xor_zip_nil_r (d : bytes) : xor_zip d [] = [].
Proof. unfold xor_zip. now destruct d. Qed.

Lemma xor_zip_cons (x y : byte) (d k : bytes) :
  xor_zip (x :: d) (y :: k) = byte_xor x y :: xor_zip d k.
Proof. reflexivity. Qed.

(** Key bytes past the end of the data are not used. *)
Lemma xor_zip_app_r (d k t : bytes) :
  (List.length d <= List.length k)%nat ->
  xor_zip d (k ++ t) = xor_zip d k.
Proof.
  revert k. induction d as [| x d IH]; intros [| y k] H; cbn [List.length] in H;
    trivial; try lia.
  cbn [app]. rewrite !xor_zip_cons. f_equal. apply IH. lia.
Qed.

Lemma xor_zip_same_key (a b k : bytes) :
  (Nat.min (List.length a) (List.length b) <= List.length k)%nat ->
  xor_zip (xor_zip a k) (xor_zip b k) = xor_zip a b.
Proof.
  revert b k. induction a as [| x a IH]; intros b k H; [reflexivity |].
  destruct b as [| y b]; [now rewrite (xor_zip_nil_r (x :: a)), !xor_zip_nil_r |].
  destruct k as [| z k]; [cbn [List.length Nat.min] in H; lia |].
  rewrite !xor_zip_cons, byte_xor_same_key. f_equal.
  apply IH. cbn [List.length] in H. lia.
Qed.

Lemma xor_zip_swap (a b k : bytes) :
  xor_zip (xor_zip a b) k = xor_zip (xor_zip a k) b.
Proof.
  revert b k. induction a as [| x a IH]; intros b k; [reflexivity |].
  destruct b as [| y b]; [now rewrite !xor_zip_nil_r |].
  destruct k as [| z k];
    [now rewrite (xor_zip_nil_r (x :: a)), !xor_zip_nil_r |].
  rewrite !xor_zip_cons. f_equal; [| apply IH].
  rewrite !byte_xor_assoc. f_equal. apply byte_xor_comm.
Qed.

Lemma firstn_xor_zip (n : nat) (d k : bytes) :
  firstn n (xor_zip d k) = xor_zip (firstn n d) k.
Proof.
  revert d k. induction n as [| n IH]; intros d k; [reflexivity |].
  destruct d as [| x d]; [reflexivity |].
  destruct k as [| y k]; [now rewrite !xor_zip_nil_r |].
  cbn [firstn]. rewrite !xor_zip_cons. cbn [firstn]. f_equal. apply IH.
Qed.

(** The loop only appends to the stream it is given. *)
Lemma extend_key_stream_extends (fuel n : nat) (ks r : bytes) :
  extend_key_stream fuel n ks = Some r -> exists t, r = ks ++ t.
Proof.
  revert ks. induction fuel as [| fuel IH]; intros ks;
    cbn [extend_key_stream]; destruct (Nat.ltb (List.length ks) n);
    try discriminate.
  - intros [= <-]. exists []. now rewrite app_nil_r.
  - intros H. destruct (IH _ H) as (t & ->).
    rewrite <- app_assoc. eauto.
  - intros [= <-]. exists []. now rewrite app_nil_r.
Qed.

(** The stream built for more data continues the one built for less. *)
Lemma extend_key_stream_longer (fuel fuel' n m : nat) (ks r1 r2 : bytes) :
  (n <= m)%nat ->
  extend_key_stream fuel n ks = Some r1 ->
  extend_key_stream fuel' m ks = Some r2 ->
  exists t, r2 = r1 ++ t.
Proof.
  intros L. revert fuel' ks.
  induction fuel as [| fuel IH]; intros fuel' ks;
    cbn [extend_key_stream]; destruct (Nat.ltb_spec (List.length ks) n);
    try discriminate.
  - intros [= <-]. apply extend_key_stream_extends.
  - destruct fuel' as [| fuel']; cbn [extend_key_stream];
      destruct (Nat.ltb_spec (List.length ks) m); try discriminate; try lia.
    apply IH.
  - intros [= <-]. apply extend_key_stream_extends.
Qed.

Lemma expand_key_stream_longer (secret : bytes) (n m : nat) (r1 r2 : bytes) :
  (n <= m)%nat ->
  expand_key_stream secret n = Some r1 ->
  expand_key_stream secret m = Some r2 ->
  exists t, r2 = r1 ++ t.
Proof. unfold expand_key_stream. apply extend_key_stream_longer. Qed.

(** What [protect] computes, against the stream built for any length that
    covers the data. *)
Lemma protect_with_longer_stream (secret data ks : bytes) (m : nat) :
  truthy secret = true ->
  (List.length data <= m)%nat ->
  expand_key_stream secret m = Some ks ->
  protect secret data = Some (xor_zip data ks).
Proof.
  intros T L E.
  destruct (protect_spec secret data (truthy_nonempty secret T))
    as (ks0 & E0 & L0 & ->).
  destruct (expand_key_stream_longer secret _ _ _ _ L E0 E) as (t & ->).
  now rewrite xor_zip_app_r.
Qed.

(** X1. Two packets of any lengths protected under the same non-empty
    secret share the key stream on their common prefix: the XOR of the two
    ciphertexts is the XOR of the two plaintexts. *)
Theorem ciphertexts_xor_to_plaintexts (secret d1 d2 : bytes) :
  truthy secret = true ->
  exists c1 c2,
    protect secret d1 = Some c1 /\ protect secret d2 = Some c2
    /\ xor_zip c1 c2 = xor_zip d1 d2.
Proof.
  intros T.
  set (m := Nat.max (List.length d1) (List.length d2)).
  destruct (expand_key_stream_total secret m) as (ks & E & L).
  exists (xor_zip d1 ks), (xor_zip d2 ks).
  split; [| split].
  - apply protect_with_longer_stream with (m := m); trivial. lia.
  - apply protect_with_longer_stream with (m := m); trivial. lia.
  - apply xor_zip_same_key. lia.
Qed.

(** X1 at a four-byte and a two-byte packet. *)
Lemma ciphertexts_xor_to_plaintexts_witness :
  exists c1 c2,
    protect Fixtures.SECRET Fixtures.packet = Some c1
    /\ protect Fixtures.SECRET [xff; x10] = Some c2
    /\ xor_zip c1 c2 = xor_zip Fixtures.packet [xff; x10].
Proof.
  apply (ciphertexts_xor_to_plaintexts Fixtures.SECRET Fixtures.packet
           [xff; x10]).
  reflexivity.
Defined.

(** X2. The cipher is malleable: XOR-ing a mask into the input of
    [protect] XORs the same mask into its output, so a change made to a
    ciphertext shows, bit for bit, in what it decrypts to. *)
Theorem protect_malleable (secret c mask : bytes) :
  truthy secret = true ->
  exists p,
    protect secret c = Some p
    /\ protect secret (xor_zip c mask) = Some (xor_zip p mask).
Proof.
  intros T.
  destruct (expand_key_stream_total secret (List.length c)) as (ks & E & L).
  exists (xor_zip c ks). split.
  - now apply protect_with_longer_stream with (m := List.length c).
  - rewrite <- xor_zip_swap.
    apply protect_with_longer_stream with (m := List.length c); trivial.
    unfold xor_zip. rewrite length_map, length_combine. lia.
Qed.

(** X2 at a ciphertext whose last byte gets its low bit flipped. *)
Lemma protect_malleable_witness :
  exists p,
    protect Fixtures.SECRET [x83; x0d; x40; x68] = Some p
    /\ protect Fixtures.SECRET
         (xor_zip [x83; x0d; x40; x68] [x00; x00; x00; x01])
       = Some (xor_zip p [x00; x00; x00; x01]).
Proof.
  apply (protect_malleable Fixtures.SECRET [x83; x0d; x40; x68]
           [x00; x00; x00; x01]).
  reflexivity.
Defined.

(** X3. Byte [i] of the result of [protect] depends on the secret, on [i]
    and on byte [i] of the data only: protecting the first [k] bytes of a
    packet gives the first [k] bytes of the protected packet, for every
    secret (with no usable secret both sides are [None]). *)
Theorem protect_prefix (secret data : bytes) (k : nat) :
  protect secret (firstn k data) = option_map (firstn k) (protect secret data).
Proof.
  destruct (truthy secret) eqn:T.
  - destruct (expand_key_stream_total secret (List.length data))
      as (ks & E & L).
    rewrite (protect_with_longer_stream secret data ks (List.length data) T
               (Nat.le_refl _) E).
    cbn [option_map]. rewrite firstn_xor_zip.
    apply protect_with_longer_stream with (m := List.length data); trivial.
    rewrite length_firstn. lia.
  - destruct secret; [reflexivity | discriminate T].
Qed.

(* ------------------------------------------------------------------ *)
(** ** The key exchange, case by case *)

(** X4. When the key pair and the ciphertext are non-empty and the
    decapsulation recovers the secret the encapsulation produced, the key
    exchange of a new tunnel succeeds: the flag is raised, both managers
    hold that secret, the sockets are untouched, and the only data put on
    the channels are the public key and the ciphertext (never the
    secret). *)
Theorem key_exchange_succeeds (qdu_kem qcu_kem : KeyEncapsulation)
    (cu du : option socket) (pk ct s : bytes) :
  generate_keypair qdu_kem = Returns pk ->
  truthy pk = true ->
  encap_secret qcu_kem pk = Returns (ct, s) ->
  truthy ct = true ->
  decap_secret qdu_kem ct = Returns s ->
  let r := initialize_pqc (SCTPEventHandler_init qdu_kem qcu_kem cu du) in
  tunnel_ready (fst r) = true
  /\ shared_secret (qcu_pqc (fst r)) = Some s
  /\ shared_secret (qdu_pqc (fst r)) = Some s
  /\ cu_client_socket (fst r) = cu
  /\ du_conn (fst r) = du
  /\ snd r = [Log INFO (MsgGeneratedKeypair "QDU");
              TxOutput DU_NODE (PyBytes pk);
              Log INFO (MsgGeneratedSecret "QCU");
              TxOutput CU_NODE (PyBytes ct);
              Log INFO (MsgRecoveredSecret "QDU");
              Log INFO MsgTunnelReady].
Proof.
  intros G Tpk E Tct D.
  unfold initialize_pqc, setup_keypair, establish_shared_secret,
    SCTPEventHandler_init, PQCManager_init.
  cbn [qdu_pqc qcu_pqc is_server kem name negb].
  rewrite G. destruct pk as [| p0 pk]; [discriminate Tpk |].
  cbn [qdu_pqc qcu_pqc is_server kem name set_qdu_pqc set_qcu_pqc
       set_kem_instance set_public_key set_shared_secret kem_instance
       shared_secret tunnel_ready pyval_truthy truthy andb negb].
  rewrite E. destruct ct as [| c0 ct]; [discriminate Tct |].
  cbn [qdu_pqc qcu_pqc is_server kem name set_qdu_pqc set_qcu_pqc
       set_kem_instance set_public_key set_shared_secret kem_instance
       shared_secret tunnel_ready pyval_truthy truthy andb negb].
  rewrite D.
  cbn [qdu_pqc qcu_pqc is_server kem name set_qdu_pqc set_qcu_pqc
       set_kem_instance set_public_key set_shared_secret kem_instance
       shared_secret tunnel_ready pyval_truthy truthy andb negb].
  rewrite String.eqb_refl. repeat split.
Qed.

(** X4 at a key encapsulation whose two sides agree on [b"SECRET"]. *)
Lemma key_exchange_succeeds_witness :
  let r := initialize_pqc (Fixtures.fresh
                             (Fixtures.agreeing_kem Fixtures.SECRET)
                             (Fixtures.agreeing_kem Fixtures.SECRET)) in
  tunnel_ready (fst r) = true
  /\ shared_secret (qcu_pqc (fst r)) = Some Fixtures.SECRET
  /\ shared_secret (qdu_pqc (fst r)) = Some Fixtures.SECRET
  /\ cu_client_socket (fst r) = Some Fixtures.cu_sock
  /\ du_conn (fst r) = Some Fixtures.du_sock
  /\ snd r = [Log INFO (MsgGeneratedKeypair "QDU");
              TxOutput DU_NODE (PyBytes [x0a; x0b]);
              Log INFO (MsgGeneratedSecret "QCU");
              TxOutput CU_NODE (PyBytes [xc0; xc1]);
              Log INFO (MsgRecoveredSecret "QDU");
              Log INFO MsgTunnelReady].
Proof.
  apply (key_exchange_succeeds (Fixtures.agreeing_kem Fixtures.SECRET)
           (Fixtures.agreeing_kem Fixtures.SECRET)
           (Some Fixtures.cu_sock) (Some Fixtures.du_sock)
           [x0a; x0b] [xc0; xc1] Fixtures.SECRET); reflexivity.
Defined.

(** X5. When the decapsulation returns a secret whose digest differs from
    the digest of the encapsulated one, the key exchange reports the
    mismatch and leaves the flag down; each manager keeps the secret it
    derived. *)
Theorem key_exchange_mismatch (qdu_kem qcu_kem : KeyEncapsulation)
    (cu du : option socket) (pk ct s s' : bytes) :
  generate_keypair qdu_kem = Returns pk ->
  truthy pk = true ->
  encap_secret qcu_kem pk = Returns (ct, s) ->
  truthy ct = true ->
  decap_secret qdu_kem ct = Returns s' ->
  secret_hash s <> secret_hash s' ->
  let r := initialize_pqc (SCTPEventHandler_init qdu_kem qcu_kem cu du) in
  tunnel_ready (fst r) = false
  /\ shared_secret (qcu_pqc (fst r)) = Some s
  /\ shared_secret (qdu_pqc (fst r)) = Some s'
  /\ snd r = [Log INFO (MsgGeneratedKeypair "QDU");
              TxOutput DU_NODE (PyBytes pk);
              Log INFO (MsgGeneratedSecret "QCU");
              TxOutput CU_NODE (PyBytes ct);
              Log INFO (MsgRecoveredSecret "QDU");
              Log ERROR (MsgInitFailed E_mismatch)].
Proof.
  intros G Tpk E Tct D Ne.
  unfold initialize_pqc, setup_keypair, establish_shared_secret,
    SCTPEventHandler_init, PQCManager_init.
  cbn [qdu_pqc qcu_pqc is_server kem name negb].
  rewrite G. destruct pk as [| p0 pk]; [discriminate Tpk |].
  cbn [qdu_pqc qcu_pqc is_server kem name set_qdu_pqc set_qcu_pqc
       set_kem_instance set_public_key set_shared_secret kem_instance
       shared_secret tunnel_ready pyval_truthy truthy andb negb].
  rewrite E. destruct ct as [| c0 ct]; [discriminate Tct |].
  cbn [qdu_pqc qcu_pqc is_server kem name set_qdu_pqc set_qcu_pqc
       set_kem_instance set_public_key set_shared_secret kem_instance
       shared_secret tunnel_ready pyval_truthy truthy andb negb].
  rewrite D.
  cbn [qdu_pqc qcu_pqc is_server kem name set_qdu_pqc set_qcu_pqc
       set_kem_instance set_public_key set_shared_secret kem_instance
       shared_secret tunnel_ready pyval_truthy truthy andb negb].
  destruct (String.eqb_spec (secret_hash s) (secret_hash s'));
    [contradiction |].
  repeat split.
Qed.

(** X5 at a decapsulation that returns another secret. *)
Lemma key_exchange_mismatch_witness :
  let r := initialize_pqc (Fixtures.fresh
                             (Fixtures.agreeing_kem Fixtures.SECRET)
                             (Fixtures.agreeing_kem [x01])) in
  tunnel_ready (fst r) = false
  /\ shared_secret (qcu_pqc (fst r)) = Some [x01]
  /\ shared_secret (qdu_pqc (fst r)) = Some Fixtures.SECRET
  /\ snd r = [Log INFO (MsgGeneratedKeypair "QDU");
              TxOutput DU_NODE (PyBytes [x0a; x0b]);
              Log INFO (MsgGeneratedSecret "QCU");
              TxOutput CU_NODE (PyBytes [xc0; xc1]);
              Log INFO (MsgRecoveredSecret "QDU");
              Log ERROR (MsgInitFailed E_mismatch)].
Proof.
  apply (key_exchange_mismatch (Fixtures.agreeing_kem Fixtures.SECRET)
           (Fixtures.agreeing_kem [x01])
           (Some Fixtures.cu_sock) (Some Fixtures.du_sock)
           [x0a; x0b] [xc0; xc1] [x01] Fixtures.SECRET);
    try reflexivity.
  vm_compute. discriminate.
Defined.

(** X6. When the decapsulation raises, the key exchange fails half way:
    the QCU manager already holds the encapsulated secret, the QDU manager
    holds none, and the flag stays down. *)
Theorem key_exchange_half_established (qdu_kem qcu_kem : KeyEncapsulation)
    (cu du : option socket) (pk ct s : bytes) :
  generate_keypair qdu_kem = Returns pk ->
  truthy pk = true ->
  encap_secret qcu_kem pk = Returns (ct, s) ->
  truthy ct = true ->
  decap_secret qdu_kem ct = Raises ->
  let r := initialize_pqc (SCTPEventHandler_init qdu_kem qcu_kem cu du) in
  tunnel_ready (fst r) = false
  /\ shared_secret (qcu_pqc (fst r)) = Some s
  /\ shared_secret (qdu_pqc (fst r)) = None
  /\ snd r = [Log INFO (MsgGeneratedKeypair "QDU");
              TxOutput DU_NODE (PyBytes pk);
              Log INFO (MsgGeneratedSecret "QCU");
              TxOutput CU_NODE (PyBytes ct);
              Log ERROR (MsgKeyEstablishmentError "QDU");
              Log ERROR (MsgInitFailed E_recover)].
Proof.
  intros G Tpk E Tct D.
  unfold initialize_pqc, setup_keypair, establish_shared_secret,
    SCTPEventHandler_init, PQCManager_init.
  cbn [qdu_pqc qcu_pqc is_server kem name negb].
  rewrite G. destruct pk as [| p0 pk]; [discriminate Tpk |].
  cbn [qdu_pqc qcu_pqc is_server kem name set_qdu_pqc set_qcu_pqc
       set_kem_instance set_public_key set_shared_secret kem_instance
       shared_secret tunnel_ready pyval_truthy truthy andb negb].
  rewrite E. destruct ct as [| c0 ct]; [discriminate Tct |].
  cbn [qdu_pqc qcu_pqc is_server kem name set_qdu_pqc set_qcu_pqc
       set_kem_instance set_public_key set_shared_secret kem_instance
       shared_secret tunnel_ready pyval_truthy truthy andb negb].
  rewrite D.
  repeat split.
Qed.

(** X6 at a QDU side whose decapsulation raises. *)
Lemma key_exchange_half_established_witness :
  let r := initialize_pqc (Fixtures.fresh Fixtures.failing_kem
                             (Fixtures.agreeing_kem Fixtures.SECRET)) in
  tunnel_ready (fst r) = false
  /\ shared_secret (qcu_pqc (fst r)) = Some Fixtures.SECRET
  /\ shared_secret (qdu_pqc (fst r)) = None
  /\ snd r = [Log INFO (MsgGeneratedKeypair "QDU");
              TxOutput DU_NODE (PyBytes [x0a; x0b]);
              Log INFO (MsgGeneratedSecret "QCU");
              TxOutput CU_NODE (PyBytes [xc0; xc1]);
              Log ERROR (MsgKeyEstablishmentError "QDU");
              Log ERROR (MsgInitFailed E_recover)].
Proof.
  apply (key_exchange_half_established Fixtures.failing_kem
           (Fixtures.agreeing_kem Fixtures.SECRET)
           (Some Fixtures.cu_sock) (Some Fixtures.du_sock)
           [x0a; x0b] [xc0; xc1] Fixtures.SECRET); reflexivity.
Defined.

(** X7. [establish_shared_secret] either returns [None] and leaves the
    manager exactly as it was (a secret it held is kept), or returns a
    value that is not [None], and then the manager holds a secret. *)
Theorem establish_shared_secret_all_or_nothing (m : PQCManager)
    (client_public_key server_ciphertext : pyval) :
  let r := establish_shared_secret m client_public_key server_ciphertext in
  (fst (fst r) = PyNone /\ snd (fst r) = m)
  \/ (fst (fst r) <> PyNone /\ shared_secret (snd (fst r)) <> None
      /\ name (snd (fst r)) = name m
      /\ is_server (snd (fst r)) = is_server m).
Proof.
  unfold establish_shared_secret.
  destruct (is_server m && pyval_truthy client_public_key).
  - destruct client_public_key as [| | pk]; try (left; split; reflexivity).
    destruct (encap_secret (kem m) pk) as [[ct s] |];
      [| left; split; reflexivity].
    right. repeat split; discriminate.
  - destruct (negb (is_server m) && pyval_truthy server_ciphertext);
      [| left; split; reflexivity].
    destruct (kem_instance m) as [k |]; [| left; split; reflexivity].
    destruct server_ciphertext as [| | ct]; try (left; split; reflexivity).
    destruct (decap_secret k ct) as [s |]; [| left; split; reflexivity].
    right. repeat split; discriminate.
Qed.

(* ------------------------------------------------------------------ *)
(** ** One packet through a ready tunnel *)

Section Forwarding.
Variable host : byteorder.
Variables IPPROTO_SCTP SCTP_PPID : Z.

(** The source and the destination of a read differ. *)
Lemma destination_differs (st : SCTPEventHandler) (sock : sock_id) :
  Z.eqb (sock_fileno st sock) (-1) = false ->
  sock_id_eqb (destination (is_cu st sock)) sock = false
  /\ sock_id_eqb sock (destination (is_cu st sock)) = false.
Proof.
  unfold sock_fileno, is_cu, get_global.
  destruct sock; cbn [sock_id_eqb andb].
  - destruct (cu_client_socket st); [split; reflexivity | discriminate].
  - split; reflexivity.
Qed.

(** The effects of a read of a data packet when the flag is up and both
    managers hold the same usable secret. *)
Lemma secured_read (st : SCTPEventHandler) (sock : sock_id)
    (rcv : recv_outcome) (snd0 : send_outcome) (d secret : bytes)
    (ppid : N) :
  tunnel_ready st = true ->
  Z.eqb (sock_fileno st sock) (-1) = false ->
  read_packet host IPPROTO_SCTP SCTP_PPID rcv = Some (d, ppid) ->
  truthy d = true ->
  shared_secret (qcu_pqc st) = Some secret ->
  shared_secret (qdu_pqc st) = Some secret ->
  truthy secret = true ->
  exists c,
    protect secret d = Some c
    /\ List.length c = List.length d
    /\ _process_socket_data host IPPROTO_SCTP SCTP_PPID st sock rcv snd0
       = (st,
          [SetBlocking sock false;
           Log INFO (MsgProcessing (source_name (is_cu st sock))
                       (target_name (is_cu st sock)) (List.length d));
           Log INFO (MsgProtected (name (sender st (is_cu st sock)))
                       "Encrypted" (List.length d));
           TxOutput (out_node (is_cu st sock))
             (PyBytes (pack_I_native host ppid ++ c));
           Log INFO (MsgProtected (name (receiver st (is_cu st sock)))
                       "Decrypted" (List.length d))]
            ++ (if usable (get_global st (destination (is_cu st sock)))
                then forward_effects (destination (is_cu st sock)) d ppid
                       (target_name (is_cu st sock)) snd0
                else [])
            ++ [SetBlocking sock false]).
Proof.
  intros On Open R T Scu Sdu Ts.
  set (b := is_cu st sock).
  assert (Ss : shared_secret (sender st b) = Some secret)
    by (destruct b; assumption).
  assert (Sr : shared_secret (receiver st b) = Some secret)
    by (destruct b; assumption).
  assert (TTs : truthy_opt (shared_secret (sender st b)) = true)
    by now rewrite Ss.
  assert (TTr : truthy_opt (shared_secret (receiver st b)) = true)
    by now rewrite Sr.
  destruct (protect_involutive secret d (truthy_nonempty secret Ts))
    as (c & P1 & P2).
  pose proof (protect_length secret d c P1) as L.
  exists c. split; [exact P1 |]. split; [exact L |].
  destruct (protect_data_ready (sender st b) d "Encrypted" TTs)
    as (s1 & ks1 & _ & _ & _ & PD1).
  destruct (protect_data_ready (receiver st b) c "Decrypted" TTr)
    as (s2 & ks2 & _ & _ & _ & PD2).
  assert (F1 : fst (protect_data (sender st b) d "Encrypted") = Some c).
  { rewrite (protect_data_fst (sender st b) secret d "Encrypted" Ss).
    exact P1. }
  assert (F2 : fst (protect_data (receiver st b) c "Decrypted") = Some d).
  { rewrite (protect_data_fst (receiver st b) secret c "Decrypted" Sr).
    exact P2. }
  rewrite (process_socket_ready host IPPROTO_SCTP SCTP_PPID st sock rcv
             snd0 d ppid On Open R T).
  cbv zeta. fold b.
  rewrite (secured_flow_sent host st _ _ _ _ d c _ _ ppid snd0 F1 T
             (read_packet_bound _ _ _ _ _ _ R)).
  cbv zeta.
  rewrite PD1 in F1 |- *. rewrite PD2 in F2 |- *. cbn [fst snd] in *.
  injection F2 as F2. rewrite F2, L.
  destruct d as [| d0 d]; [discriminate T |].
  rewrite bytes_eqb_refl. cbn [negb].
  destruct (usable (get_global st (destination b)));
    [destruct snd0 |]; reflexivity.
Qed.
End Forwarding.

Lemma is_cu_open (st : SCTPEventHandler) (sock : sock_id) :
  Z.eqb (sock_fileno st sock) (-1) = false ->
  is_cu st sock = sock_id_eqb sock CU_SOCKET.
Proof.
  unfold sock_fileno, is_cu, get_global.
  destruct sock; cbn [sock_id_eqb andb]; [| reflexivity].
  destruct (cu_client_socket st); [reflexivity | discriminate].
Qed.

(** X8. A data packet read from one socket of a ready tunnel whose
    managers hold the same non-empty secret, the other socket being open
    and its send succeeding, is written exactly once, unchanged, to the
    other socket, with the PPID of the read when [sctp_send] is available
    (the [sendall] fallback carries no PPID); nothing is written back to
    the source, both sockets end non-blocking and the handler is
    unchanged. *)
Theorem packet_delivered_unchanged (host : byteorder)
    (IPPROTO_SCTP SCTP_PPID : Z) (st : SCTPEventHandler) (sock : sock_id)
    (rcv : recv_outcome) (snd0 : send_outcome) (d secret : bytes)
    (ppid : N) (flag : bool) :
  tunnel_ready st = true ->
  Z.eqb (sock_fileno st sock) (-1) = false ->
  read_packet host IPPROTO_SCTP SCTP_PPID rcv = Some (d, ppid) ->
  truthy d = true ->
  shared_secret (qcu_pqc st) = Some secret ->
  shared_secret (qdu_pqc st) = Some secret ->
  truthy secret = true ->
  usable (get_global st (destination (is_cu st sock))) = true ->
  snd0 <> SendError ->
  let r := _process_socket_data host IPPROTO_SCTP SCTP_PPID st sock rcv snd0 in
  let dst := destination (is_cu st sock) in
  fst r = st
  /\ filter is_socket_write (snd r)
     = [match snd0 with
        | SendSctp => SctpSend dst d ppid
        | _ => SendAll dst d
        end]
  /\ written dst (snd r) = d
  /\ written sock (snd r) = []
  /\ blocking_after dst flag (snd r) = false
  /\ blocking_after sock flag (snd r) = false.
Proof.
  intros On Open R T Scu Sdu Ts U Ok r dst.
  destruct (secured_read host IPPROTO_SCTP SCTP_PPID st sock rcv snd0 d
              secret ppid On Open R T Scu Sdu Ts) as (c & _ & _ & E).
  subst r dst. rewrite E, U. clear E.
  rewrite (is_cu_open st sock Open).
  destruct sock, snd0; try contradiction;
    cbn [sock_id_eqb destination fst snd app forward_effects filter
         is_socket_write written blocking_after];
    rewrite ?app_nil_r; repeat split.
Qed.

(** X8 at a packet from the CU socket. *)
Lemma packet_delivered_unchanged_witness :
  let st := Fixtures.established (Some Fixtures.SECRET)
              (Some Fixtures.SECRET) true in
  let r := _process_socket_data little 132 3 st CU_SOCKET
             (RecvPlain Fixtures.packet) SendSctp in
  fst r = st
  /\ filter is_socket_write (snd r)
     = [SctpSend DU_SOCKET Fixtures.packet F1AP_PPID]
  /\ written DU_SOCKET (snd r) = Fixtures.packet
  /\ written CU_SOCKET (snd r) = []
  /\ blocking_after DU_SOCKET true (snd r) = false
  /\ blocking_after CU_SOCKET true (snd r) = false.
Proof.
  intros st.
  apply (packet_delivered_unchanged little 132 3 st CU_SOCKET
           (RecvPlain Fixtures.packet) SendSctp Fixtures.packet
           Fixtures.SECRET F1AP_PPID true); try reflexivity.
  discriminate.
Defined.

(** X9. When the destination socket is gone or closed, the packet is
    still encrypted, handed to the channel and decrypted, and then dropped
    without a log line: nothing is written and the handler is unchanged. *)
Theorem closed_destination_drops_silently (host : byteorder)
    (IPPROTO_SCTP SCTP_PPID : Z) (st : SCTPEventHandler) (sock : sock_id)
    (rcv : recv_outcome) (snd0 : send_outcome) (d secret : bytes)
    (ppid : N) :
  tunnel_ready st = true ->
  Z.eqb (sock_fileno st sock) (-1) = false ->
  read_packet host IPPROTO_SCTP SCTP_PPID rcv = Some (d, ppid) ->
  truthy d = true ->
  shared_secret (qcu_pqc st) = Some secret ->
  shared_secret (qdu_pqc st) = Some secret ->
  truthy secret = true ->
  usable (get_global st (destination (is_cu st sock))) = false ->
  exists c,
    protect secret d = Some c
    /\ _process_socket_data host IPPROTO_SCTP SCTP_PPID st sock rcv snd0
       = (st,
          [SetBlocking sock false;
           Log INFO (MsgProcessing (source_name (is_cu st sock))
                       (target_name (is_cu st sock)) (List.length d));
           Log INFO (MsgProtected (name (sender st (is_cu st sock)))
                       "Encrypted" (List.length d));
           TxOutput (out_node (is_cu st sock))
             (PyBytes (pack_I_native host ppid ++ c));
           Log INFO (MsgProtected (name (receiver st (is_cu st sock)))
                       "Decrypted" (List.length d));
           SetBlocking sock false]).
Proof.
  intros On Open R T Scu Sdu Ts U.
  destruct (secured_read host IPPROTO_SCTP SCTP_PPID st sock rcv snd0 d
              secret ppid On Open R T Scu Sdu Ts) as (c & P & _ & E).
  exists c. split; [exact P |]. rewrite E, U. reflexivity.
Qed.

(** X9 at a tunnel whose DU connection is gone. *)
Lemma closed_destination_drops_silently_witness :
  let st := set_global (Fixtures.established (Some Fixtures.SECRET)
                          (Some Fixtures.SECRET) true) DU_SOCKET None in
  exists c,
    protect Fixtures.SECRET Fixtures.packet = Some c
    /\ _process_socket_data little 132 3 st CU_SOCKET
         (RecvPlain Fixtures.packet) SendSctp
       = (st,
          [SetBlocking CU_SOCKET false;
           Log INFO (MsgProcessing "CU" "DU" 4);
           Log INFO (MsgProtected "QCU" "Encrypted" 4);
           TxOutput CU_NODE (PyBytes (pack_I_native little F1AP_PPID ++ c));
           Log INFO (MsgProtected "QDU" "Decrypted" 4);
           SetBlocking CU_SOCKET false]).
Proof.
  intros st.
  apply (closed_destination_drops_silently little 132 3 st CU_SOCKET
           (RecvPlain Fixtures.packet) SendSctp Fixtures.packet
           Fixtures.SECRET F1AP_PPID); reflexivity.
Defined.

(** X10. When the send on the destination raises, the failure is logged
    and the handler goes on unchanged, but the destination socket, set to
    blocking mode for the send, is left in blocking mode: only the source
    socket is reset. *)
Theorem failed_send_leaves_destination_blocking (host : byteorder)
    (IPPROTO_SCTP SCTP_PPID : Z) (st : SCTPEventHandler) (sock : sock_id)
    (rcv : recv_outcome) (d secret : bytes) (ppid : N) (flag : bool) :
  tunnel_ready st = true ->
  Z.eqb (sock_fileno st sock) (-1) = false ->
  read_packet host IPPROTO_SCTP SCTP_PPID rcv = Some (d, ppid) ->
  truthy d = true ->
  shared_secret (qcu_pqc st) = Some secret ->
  shared_secret (qdu_pqc st) = Some secret ->
  truthy secret = true ->
  usable (get_global st (destination (is_cu st sock))) = true ->
  let r := _process_socket_data host IPPROTO_SCTP SCTP_PPID st sock rcv
             SendError in
  let dst := destination (is_cu st sock) in
  fst r = st
  /\ In (Log ERROR (MsgSendFailed (target_name (is_cu st sock)))) (snd r)
  /\ filter is_socket_write (snd r) = []
  /\ blocking_after dst flag (snd r) = true
  /\ blocking_after sock flag (snd r) = false.
Proof.
  intros On Open R T Scu Sdu Ts U r dst.
  destruct (secured_read host IPPROTO_SCTP SCTP_PPID st sock rcv SendError d
              secret ppid On Open R T Scu Sdu Ts) as (c & _ & _ & E).
  subst r dst. rewrite E, U. clear E.
  rewrite (is_cu_open st sock Open).
  destruct sock;
    cbn [sock_id_eqb destination target_name fst snd app forward_effects
         filter is_socket_write blocking_after In];
    repeat split; auto 10.
Qed.

(** X10 at a packet from the CU socket. *)
Lemma failed_send_leaves_destination_blocking_witness :
  let st := Fixtures.established (Some Fixtures.SECRET)
              (Some Fixtures.SECRET) true in
  let r := _process_socket_data little 132 3 st CU_SOCKET
             (RecvPlain Fixtures.packet) SendError in
  fst r = st
  /\ In (Log ERROR (MsgSendFailed "DU")) (snd r)
  /\ filter is_socket_write (snd r) = []
  /\ blocking_after DU_SOCKET false (snd r) = true
  /\ blocking_after CU_SOCKET false (snd r) = false.
Proof.
  intros st.
  apply (failed_send_leaves_destination_blocking little 132 3 st CU_SOCKET
           (RecvPlain Fixtures.packet) Fixtures.packet Fixtures.SECRET
           F1AP_PPID false); reflexivity.
Defined.

(** X11. With the flag up but no usable secret at the sending manager
    (unset or empty), a packet is dropped at the encryption step: the
    cipher error is logged, nothing reaches a channel or a socket, and the
    handler is unchanged. *)
Theorem ready_without_secret_drops (host : byteorder)
    (IPPROTO_SCTP SCTP_PPID : Z) (st : SCTPEventHandler) (sock : sock_id)
    (rcv : recv_outcome) (snd0 : send_outcome) (d : bytes) (ppid : N) :
  tunnel_ready st = true ->
  Z.eqb (sock_fileno st sock) (-1) = false ->
  read_packet host IPPROTO_SCTP SCTP_PPID rcv = Some (d, ppid) ->
  truthy d = true ->
  truthy_opt (shared_secret (sender st (is_cu st sock))) = false ->
  _process_socket_data host IPPROTO_SCTP SCTP_PPID st sock rcv snd0
  = (st,
     [SetBlocking sock false;
      Log INFO (MsgProcessing (source_name (is_cu st sock))
                  (target_name (is_cu st sock)) (List.length d));
      Log ERROR (MsgNoSharedSecret (name (sender st (is_cu st sock))));
      SetBlocking sock false]).
Proof.
  intros On Open R T U.
  rewrite (process_socket_ready host IPPROTO_SCTP SCTP_PPID st sock rcv
             snd0 d ppid On Open R T).
  cbv zeta. unfold secured_flow.
  rewrite (protect_data_no_secret _ d "Encrypted" U). reflexivity.
Qed.

(** X11 at a ready tunnel whose key exchange produced the empty secret. *)
Lemma ready_without_secret_drops_witness :
  let st := Fixtures.established (Some []) (Some []) true in
  _process_socket_data little 132 3 st CU_SOCKET
    (RecvPlain Fixtures.packet) SendSctp
  = (st,
     [SetBlocking CU_SOCKET false;
      Log INFO (MsgProcessing "CU" "DU" 4);
      Log ERROR (MsgNoSharedSecret "QCU");
      SetBlocking CU_SOCKET false]).
Proof.
  intros st.
  apply (ready_without_secret_drops little 132 3 st CU_SOCKET
           (RecvPlain Fixtures.packet) SendSctp Fixtures.packet F1AP_PPID);
    reflexivity.
Defined.

(* ------------------------------------------------------------------ *)
(** ** The payload tag of a read *)

Lemma extract_ppid_malformed (host : byteorder) (IPPROTO_SCTP SCTP_PPID : Z)
    (anc : list cmsg) (p0 : N) :
  existsb (fun c => is_ppid_cmsg IPPROTO_SCTP SCTP_PPID c
                    && negb (Nat.eqb (List.length (cmsg_data c)) 4)) anc
  = true ->
  extract_ppid host IPPROTO_SCTP SCTP_PPID anc p0 = None.
Proof.
  revert p0. induction anc as [| c anc IH]; intros p0; [discriminate |].
  cbn [existsb extract_ppid]. unfold is_ppid_cmsg at 1.
  destruct (Z.eqb (cmsg_level c) IPPROTO_SCTP && Z.eqb (cmsg_type c) SCTP_PPID);
    cbn [andb orb].
  - unfold unpack_I_native.
    destruct (Nat.eqb (List.length (cmsg_data c)) 4); cbn [negb orb];
      [apply IH | reflexivity].
  - apply IH.
Qed.

(** X12. If any SCTP PPID ancillary message of a read carries data that is
    not exactly four bytes long, the packet is lost, ready tunnel or not:
    the handler logs a transfer error, processes nothing, and leaves the
    socket open. *)
Theorem malformed_tag_drops_packet (host : byteorder)
    (IPPROTO_SCTP SCTP_PPID : Z) (st : SCTPEventHandler) (sock : sock_id)
    (d : bytes) (anc : list cmsg) (snd0 : send_outcome) :
  Z.eqb (sock_fileno st sock) (-1) = false ->
  existsb (fun c => is_ppid_cmsg IPPROTO_SCTP SCTP_PPID c
                    && negb (Nat.eqb (List.length (cmsg_data c)) 4)) anc
  = true ->
  _process_socket_data host IPPROTO_SCTP SCTP_PPID st sock (RecvMsg d anc) snd0
  = (st, [SetBlocking sock false; Log ERROR MsgTransferError;
          SetBlocking sock false]).
Proof.
  intros Open Bad. unfold _process_socket_data, reset_nonblocking.
  rewrite Open.
  rewrite (extract_ppid_malformed host IPPROTO_SCTP SCTP_PPID anc F1AP_PPID
             Bad).
  cbn [fst snd]. rewrite ?Open. reflexivity.
Qed.

(** X12 at a PPID message of three bytes, on a ready tunnel. *)
Lemma malformed_tag_drops_packet_witness :
  let st := Fixtures.established (Some Fixtures.SECRET)
              (Some Fixtures.SECRET) true in
  _process_socket_data little 132 3 st CU_SOCKET
    (RecvMsg Fixtures.packet
       [{| cmsg_level := 132; cmsg_type := 3;
           cmsg_data := [x3e; x00; x00] |}]) SendSctp
  = (st, [SetBlocking CU_SOCKET false; Log ERROR MsgTransferError;
          SetBlocking CU_SOCKET false]).
Proof.
  intros st.
  apply (malformed_tag_drops_packet little 132 3 st CU_SOCKET
           Fixtures.packet); reflexivity.
Defined.

(** X13. When a read carries several well-formed SCTP PPID ancillary
    messages, the tag of the packet is the one of the last of them. *)
Theorem last_ppid_wins (host : byteorder) (IPPROTO_SCTP SCTP_PPID : Z)
    (anc : list cmsg) (c : cmsg) (p0 p q : N) :
  extract_ppid host IPPROTO_SCTP SCTP_PPID anc p0 = Some p ->
  is_ppid_cmsg IPPROTO_SCTP SCTP_PPID c = true ->
  unpack_I_native host (cmsg_data c) = Some q ->
  extract_ppid host IPPROTO_SCTP SCTP_PPID (anc ++ [c]) p0 = Some q.
Proof.
  intros E M U. revert p0 E.
  induction anc as [| a anc IH]; intros p0; cbn [app extract_ppid].
  - intros _. unfold is_ppid_cmsg in M. now rewrite M, U.
  - destruct (_ && _).
    + destruct (unpack_I_native host (cmsg_data a)); [apply IH | discriminate].
    + apply IH.
Qed.

(** X13 at two PPID messages, 60 then 61. *)
Lemma last_ppid_wins_witness :
  extract_ppid little 132 3
    ([{| cmsg_level := 132; cmsg_type := 3;
         cmsg_data := [x3c; x00; x00; x00] |}]
       ++ [{| cmsg_level := 132; cmsg_type := 3;
              cmsg_data := [x3d; x00; x00; x00] |}]) F1AP_PPID
  = Some 61%N.
Proof.
  apply (last_ppid_wins little 132 3 _ _ F1AP_PPID 60%N 61%N); reflexivity.
Defined.

(* ------------------------------------------------------------------ *)
(** ** Closed sockets *)

(** X14. An empty read on an open socket closes that socket and clears its
    global, after the warning; the other socket, the flag and the managers
    are untouched, and the closed socket is not reset to non-blocking. *)
Theorem empty_read_closes_source (host : byteorder)
    (IPPROTO_SCTP SCTP_PPID : Z) (st : SCTPEventHandler) (sock : sock_id)
    (rcv : recv_outcome) (snd0 : send_outcome) (ppid : N) :
  Z.eqb (sock_fileno st sock) (-1) = false ->
  read_packet host IPPROTO_SCTP SCTP_PPID rcv = Some ([], ppid) ->
  _process_socket_data host IPPROTO_SCTP SCTP_PPID st sock rcv snd0
  = (set_global st sock None,
     [SetBlocking sock false; Log WARNING (MsgEmptyData sock); Close sock]).
Proof.
  intros Open R.
  assert (G : exists so, get_global st sock = Some so).
  { unfold sock_fileno in Open. destruct (get_global st sock); eauto.
    discriminate. }
  destruct G as (so & G).
  assert (E : match rcv with
              | RecvMsg d0 anc =>
                  match extract_ppid host IPPROTO_SCTP SCTP_PPID anc F1AP_PPID
                  with
                  | Some p => inl (d0, p)
                  | None => inr RecvError
                  end
              | RecvPlain d0 => inl (d0, F1AP_PPID)
              | other => inr other
              end = inl ([], ppid)).
  { destruct rcv as [d' anc | d' | | |]; cbn [read_packet] in R;
      try discriminate.
    - destruct (extract_ppid _ _ _ anc F1AP_PPID); [| discriminate].
      injection R as -> ->. reflexivity.
    - injection R as -> <-. reflexivity. }
  unfold _process_socket_data, _handle_empty_data, close_side,
    reset_nonblocking.
  rewrite Open, E, (is_cu_open st sock Open).
  destruct sock; cbn [sock_id_eqb] in *; rewrite G; cbn [fst snd];
    unfold sock_fileno; cbn; reflexivity.
Qed.

(** X14 at an empty read from the DU connection. *)
Lemma empty_read_closes_source_witness :
  let st := Fixtures.established (Some Fixtures.SECRET)
              (Some Fixtures.SECRET) true in
  _process_socket_data little 132 3 st DU_SOCKET (RecvPlain []) SendSctp
  = (set_global st DU_SOCKET None,
     [SetBlocking DU_SOCKET false; Log WARNING (MsgEmptyData DU_SOCKET);
      Close DU_SOCKET]).
Proof.
  intros st.
  apply (empty_read_closes_source little 132 3 st DU_SOCKET (RecvPlain [])
           SendSctp F1AP_PPID); reflexivity.
Defined.

Lemma only_closes_refl (st : SCTPEventHandler) : only_closes st st.
Proof. intros s. now left. Qed.

Lemma only_closes_trans (a b c : SCTPEventHandler) :
  only_closes a b -> only_closes b c -> only_closes a c.
Proof.
  intros H1 H2 s. destruct (H2 s) as [E | E]; [| now right].
  rewrite E. apply H1.
Qed.

Lemma only_closes_set_global (st : SCTPEventHandler) (side : sock_id) :
  only_closes st (set_global st side None).
Proof. intros s. destruct side, s; cbn; auto. Qed.

Section ClosedSockets.
Variable host : byteorder.
Variables IPPROTO_SCTP SCTP_PPID : Z.

Lemma close_side_only_closes (st : SCTPEventHandler) (sock : sock_id)
    (m : sock_id -> log_msg) :
  only_closes st (fst (close_side st sock m)).
Proof.
  unfold close_side.
  destruct (get_global st _); cbn [fst];
    [apply only_closes_set_global | apply only_closes_refl].
Qed.

Lemma process_socket_only_closes (st : SCTPEventHandler) (sock : sock_id)
    (rcv : recv_outcome) (snd0 : send_outcome) :
  only_closes st
    (fst (_process_socket_data host IPPROTO_SCTP SCTP_PPID st sock rcv snd0)).
Proof.
  unfold _process_socket_data, _handle_empty_data, _handle_connection_error.
  destruct (Z.eqb (sock_fileno st sock) (-1)); [apply only_closes_refl |].
  destruct rcv as [d anc | d | | |].
  - destruct (extract_ppid _ _ _ anc F1AP_PPID); [| apply only_closes_refl].
    destruct d.
    + pose proof (close_side_only_closes st sock MsgEmptyData) as H.
      destruct (close_side st sock MsgEmptyData). exact H.
    + destruct (tunnel_ready st); [| apply only_closes_refl].
      destruct (_process_data_through_pqc _ _ _ _ _ _ _ _) as [[|] ?];
        apply only_closes_refl.
  - destruct d.
    + pose proof (close_side_only_closes st sock MsgEmptyData) as H.
      destruct (close_side st sock MsgEmptyData). exact H.
    + destruct (tunnel_ready st); [| apply only_closes_refl].
      destruct (_process_data_through_pqc _ _ _ _ _ _ _ _) as [[|] ?];
        apply only_closes_refl.
  - apply only_closes_refl.
  - pose proof (close_side_only_closes st sock MsgConnectionError) as H.
    destruct (close_side st sock MsgConnectionError). exact H.
  - apply only_closes_refl.
Qed.

Lemma process_readable_only_closes (st : SCTPEventHandler)
    (l : list (sock_id * recv_outcome * send_outcome)) :
  only_closes st (fst (process_readable host IPPROTO_SCTP SCTP_PPID st l)).
Proof.
  revert st. induction l as [| [[sock rcv] snd0] l IH]; intros st;
    cbn [process_readable]; [apply only_closes_refl |].
  pose proof (process_socket_only_closes st sock rcv snd0) as H1.
  destruct (_process_socket_data _ _ _ st sock rcv snd0) as [st1 t1].
  pose proof (IH st1) as H2.
  destruct (process_readable _ _ _ st1 l) as [st2 t2].
  cbn [fst] in *. eapply only_closes_trans; eassumption.
Qed.

Lemma poll_only_closes (st : SCTPEventHandler) (sel : select_outcome) :
  only_closes st (fst (poll_sctp_messages host IPPROTO_SCTP SCTP_PPID st sel)).
Proof.
  unfold poll_sctp_messages.
  destruct (negb _); [apply only_closes_refl |].
  destruct sel as [l |]; [| apply only_closes_refl].
  pose proof (process_readable_only_closes st
      (filter (fun x => usable (get_global st (fst (fst x)))) l)) as H.
  destruct (process_readable _ _ _ st _). exact H.
Qed.

Lemma poll_loop_only_closes (st : SCTPEventHandler)
    (w : list select_outcome) :
  only_closes st (fst (poll_loop host IPPROTO_SCTP SCTP_PPID st w)).
Proof.
  revert st. induction w as [| sel w IH]; intros st; cbn [poll_loop];
    [apply only_closes_refl |].
  pose proof (poll_only_closes st sel) as H1.
  destruct (poll_sctp_messages _ _ _ st sel) as [st1 t1].
  pose proof (IH st1) as H2.
  destruct (poll_loop _ _ _ st1 w) as [st2 t2].
  cbn [fst] in *. eapply only_closes_trans; eassumption.
Qed.
End ClosedSockets.

(** X15. There is no reconnection: over any number of polls a socket
    global only ever goes from a socket to [None], so a socket that is
    gone or closed is never usable again, whatever the peers send. *)
Theorem closed_socket_stays_closed (host : byteorder)
    (IPPROTO_SCTP SCTP_PPID : Z) (st : SCTPEventHandler)
    (w : list select_outcome) (s : sock_id) :
  usable (get_global st s) = false ->
  usable (get_global (fst (poll_loop host IPPROTO_SCTP SCTP_PPID st w)) s)
  = false.
Proof.
  intros U.
  destruct (poll_loop_only_closes host IPPROTO_SCTP SCTP_PPID st w s)
    as [E | E]; rewrite E; [exact U | reflexivity].
Qed.

(** X15 at a tunnel whose CU connection is gone. *)
Lemma closed_socket_stays_closed_witness :
  let st := set_global (Fixtures.established (Some Fixtures.SECRET)
                          (Some Fixtures.SECRET) true) CU_SOCKET None in
  usable (get_global
            (fst (poll_loop little 132 3 st
                    [Readable [(CU_SOCKET, RecvPlain Fixtures.packet, SendSctp);
                               (DU_SOCKET, RecvPlain Fixtures.packet, SendSctp)];
                     Readable [(CU_SOCKET, RecvPlain [x05], SendSctp)]]))
            CU_SOCKET)
  = false.
Proof.
  intros st. apply (closed_socket_stays_closed little 132 3 st).
  reflexivity.
Defined.

(* ------------------------------------------------------------------ *)
(** ** The poll loop never stops *)

Lemma count_poll_enqueue (t : Q) (e : sim_event) (q : list (Q * sim_event)) :
  count_poll (enqueue t e q)
  = (match e with Fire evtype_poll => 1 | _ => 0 end + count_poll q)%nat.
Proof.
  induction q as [| [t' e'] q IH]; cbn [enqueue count_poll].
  - destruct e as [[] |]; reflexivity.
  - destruct (Qle_bool t' t); cbn [count_poll].
    + rewrite IH. destruct e' as [[] |], e as [[] |]; lia.
    + destruct e as [[] |]; reflexivity.
Qed.

Lemma count_poll_perform (now : Q) (t : trace) (q : list (Q * sim_event)) :
  forallb (fun e => negb (schedules_init e)) t = true ->
  count_poll (perform now t q) = (count_sched_poll t + count_poll q)%nat.
Proof.
  revert q. induction t as [| e t IH]; intros q H; [reflexivity |].
  cbn [forallb] in H. apply andb_prop in H as [He Ht].
  destruct e as [| | | | | | d []]; cbn [perform count_sched_poll];
    try (now apply IH).
  - rewrite IH by exact Ht. now rewrite count_poll_enqueue.
  - rewrite IH by exact Ht. rewrite count_poll_enqueue. lia.
  - discriminate He.
Qed.

Lemma count_sched_poll_app (a b : trace) :
  count_sched_poll (a ++ b) = (count_sched_poll a + count_sched_poll b)%nat.
Proof.
  induction a as [| e a IH]; [reflexivity |].
  destruct e as [| | | | | | d []]; cbn [app count_sched_poll]; lia.
Qed.

Lemma count_sched_poll_none (t : trace) :
  forallb (fun e => negb (is_schedule e)) t = true ->
  count_sched_poll t = 0%nat.
Proof.
  induction t as [| e t IH]; [reflexivity |].
  cbn [forallb]. intros H. apply andb_prop in H as [He Ht].
  destruct e as [| | | | | | d []]; cbn [count_sched_poll];
    try (now apply IH); discriminate He.
Qed.

Section PollLoop.
Variable host : byteorder.
Variables IPPROTO_SCTP SCTP_PPID : Z.

Lemma process_readable_schedules_nothing (st : SCTPEventHandler)
    (l : list (sock_id * recv_outcome * send_outcome)) :
  forallb (fun e => negb (is_schedule e))
    (snd (process_readable host IPPROTO_SCTP SCTP_PPID st l)) = true.
Proof.
  apply (process_readable_all host IPPROTO_SCTP SCTP_PPID
           (fun e => negb (is_schedule e)) (fun _ => True)); trivial.
  intros st0 sock rcv snd0 _.
  pose proof (process_socket_data_plane host IPPROTO_SCTP SCTP_PPID
                st0 sock rcv snd0) as H.
  revert H. apply forallb_weaken.
  intros [lvl [] | | | | | |]; cbn; congruence.
Qed.

(** A poll schedules exactly one poll, whatever it reads. *)
Lemma poll_schedules_one (st : SCTPEventHandler) (sel : select_outcome) :
  count_sched_poll
    (snd (poll_sctp_messages host IPPROTO_SCTP SCTP_PPID st sel)) = 1%nat.
Proof.
  unfold poll_sctp_messages.
  destruct (negb _); [reflexivity |].
  destruct sel as [l |]; [| reflexivity].
  pose proof (process_readable_schedules_nothing st
      (filter (fun x => usable (get_global st (fst (fst x)))) l)) as H.
  destruct (process_readable _ _ _ st _) as [st' t]. cbn [snd] in *.
  rewrite count_sched_poll_app, (count_sched_poll_none t H). reflexivity.
Qed.

Lemma step_one_poll (w : list select_outcome) (s : simulation) :
  count_poll (events s) = 1%nat ->
  count_poll (events (snd (sim_step host IPPROTO_SCTP SCTP_PPID w s)))
  = 1%nat.
Proof.
  intros C. unfold sim_step.
  destruct (events s) as [| [now ev] rest] eqn:E; [discriminate C |].
  cbn [count_poll] in C.
  destruct ev as [[] | n m].
  - pose proof (poll_schedules_one (handler s)
                  match w with sel :: _ => sel | [] => Readable [] end) as P.
    pose proof (poll_trace_facts host IPPROTO_SCTP SCTP_PPID (handler s)
                  match w with sel :: _ => sel | [] => Readable [] end)
      as [F _].
    destruct (poll_sctp_messages _ _ _ _ _) as [h' t].
    cbn [fst snd events] in *.
    rewrite count_poll_perform by exact F. lia.
  - pose proof (initialize_pqc_outcome (handler s)) as (F & _).
    destruct (initialize_pqc (handler s)) as [h' t].
    cbn [fst snd events] in *.
    rewrite count_poll_perform, (count_sched_poll_none t F); [exact C |].
    revert F. apply forallb_weaken. intros []; cbn; congruence.
  - cbn [fst snd events].
    destruct (handle_message_facts n m) as [F _].
    rewrite count_poll_perform by exact F.
    destruct m; exact C.
Qed.
End PollLoop.

(** X16. The poll loop never stops and never doubles: from the start of
    the simulation on, after any number of events, whatever the key
    exchange, the reads and the writes do, exactly one firing of the poll
    event is pending. *)
Theorem exactly_one_poll_pending (host : byteorder)
    (IPPROTO_SCTP SCTP_PPID : Z) (h : SCTPEventHandler)
    (w : list select_outcome) (n : nat) :
  count_poll (events (sim_run host IPPROTO_SCTP SCTP_PPID n w (sim_init h)))
  = 1%nat.
Proof.
  assert (G : forall k w0 s, count_poll (events s) = 1%nat ->
              count_poll (events (sim_run host IPPROTO_SCTP SCTP_PPID k w0 s))
              = 1%nat).
  { induction k as [| k IH]; intros w0 s C; cbn [sim_run]; [exact C |].
    pose proof (step_one_poll host IPPROTO_SCTP SCTP_PPID w0 s C) as C1.
    destruct (sim_step host IPPROTO_SCTP SCTP_PPID w0 s) as [w1 s1].
    now apply IH. }
  apply G. reflexivity.
Qed.

(* ------------------------------------------------------------------ *)
(** ** The SeQUeNCe tunnel: delay, lost packets, stop time *)

(** X17. In the SeQUeNCe tunnel, a packet read from the CU side in a turn
    that starts with no pending event is written to the DU socket at
    simulation time [T + delay] and not before, after a sleep of [delay]
    (125 ms for a node as constructed), provided that time is before the
    stop time, the DU socket is present and its send returns; the clock is
    then [T + delay] and nothing stays pending. *)
Theorem sequence_packet_delayed (tn : SequenceTunnel.Tunnel) (d : bytes)
    (so : socket) (sends : list bool) :
  SequenceTunnel.events (SequenceTunnel.timeline tn) = [] ->
  truthy d = true ->
  SequenceTunnel.du_conn tn = Some so ->
  (SequenceTunnel.now (SequenceTunnel.timeline tn)
   + SequenceTunnel.quantum_delay (SequenceTunnel.qcu_node tn)
   < SequenceTunnel.stop_time (SequenceTunnel.timeline tn))%Z ->
  hd true sends = true ->
  let T := SequenceTunnel.now (SequenceTunnel.timeline tn) in
  let delay := SequenceTunnel.quantum_delay (SequenceTunnel.qcu_node tn) in
  let r := SequenceTunnel.handle_turn tn (Some (Returns d)) None sends in
  snd r = [((T + delay)%Z, SequenceTunnel.Sleep delay);
           ((T + delay)%Z, SequenceTunnel.Send SequenceTunnel.DU d)]
  /\ SequenceTunnel.now (SequenceTunnel.timeline (fst r)) = (T + delay)%Z
  /\ SequenceTunnel.events (SequenceTunnel.timeline (fst r)) = []
  /\ SequenceTunnel.pending_data (SequenceTunnel.qcu_node (fst r)) = None.
Proof.
  intros E T0 D B S T delay r. subst r T delay.
  destruct tn as [[t0 evs stop] qcu qdu cu du].
  cbn [SequenceTunnel.timeline SequenceTunnel.events SequenceTunnel.now
       SequenceTunnel.stop_time SequenceTunnel.qcu_node
       SequenceTunnel.du_conn] in *.
  subst evs du. destruct d as [| b0 d]; [discriminate T0 |].
  unfold SequenceTunnel.handle_turn, SequenceTunnel.run,
    SequenceTunnel.process_classical_data, SequenceTunnel.schedule,
    SequenceTunnel.set_node.
  cbn.
  destruct (Z.leb_spec stop (t0 + SequenceTunnel.quantum_delay qcu));
    [lia |].
  destruct sends as [| b sends]; cbn [hd] in S; [| subst b];
    cbn;
    replace (t0 + SequenceTunnel.quantum_delay qcu - t0)%Z
      with (SequenceTunnel.quantum_delay qcu) by lia;
    repeat split.
Qed.

(** X17 at the first packet of a tunnel as [main] starts it. *)
Lemma sequence_packet_delayed_witness :
  let tn := SequenceTunnel.start (Some Fixtures.cu_sock)
              (Some Fixtures.du_sock) in
  let r := SequenceTunnel.handle_turn tn (Some (Returns Fixtures.packet))
             None [true] in
  snd r = [(125000000000%Z, SequenceTunnel.Sleep 125000000000);
           (125000000000%Z,
            SequenceTunnel.Send SequenceTunnel.DU Fixtures.packet)]
  /\ SequenceTunnel.now (SequenceTunnel.timeline (fst r)) = 125000000000%Z
  /\ SequenceTunnel.events (SequenceTunnel.timeline (fst r)) = []
  /\ SequenceTunnel.pending_data (SequenceTunnel.qcu_node (fst r)) = None.
Proof.
  intros tn.
  apply (sequence_packet_delayed tn Fixtures.packet Fixtures.du_sock [true]);
    reflexivity.
Defined.



(** X19. A node keeps one pending packet: when a second packet is handed
    to the same node before the timeline has run, the first packet is
    lost.  The run sends the second packet once, at the delivery time of
    the first event, and the second event finds nothing to deliver,
    although the node counted two messages. *)
Theorem sequence_second_packet_overwrites (tn : SequenceTunnel.Tunnel)
    (a b : bytes) (so : socket) (sends : list bool) :
  SequenceTunnel.events (SequenceTunnel.timeline tn) = [] ->
  truthy b = true ->
  SequenceTunnel.du_conn tn = Some so ->
  (SequenceTunnel.now (SequenceTunnel.timeline tn)
   + SequenceTunnel.quantum_delay (SequenceTunnel.qcu_node tn)
   < SequenceTunnel.stop_time (SequenceTunnel.timeline tn))%Z ->
  hd true sends = true ->
  let T := SequenceTunnel.now (SequenceTunnel.timeline tn) in
  let delay := SequenceTunnel.quantum_delay (SequenceTunnel.qcu_node tn) in
  let tn1 :=
    SequenceTunnel.set_node tn SequenceTunnel.QCU
      (SequenceTunnel.process_classical_data SequenceTunnel.QCU
         (SequenceTunnel.qcu_node tn) (SequenceTunnel.timeline tn) a "DU") in
  let tn2 :=
    SequenceTunnel.set_node tn1 SequenceTunnel.QCU
      (SequenceTunnel.process_classical_data SequenceTunnel.QCU
         (SequenceTunnel.qcu_node tn1) (SequenceTunnel.timeline tn1) b "DU") in
  let r := SequenceTunnel.run tn2 sends in
  List.length (SequenceTunnel.events (SequenceTunnel.timeline tn2)) = 2%nat
  /\ snd r = [((T + delay)%Z, SequenceTunnel.Sleep delay);
              ((T + delay)%Z, SequenceTunnel.Send SequenceTunnel.DU b)]
  /\ SequenceTunnel.events (SequenceTunnel.timeline (fst r)) = []
  /\ SequenceTunnel.message_count (SequenceTunnel.qcu_node (fst r))
     = (SequenceTunnel.message_count (SequenceTunnel.qcu_node tn) + 1 + 1)%Z.
Proof.
  intros E Tb D B S T delay tn1 tn2 r. subst r tn2 tn1 T delay.
  destruct tn as [[t0 evs stop] qcu qdu cu du].
  cbn [SequenceTunnel.timeline SequenceTunnel.events SequenceTunnel.now
       SequenceTunnel.stop_time SequenceTunnel.qcu_node
       SequenceTunnel.du_conn] in *.
  subst evs du.
  destruct b as [| b0 b]; [discriminate Tb |].
  unfold SequenceTunnel.run, SequenceTunnel.process_classical_data,
    SequenceTunnel.schedule, SequenceTunnel.set_node.
  cbn. rewrite Z.leb_refl. cbn.
  destruct (Z.leb_spec stop (t0 + SequenceTunnel.quantum_delay qcu));
    [lia |].
  assert (H1 : hd true sends = match sends with x :: _ => x | [] => true end)
    by now destruct sends.
  cbn. rewrite <- H1, S. cbn.
  destruct (Z.leb_spec stop (t0 + SequenceTunnel.quantum_delay qcu));
    [lia |].
  cbn.
  replace (t0 + SequenceTunnel.quantum_delay qcu - t0)%Z
    with (SequenceTunnel.quantum_delay qcu) by lia.
  repeat split.
Qed.

(** X19 at two packets handed to the QCU node of a new tunnel. *)
Lemma sequence_second_packet_overwrites_witness :
  let tn := SequenceTunnel.start (Some Fixtures.cu_sock)
              (Some Fixtures.du_sock) in
  let tn1 :=
    SequenceTunnel.set_node tn SequenceTunnel.QCU
      (SequenceTunnel.process_classical_data SequenceTunnel.QCU
         (SequenceTunnel.qcu_node tn) (SequenceTunnel.timeline tn)
         Fixtures.packet "DU") in
  let tn2 :=
    SequenceTunnel.set_node tn1 SequenceTunnel.QCU
      (SequenceTunnel.process_classical_data SequenceTunnel.QCU
         (SequenceTunnel.qcu_node tn1) (SequenceTunnel.timeline tn1)
         [x0a; x0b] "DU") in
  let r := SequenceTunnel.run tn2 [true; true] in
  List.length (SequenceTunnel.events (SequenceTunnel.timeline tn2)) = 2%nat
  /\ snd r = [((0 + 125000000000)%Z, SequenceTunnel.Sleep 125000000000);
              ((0 + 125000000000)%Z,
               SequenceTunnel.Send SequenceTunnel.DU [x0a; x0b])]
  /\ SequenceTunnel.events (SequenceTunnel.timeline (fst r)) = []
  /\ SequenceTunnel.message_count (SequenceTunnel.qcu_node (fst r))
     = (0 + 1 + 1)%Z.
Proof.
  intros tn.
  apply (sequence_second_packet_overwrites tn Fixtures.packet [x0a; x0b]
           Fixtures.du_sock [true; true]); reflexivity.
Defined.

(** X20. A delivery whose time has reached the stop time of the timeline
    never runs: a packet read at a time [T] with [T + delay] at or past
    the stop time is written nowhere; its event and its data stay
    pending, and running the timeline again changes nothing. *)
Theorem sequence_no_delivery_at_stop_time (tn : SequenceTunnel.Tunnel)
    (d : bytes) (sends sends' : list bool) :
  SequenceTunnel.events (SequenceTunnel.timeline tn) = [] ->
  truthy d = true ->
  (SequenceTunnel.stop_time (SequenceTunnel.timeline tn)
   <= SequenceTunnel.now (SequenceTunnel.timeline tn)
      + SequenceTunnel.quantum_delay (SequenceTunnel.qcu_node tn))%Z ->
  let r := SequenceTunnel.handle_turn tn (Some (Returns d)) None sends in
  snd r = []
  /\ List.length (SequenceTunnel.events (SequenceTunnel.timeline (fst r)))
     = 1%nat
  /\ SequenceTunnel.pending_data (SequenceTunnel.qcu_node (fst r)) = Some d
  /\ SequenceTunnel.now (SequenceTunnel.timeline (fst r))
     = SequenceTunnel.now (SequenceTunnel.timeline tn)
  /\ SequenceTunnel.run (fst r) sends' = (fst r, []).
Proof.
  intros E T0 B r. subst r.
  destruct tn as [[t0 evs stop] qcu qdu cu du].
  cbn [SequenceTunnel.timeline SequenceTunnel.events SequenceTunnel.now
       SequenceTunnel.stop_time SequenceTunnel.qcu_node] in *.
  subst evs.
  destruct d as [| b0 d]; [discriminate T0 |].
  unfold SequenceTunnel.handle_turn, SequenceTunnel.run,
    SequenceTunnel.process_classical_data, SequenceTunnel.schedule,
    SequenceTunnel.set_node.
  cbn.
  destruct (Z.leb_spec stop (t0 + SequenceTunnel.quantum_delay qcu));
    [| lia].
  cbn.
  destruct (Z.leb_spec stop (t0 + SequenceTunnel.quantum_delay qcu));
    [| lia].
  repeat split.
Qed.

(** X20 at a tunnel whose clock is 125 ms before the stop time of one
    hour. *)
Lemma sequence_no_delivery_at_stop_time_witness :
  let tn :=
    {| SequenceTunnel.timeline :=
         {| SequenceTunnel.now := 3599875000000000;
            SequenceTunnel.events := [];
            SequenceTunnel.stop_time := SequenceTunnel.SIMULATION_TIME_PS |};
       SequenceTunnel.qcu_node := SequenceTunnel.QuantumTunnelNode_init "QCU";
       SequenceTunnel.qdu_node := SequenceTunnel.QuantumTunnelNode_init "QDU";
       SequenceTunnel.qcu_to_cu_socket := Some Fixtures.cu_sock;
       SequenceTunnel.du_conn := Some Fixtures.du_sock |} in
  let r := SequenceTunnel.handle_turn tn (Some (Returns Fixtures.packet))
             None [true] in
  snd r = []
  /\ List.length (SequenceTunnel.events (SequenceTunnel.timeline (fst r)))
     = 1%nat
  /\ SequenceTunnel.pending_data (SequenceTunnel.qcu_node (fst r))
     = Some Fixtures.packet
  /\ SequenceTunnel.now (SequenceTunnel.timeline (fst r))
     = 3599875000000000%Z
  /\ SequenceTunnel.run (fst r) [true] = (fst r, []).
Proof.
  intros tn.
  apply (sequence_no_delivery_at_stop_time tn Fixtures.packet [true] [true]).
  - reflexivity.
  - reflexivity.
  - vm_compute. discriminate.
Defined.
